(** * Mython: the lexer and the tree-walking evaluator

    A shallow embedding of [lexer.cpp], [runtime.cpp] and [statement.cpp].
    The C++ functions become Rocq functions over explicit state:

    - a [std::istream] is a record holding the characters still to be read
      and the two state bits the lexer observes ([eofbit], [failbit]);
    - the lexer is a record of its fields, and [ReadToken] maps a lexer to
      the token it returns and the lexer it leaves behind;
    - the evaluator threads the closure it was given by reference and the
      world (the heap of class instances and the output stream of the
      context) through every [Execute].

    Loops and recursive calls of the source are given fuel; a result of
    [None] (lexer) or [OutOfFuel] (evaluator) stands for a computation that
    did not finish within the fuel. *)

From Stdlib Require Import ZArith Lia Bool Ascii String DecimalString.
From Stdlib Require DecimalZ.
From stdpp Require Import gmap strings list.

Local Open Scope Z_scope.

(** ** Characters *)

Module chars.

Definition newline : ascii := "010"%char.
Definition tab : ascii := "009"%char.
Definition carriage_return : ascii := "013"%char.
Definition space : ascii := " "%char.
Definition backslash : ascii := "\"%char.
Definition apostrophe : ascii := "'"%char.
Definition double_quote : ascii := "034"%char.
Definition hash : ascii := "#"%char.
Definition underscore : ascii := "_"%char.
Definition equals_sign : ascii := "="%char.

Definition in_range (lo hi : nat) (c : ascii) : bool :=
  let n := nat_of_ascii c in (lo <=? n)%nat && (n <=? hi)%nat.

(** [isdigit], [isalpha], [isspace] of <cctype> in the "C" locale. *)
Definition isdigit (c : ascii) : bool := in_range 48 57 c.
Definition isalpha (c : ascii) : bool := in_range 65 90 c || in_range 97 122 c.
Definition isspace (c : ascii) : bool := in_range 9 13 c || Ascii.eqb c space.

Definition digit_value (c : ascii) : Z := Z.of_nat (nat_of_ascii c) - 48.

End chars.

(** ** Input streams

    What [std::istream] and [std::istringstream] do for the calls the lexer
    makes.  [buf] is the unread part of the stream buffer. *)

Module stream.
Import chars.

Record istream : Type := mk_istream {
  buf : string;
  eofbit : bool;
  failbit : bool
}.

(** A stream opened on the given characters, and the default-constructed
    [istringstream()]. *)
Definition open (s : string) : istream :=
  {| buf := s; eofbit := false; failbit := false |}.
Definition empty : istream := open "".

Definition good (s : istream) : bool := negb (eofbit s) && negb (failbit s).
Definition eof (s : istream) : bool := eofbit s.

Definition set_fail (s : istream) : istream :=
  {| buf := buf s; eofbit := eofbit s; failbit := true |}.

(** [input.get(c)]: [None] is the failed extraction, which leaves [c] as
    it was. *)
Definition get (s : istream) : option ascii * istream :=
  if good s then
    match buf s with
    | EmptyString => (None, {| buf := ""; eofbit := true; failbit := true |})
    | String c rest => (Some c, {| buf := rest; eofbit := false; failbit := false |})
    end
  else (None, set_fail s).

(** [input.putback(c)] clears [eofbit], then fails on a stream that is
    not good. *)
Definition putback (c : ascii) (s : istream) : istream :=
  if failbit s then {| buf := buf s; eofbit := false; failbit := true |}
  else {| buf := String c (buf s); eofbit := false; failbit := false |}.

(** [input.peek()]: [None] is [traits::eof()]. *)
Definition peek (s : istream) : option ascii * istream :=
  if good s then
    match buf s with
    | EmptyString => (None, {| buf := ""; eofbit := true; failbit := false |})
    | String c _ => (Some c, s)
    end
  else (None, set_fail s).

(** The characters after the first [delim], if there is one. *)
Fixpoint after_delim (delim : ascii) (b : string) : option string :=
  match b with
  | EmptyString => None
  | String c rest => if Ascii.eqb c delim then Some rest else after_delim delim rest
  end.

(** The characters before the first [delim] (all of them if there is none). *)
Fixpoint before_delim (delim : ascii) (b : string) : string :=
  match b with
  | EmptyString => EmptyString
  | String c rest => if Ascii.eqb c delim then EmptyString else String c (before_delim delim rest)
  end.

(** [input.ignore(numeric_limits<streamsize>::max(), delim)]. *)
Definition ignore (delim : ascii) (s : istream) : istream :=
  if good s then
    match after_delim delim (buf s) with
    | Some rest => {| buf := rest; eofbit := false; failbit := false |}
    | None => {| buf := ""; eofbit := true; failbit := false |}
    end
  else set_fail s.

(** [getline(input, line)]: the line read, or [None] when the call
    fails (nothing could be extracted, or the stream was not good). *)
Definition getline (s : istream) : option string * istream :=
  if good s then
    match buf s with
    | EmptyString => (None, {| buf := ""; eofbit := true; failbit := true |})
    | _ =>
        match after_delim newline (buf s) with
        | Some rest =>
            (Some (before_delim newline (buf s)),
             {| buf := rest; eofbit := false; failbit := false |})
        | None =>
            (Some (buf s), {| buf := ""; eofbit := true; failbit := false |})
        end
    end
  else (None, set_fail s).

(** The longest prefix of decimal digits, as a number, and what follows. *)
Fixpoint digits (acc : Z) (b : string) : Z * string :=
  match b with
  | String c rest => if isdigit c then digits (10 * acc + digit_value c) rest else (acc, b)
  | EmptyString => (acc, b)
  end.

Fixpoint skipws (b : string) : string :=
  match b with
  | String c rest => if isspace c then skipws rest else b
  | EmptyString => b
  end.

Definition INT_MAX : Z := 2147483647.
Definition INT_MIN : Z := -2147483648.

(** [input >> number] for an [int]: white space is skipped, an optional
    sign and the digits are consumed; without a digit the value is 0 and
    the extraction fails, out of range the value is clamped and the
    extraction fails.  On a stream that is not good, or that ends in
    the white space, nothing is stored: [None]. *)
Definition extract_int (s : istream) : option Z * istream :=
  if good s then
    match skipws (buf s) with
    | EmptyString => (None, {| buf := ""; eofbit := true; failbit := true |})
    | b =>
        let '(negative, body) :=
          match b with
          | String "-" rest => (true, rest)
          | String "+" rest => (false, rest)
          | _ => (false, b)
          end in
        let '(magnitude, rest) := digits 0 body in
        let value := if negative : bool then - magnitude else magnitude in
        let no_digit := (String.length rest =? String.length body)%nat in
        let at_end := match rest with EmptyString => true | _ => false end in
        let clamped := Z.max INT_MIN (Z.min INT_MAX value) in
        (Some (if no_digit then 0 else clamped),
         {| buf := rest; eofbit := at_end;
            failbit := no_digit || negb (Z.eqb clamped value) |})
    end
  else (None, set_fail s).

End stream.

(** ** Tokens *)

Module token_type.

(** The alternatives of [parse::Token].  The payload of [Number] is a
    C++ [int]. *)
Inductive Token : Type :=
| Number (value : Z)
| Id (value : string)
| Char (value : ascii)
| String (value : string)
| Class | Return | If | Else | Def | Newline | Print | Indent | Dedent
| And | Or | Not | Eq | NotEq | LessOrEq | GreaterOrEq
| None | True | False | Eof.

End token_type.

Abbreviation Token := token_type.Token.

(** ** The lexer *)

Module parse.
Import chars stream.

(** Modelled from the spec: the indentation state of the lexer, whose
    struct is declared in lexer.h, which is not among the sources.  The
    spec gives it two counters of indentation units, the current one and
    the one of the line being read, both starting at zero. *)
Record Context : Type := mk_Context {
  indent : Z;
  new_indent : Z
}.

Definition initial_context : Context := {| indent := 0; new_indent := 0 |}.

Record Lexer : Type := mk_Lexer {
  input_ : istream;
  line_ : istream;
  context_ : Context;
  current_token_ : Token
}.

Module details.

Definition IsSpecialChar (c : ascii) : bool :=
  Ascii.eqb c "=" || Ascii.eqb c "!" || Ascii.eqb c "<" || Ascii.eqb c ">".

Definition ReadCompareOperator (c : ascii) : Token :=
  if Ascii.eqb c "=" then token_type.Eq
  else if Ascii.eqb c "!" then token_type.NotEq
  else if Ascii.eqb c "<" then token_type.LessOrEq
  else token_type.GreaterOrEq.

Definition ReadKeyword (literal : string) : Token :=
  if String.eqb literal "class" then token_type.Class
  else if String.eqb literal "return" then token_type.Return
  else if String.eqb literal "if" then token_type.If
  else if String.eqb literal "else" then token_type.Else
  else if String.eqb literal "def" then token_type.Def
  else if String.eqb literal "print" then token_type.Print
  else if String.eqb literal "or" then token_type.Or
  else if String.eqb literal "None" then token_type.None
  else if String.eqb literal "and" then token_type.And
  else if String.eqb literal "not" then token_type.Not
  else if String.eqb literal "True" then token_type.True
  else if String.eqb literal "False" then token_type.False
  else token_type.Id literal.

Definition push_back (s : string) (c : ascii) : string :=
  (s ++ String c EmptyString)%string.

(** The loop of [ReadLiteral]; every turn that goes on consumes a
    character. *)
Fixpoint ReadLiteral_loop (fuel : nat) (input : istream) (literal : string)
  : option (string * istream) :=
  match fuel with
  | O => Datatypes.None
  | S fuel' =>
      match get input with
      | (Some c, input') =>
          if isdigit c || isalpha c || Ascii.eqb c underscore
          then ReadLiteral_loop fuel' input' (push_back literal c)
          else Some (literal, putback c input')
      | (Datatypes.None, input') => Some (literal, input')
      end
  end.

Definition ReadLiteral (input : istream) : option (string * istream) :=
  ReadLiteral_loop (S (String.length (buf input))) input "".

(** [ReadNumber]: [int number; input >> number;].  Where the
    extraction stores nothing the C++ value is indeterminate; the
    model takes 0 there. *)
Definition ReadNumber (input : istream) : Token * istream :=
  let '(number, input') := extract_int input in
  (token_type.Number (default 0 number), input').

(** What the [switch] of [ReadString] appends for the character after
    a backslash: nothing when no [case] matches. *)
Definition escape (c : ascii) : string :=
  if Ascii.eqb c "n" then String newline ""
  else if Ascii.eqb c "t" then String tab ""
  else if Ascii.eqb c "r" then String carriage_return ""
  else if Ascii.eqb c backslash then String backslash ""
  else if Ascii.eqb c apostrophe then String apostrophe ""
  else if Ascii.eqb c double_quote then String double_quote ""
  else "".

(** The loop of [ReadString]; [s] is the payload read so far.  After
    a backslash the second [get] may fail, and then [c] is still the
    backslash. *)
Fixpoint ReadString_loop (fuel : nat) (input : istream) (prefix : ascii) (s : string)
  : option (string * istream) :=
  match fuel with
  | O => Datatypes.None
  | S fuel' =>
      match get input with
      | (Some c, input') =>
          if Ascii.eqb c prefix then Some (s, input')
          else if Ascii.eqb c backslash then
            let '(c2, input'') := get input' in
            ReadString_loop fuel' input'' prefix (s ++ escape (default c c2))%string
          else ReadString_loop fuel' input' prefix (push_back s c)
      | (Datatypes.None, input') => Some (s, input')
      end
  end.

Definition ReadString (input : istream) (prefix : ascii) : option (Token * istream) :=
  match ReadString_loop (S (String.length (buf input))) input prefix "" with
  | Some (s, input') => Some (token_type.String s, input')
  | Datatypes.None => Datatypes.None
  end.

End details.

(** [line.find_first_not_of(' ')]: [None] is [string::npos]. *)
Fixpoint find_first_not_of_space (line : string) : option nat :=
  match line with
  | EmptyString => Datatypes.None
  | String c rest =>
      if Ascii.eqb c space then option_map S (find_first_not_of_space rest)
      else Some O
  end.

(** [line[pos]] *)
Definition char_at (line : string) (pos : nat) : ascii :=
  default zero (String.get pos line).

(** The loop of [Lexer::ReadNextLine]: the line stream, the input and
    the context it leaves. *)
Fixpoint ReadNextLine_loop (fuel : nat) (input : istream) (context : Context)
  : option (istream * istream * Context) :=
  match fuel with
  | O => Datatypes.None
  | S fuel' =>
      match getline input with
      | (Some line, input') =>
          match find_first_not_of_space line with
          | Some pos =>
              if negb (Ascii.eqb (char_at line pos) hash)
              then Some (stream.open (line ++ String newline ""),
                         input',
                         {| indent := indent context; new_indent := Z.of_nat pos / 2 |})
              else ReadNextLine_loop fuel' input' context
          | Datatypes.None => ReadNextLine_loop fuel' input' context
          end
      | (Datatypes.None, input') => Some (stream.empty, input', context)
      end
  end.

Definition ReadNextLine (input : istream) (context : Context)
  : option (istream * istream * Context) :=
  ReadNextLine_loop (S (String.length (buf input))) input context.

(** [while (c == ' ') line_.get(c);] -- a failed [get] leaves [c] a
    space, and the loop then never ends. *)
Fixpoint SkipSpaces (fuel : nat) (c : ascii) (line : istream) : option (ascii * istream) :=
  if Ascii.eqb c space then
    match fuel with
    | O => Datatypes.None
    | S fuel' =>
        let '(c', line') := get line in
        SkipSpaces fuel' (default c c') line'
    end
  else Some (c, line).

Definition with_context (lx : Lexer) (context : Context) : Lexer :=
  {| input_ := input_ lx; line_ := line_ lx; context_ := context;
     current_token_ := current_token_ lx |}.

Definition with_line (lx : Lexer) (line : istream) : Lexer :=
  {| input_ := input_ lx; line_ := line; context_ := context_ lx;
     current_token_ := current_token_ lx |}.

(** The part of [Lexer::ReadToken] that follows a successful
    [line_.get(c)]: the token that starts with [c]; [line1] is the line
    after [c]. *)
Definition ReadToken_from (lx : Lexer) (c : ascii) (line1 : istream)
  : option (Token * Lexer) :=
  if Ascii.eqb c newline then Some (token_type.Newline, with_line lx line1)
  else
    match SkipSpaces (S (String.length (buf line1))) c line1 with
    | Datatypes.None => Datatypes.None
    | Some (c, line2) =>
        if Ascii.eqb c hash then
          Some (token_type.Newline, with_line lx (ignore newline line2))
        else
          let '(next, line3) :=
            if details.IsSpecialChar c then peek line2
            else (Datatypes.None, line2) in
          if details.IsSpecialChar c && bool_decide (next = Some equals_sign) then
            Some (details.ReadCompareOperator c, with_line lx (snd (get line3)))
          else if isalpha c || Ascii.eqb c underscore then
            match details.ReadLiteral (putback c line3) with
            | Some (literal, line4) =>
                Some (details.ReadKeyword literal, with_line lx line4)
            | Datatypes.None => Datatypes.None
            end
          else if Ascii.eqb c double_quote || Ascii.eqb c apostrophe then
            match details.ReadString line3 c with
            | Some (token, line4) => Some (token, with_line lx line4)
            | Datatypes.None => Datatypes.None
            end
          else if isdigit c then
            let '(token, line4) := details.ReadNumber (putback c line3) in
            Some (token, with_line lx line4)
          else Some (token_type.Char c, with_line lx line3)
    end.

(** [Lexer::ReadToken]; the fuel counts the calls of [ReadToken] to
    itself. *)
Fixpoint ReadToken (fuel : nat) (lx : Lexer) : option (Token * Lexer) :=
  match fuel with
  | O => Datatypes.None
  | S fuel' =>
      let context := context_ lx in
      if new_indent context >? indent context then
        Some (token_type.Indent,
              with_context lx {| indent := indent context + 1;
                                 new_indent := new_indent context |})
      else if new_indent context <? indent context then
        Some (token_type.Dedent,
              with_context lx {| indent := indent context - 1;
                                 new_indent := new_indent context |})
      else
        match get (line_ lx) with
        | (Datatypes.None, line1) =>
            if eof (input_ lx) then
              if indent context >? 0 then
                Some (token_type.Dedent,
                      with_context (with_line lx line1)
                        {| indent := indent context - 1; new_indent := 0 |})
              else Some (token_type.Eof, with_line lx line1)
            else
              match ReadNextLine (input_ lx) context with
              | Some (line, input', context') =>
                  ReadToken fuel'
                    {| input_ := input'; line_ := line; context_ := context';
                       current_token_ := current_token_ lx |}
              | Datatypes.None => Datatypes.None
              end
        | (Some c, line1) => ReadToken_from lx c line1
        end
  end.

(** Two calls are all [ReadToken] ever nests (see [ReadToken_total]). *)
Definition ReadToken_depth : nat := 2.

(** [Lexer::NextToken] *)
Definition NextToken (lx : Lexer) : option (Token * Lexer) :=
  match ReadToken ReadToken_depth lx with
  | Some (token, lx') =>
      Some (token, {| input_ := input_ lx'; line_ := line_ lx';
                      context_ := context_ lx'; current_token_ := token |})
  | Datatypes.None => Datatypes.None
  end.

(** [Lexer::Lexer(std::istream& input)]; [current_token_] has no
    meaning before the call of [NextToken], the model puts [Eof] there. *)
Definition new_Lexer (input : istream) : option Lexer :=
  match ReadNextLine input initial_context with
  | Some (line, input', context) =>
      option_map snd
        (NextToken {| input_ := input'; line_ := line; context_ := context;
                      current_token_ := token_type.Eof |})
  | Datatypes.None => Datatypes.None
  end.

Definition CurrentToken (lx : Lexer) : Token := current_token_ lx.

Definition is_Eof (t : Token) : bool :=
  match t with token_type.Eof => true | _ => false end.

(** The tokens a client sees: the current token, then what [NextToken]
    returns, up to the first [Eof]. *)
Fixpoint drain (fuel : nat) (lx : Lexer) : option (list Token) :=
  match fuel with
  | O => Datatypes.None
  | S fuel' =>
      if is_Eof (CurrentToken lx) then Some [CurrentToken lx]
      else
        match NextToken lx with
        | Some (_, lx') => option_map (cons (CurrentToken lx)) (drain fuel' lx')
        | Datatypes.None => Datatypes.None
        end
  end.

Definition Tokenize (fuel : nat) (text : string) : option (list Token) :=
  match new_Lexer (stream.open text) with
  | Some lx => drain fuel lx
  | Datatypes.None => Datatypes.None
  end.

End parse.


(** ** Values, classes and the statement tree

    [runtime.h] and [statement.h] are not among the sources; the types
    below are what [runtime.cpp] and [statement.cpp] use of them.  The
    node classes of namespace [ast] are the constructors of [Statement],
    the subclasses of [runtime::Object] those of [Object].  A class
    instance is shared through its holders, so the value is its address
    and its data lives in the heap of the [World]. *)

Module mython.

(** [ast::Comparison] holds one of the six comparison functions of
    [runtime.cpp]. *)
Inductive Comparator : Type :=
| CmpEqual | CmpNotEqual | CmpLess | CmpGreater | CmpLessOrEqual | CmpGreaterOrEqual.

Local Unset Elimination Schemes.

Inductive Statement : Type :=
| Assignment (var_ : string) (rv_ : Statement)
| VariableValue (dotted_ids_ : list string)
| Print (args_ : list Statement)
| MethodCall (object_ : Statement) (method_ : string) (args_ : list Statement)
| Stringify (argument_ : Statement)
| Add (lhs_ rhs_ : Statement)
| Sub (lhs_ rhs_ : Statement)
| Mult (lhs_ rhs_ : Statement)
| Div (lhs_ rhs_ : Statement)
| Compound (statements_ : list Statement)
| Return (statement_ : Statement)
| ClassDefinition (cls_ : option Object)
| FieldAssignment (object_ : list string) (field_name_ : string) (rv_ : Statement)
| IfElse (condition_ if_body_ : Statement) (else_body_ : option Statement)
| Or (lhs_ rhs_ : Statement)
| And (lhs_ rhs_ : Statement)
| Not (argument_ : Statement)
| Comparison (cmp_ : Comparator) (lhs_ rhs_ : Statement)
| NewInstance (class_ : Class) (args_ : list Statement)
| MethodBody (body_ : Statement)
with Object : Type :=
| Number (value : Z)
| String (value : string)
| Bool (value : bool)
| ClassObject (cls : Class)
| ClassInstance (address : nat)
with Class : Type :=
| mk_Class (name_ : string) (methods_ : list Method) (parent_ : option Class)
with Method : Type :=
| mk_Method (name : string) (formal_params : list string) (body : Statement).

Local Set Elimination Schemes.

Definition name (m : Method) : string :=
  match m with mk_Method n _ _ => n end.
Definition formal_params (m : Method) : list string :=
  match m with mk_Method _ ps _ => ps end.
Definition body (m : Method) : Statement :=
  match m with mk_Method _ _ b => b end.

Definition name_ (c : Class) : string :=
  match c with mk_Class n _ _ => n end.
Definition methods_ (c : Class) : list Method :=
  match c with mk_Class _ ms _ => ms end.
Definition parent_ (c : Class) : option Class :=
  match c with mk_Class _ _ p => p end.

(** [runtime::ObjectHolder]: [None] is the empty holder. *)
Definition ObjectHolder : Type := option Object.

(** [runtime::Closure] *)
Abbreviation Closure := (gmap string ObjectHolder).

(** The fields of a [runtime::ClassInstance]. *)
Record InstanceData : Type := mk_InstanceData {
  cls_ : Class;
  fields_ : Closure
}.

(** What an [Execute] can touch besides the closure it is given: the
    class instances allocated so far, by address, and the characters
    written to the output stream of the [runtime::Context].  An instance
    stays where it was allocated: the model has no lifetimes, and a run
    in which a [self] outlives the last owning holder of its instance,
    which the C++ leaves undefined, is given the values of a run in which
    the instance is still there. *)
Record World : Type := mk_World {
  heap : list InstanceData;
  output : string
}.

Definition initial_world : World := {| heap := []; output := "" |}.

Definition write (text : string) (w : World) : World :=
  {| heap := heap w; output := (output w ++ text)%string |}.

(** [ObjectHolder::Own(runtime::ClassInstance{cls})]: the new instance
    gets an address no instance has. *)
Definition allocate (cls : Class) (w : World) : nat * World :=
  (length (heap w),
   {| heap := heap w ++ [{| cls_ := cls; fields_ := ∅ |}]; output := output w |}).

Definition set_field (address : nat) (field : string) (value : ObjectHolder) (w : World)
  : World :=
  {| heap := alter (fun d => {| cls_ := cls_ d; fields_ := <[field := value]> (fields_ d) |})
                   address (heap w);
     output := output w |}.

(** *** Outcomes

    An [Execute] returns a holder or throws: a [std::runtime_error], or
    the [ReturnException] of [ast::Return].  [Undefined] is a run the C++
    standard gives no meaning to (a null pointer dereferenced, a failed
    [assert], a signed overflow); [OutOfFuel] is a run cut short by the
    fuel of the model. *)
Inductive Exception : Type :=
| runtime_error (what : string)
| ReturnException (result : ObjectHolder).

Inductive Outcome (A : Type) : Type :=
| Value (a : A)
| Throw (e : Exception)
| Undefined
| OutOfFuel.

Arguments Value {A} a.
Arguments Throw {A} e.
Arguments Undefined {A}.
Arguments OutOfFuel {A}.

(** A computation over a state [S]: the world alone for the functions of
    [runtime.cpp], the closure and the world for [Execute]. *)
Definition M (S A : Type) : Type := S -> Outcome A * S.

Definition ret {S A : Type} (a : A) : M S A := fun s => (Value a, s).
Definition raise {S A : Type} (e : Exception) : M S A := fun s => (Throw e, s).
Definition undefined {S A : Type} : M S A := fun s => (Undefined, s).
Definition out_of_fuel {S A : Type} : M S A := fun s => (OutOfFuel, s).

Definition bind {S A B : Type} (m : M S A) (k : A -> M S B) : M S B :=
  fun s =>
    match m s with
    | (Value a, s') => k a s'
    | (Throw e, s') => (Throw e, s')
    | (Undefined, s') => (Undefined, s')
    | (OutOfFuel, s') => (OutOfFuel, s')
    end.

Notation "'let*' x ':=' m 'in' k" := (bind m (fun x => k))
  (at level 10, x name, m at level 100, k at level 200).

(** The state of an [Execute]: the closure passed by reference, and the
    world. *)
Abbreviation Scope := (Closure * World)%type.

(** A function of the context alone, called from an [Execute]. *)
Definition lift {A : Type} (m : M World A) : M Scope A :=
  fun s => let '(r, w) := m (snd s) in (r, (fst s, w)).

Definition bind_name (var : string) (value : ObjectHolder) : M Scope unit :=
  fun s => (Value tt, (<[var := value]> (fst s), snd s)).
Definition os_write (text : string) : M World unit := fun w => (Value tt, write text w).

(** *** [runtime.cpp] *)

(** What the sources leave to the C++ implementation and to runtime.h:
    how [os << this] writes the address of an instance, and which
    integers the payload type of [runtime::Number] can hold. *)
Record Platform : Type := mk_Platform {
  show_address : nat -> string;
  representable : Z -> bool
}.

Definition IsTrue (object : ObjectHolder) : bool :=
  match object with
  | Some (Number value) => negb (value =? 0)
  | Some (Bool value) => value
  | Some (String value) => negb (String.eqb value "")
  | _ => false
  end.

(** [Class::GetMethod]: [find_if] over the methods of the class, then the
    parent. *)
Fixpoint GetMethod (c : Class) (method : string) : option Method :=
  match c with
  | mk_Class _ methods parent =>
      match List.find (fun m => String.eqb (name m) method) methods with
      | Some m => Some m
      | None =>
          match parent with
          | Some p => GetMethod p method
          | None => None
          end
      end
  end.

(** [ClassInstance::HasMethod] *)
Definition HasMethod (self : InstanceData) (method : string) (argument_count : nat) : bool :=
  match GetMethod (cls_ self) method with
  | Some m => (length (formal_params m) =? argument_count)%nat
  | None => false
  end.

(** The loop of [ClassInstance::Call] that binds the parameters. *)
Fixpoint bind_params (closure : Closure) (params : list string) (actual_args : list ObjectHolder)
  : Closure :=
  match params, actual_args with
  | param_name :: params', arg :: actual_args' =>
      bind_params (<[param_name := arg]> closure) params' actual_args'
  | _, _ => closure
  end.

Definition not_found (method : string) : Exception :=
  runtime_error ("Method " ++ method ++ " has not found")%string.

Section nodes.

Variable platform : Platform.

(** [Statement::Execute] and [Object::Print] of the nodes and objects
    below the one at hand, that is with less fuel.  [Print] returns the
    text it writes to [os]: every [Print] of [runtime.cpp] writes to [os]
    once, as its last action. *)
Variable Execute : Statement -> M Scope ObjectHolder.
Variable Object_Print : Object -> M World string.

(** The result of an arithmetic operator of C++ on the payloads of two
    numbers; outside of the payload type it is a signed overflow. *)
Definition arithmetic_result {S : Type} (z : Z) : M S ObjectHolder :=
  if representable platform z then ret (Some (Number z)) else undefined.

(** [ClassInstance::Call]; [this] is the address of the instance. *)
Definition Call (this : nat) (method : string) (actual_args : list ObjectHolder)
  : M World ObjectHolder :=
  fun w =>
    match heap w !! this with
    | None => (Undefined, w)
    | Some self =>
        if HasMethod self method (length actual_args) then
          match GetMethod (cls_ self) method with
          | Some class_method =>
              let closure :=
                bind_params (<["self"%string := Some (ClassInstance this)]> ∅)
                            (formal_params class_method) actual_args in
              let '(r, (_, w')) := Execute (body class_method) (closure, w) in
              (r, w')
          | None => (Throw (not_found method), w)
          end
        else (Throw (not_found method), w)
    end.

(** [holder->Print(os, context)]: [operator->] asserts that the holder is
    not empty. *)
Definition Holder_Print (holder : ObjectHolder) : M World string :=
  match holder with
  | Some object => Object_Print object
  | None => undefined
  end.

(** [ClassInstance::Print] *)
Definition ClassInstance_Print (this : nat) : M World string :=
  fun w =>
    match heap w !! this with
    | None => (Undefined, w)
    | Some self =>
        if HasMethod self "__str__" 0
        then (let* r := Call this "__str__" [] in Holder_Print r) w
        else (Value (show_address platform this), w)
    end.

(** Modelled from the spec: the [Print] of [Number] and of [String],
    which is in runtime.h; a number prints its decimal form and a string
    its characters.  The other cases are [Bool::Print], [Class::Print] and
    [ClassInstance::Print] of [runtime.cpp]. *)
Definition Print_object (object : Object) : M World string :=
  match object with
  | Number value => ret (NilEmpty.string_of_int (Z.to_int value))
  | String value => ret value
  | Bool value => ret (if value then "True" else "False")%string
  | ClassObject cls => ret ("Class " ++ name_ cls)%string
  | ClassInstance this => ClassInstance_Print this
  end.

(** [res.TryAs<Bool>()->GetValue()] *)
Definition Bool_value (res : ObjectHolder) : M World bool :=
  match res with
  | Some (Bool value) => ret value
  | _ => undefined
  end.

Definition instance_has (this : nat) (method : string) (argument_count : nat) : M World bool :=
  fun w =>
    match heap w !! this with
    | None => (Undefined, w)
    | Some self => (Value (HasMethod self method argument_count), w)
    end.

Definition Equal (lhs rhs : ObjectHolder) : M World bool :=
  let failure := raise (runtime_error "Cannot compare objects for equality") in
  match lhs, rhs with
  | None, None => ret true
  | Some (Number a), Some (Number b) => ret (a =? b)
  | Some (Bool a), Some (Bool b) => ret (Bool.eqb a b)
  | Some (String a), Some (String b) => ret (String.eqb a b)
  | Some (ClassInstance instance), _ =>
      let* has := instance_has instance "__eq__" 1 in
      if has : bool then
        let* res := Call instance "__eq__" [rhs] in
        Bool_value res
      else failure
  | _, _ => failure
  end.

Definition Less (lhs rhs : ObjectHolder) : M World bool :=
  let failure := raise (runtime_error "Cannot compare objects for equality 2") in
  match lhs, rhs with
  | None, _ | _, None => raise (runtime_error "Cannot compare objects for equality 1")
  | Some (Number a), Some (Number b) => ret (a <? b)
  | Some (Bool a), Some (Bool b) => ret (negb a && b)
  | Some (String a), Some (String b) => ret (String.ltb a b)
  | Some (ClassInstance instance), _ =>
      let* has := instance_has instance "__lt__" 1 in
      if has : bool then
        let* res := Call instance "__lt__" [rhs] in
        Bool_value res
      else failure
  | _, _ => failure
  end.

Definition NotEqual (lhs rhs : ObjectHolder) : M World bool :=
  let* equal := Equal lhs rhs in
  ret (negb equal).

Definition Greater (lhs rhs : ObjectHolder) : M World bool :=
  let* less := Less lhs rhs in
  if negb less then NotEqual lhs rhs else ret false.

Definition LessOrEqual (lhs rhs : ObjectHolder) : M World bool :=
  let* less := Less lhs rhs in
  if less : bool then ret true else Equal lhs rhs.

Definition GreaterOrEqual (lhs rhs : ObjectHolder) : M World bool :=
  let* less := Less lhs rhs in
  ret (negb less).

Definition compare_with (cmp : Comparator) : ObjectHolder -> ObjectHolder -> M World bool :=
  match cmp with
  | CmpEqual => Equal
  | CmpNotEqual => NotEqual
  | CmpLess => Less
  | CmpGreater => Greater
  | CmpLessOrEqual => LessOrEqual
  | CmpGreaterOrEqual => GreaterOrEqual
  end.

(** *** [statement.cpp] *)

(** The loops that execute the argument expressions in order and
    [push_back] their values. *)
Fixpoint Execute_all (args : list Statement) : M Scope (list ObjectHolder) :=
  match args with
  | [] => ret []
  | arg :: args' =>
      let* value := Execute arg in
      let* values := Execute_all args' in
      ret (value :: values)
  end.

(** [VariableValue::GetVarByName] *)
Definition GetVarByName (closure : Closure) (var : string) : Outcome ObjectHolder :=
  match closure !! var with
  | None => Throw (runtime_error ("Name " ++ var ++ " is not defined")%string)
  | Some holder => Value holder
  end.

(** Modelled from the spec: [GetVarByNameRange] is in statement.h; every
    further segment of a dotted name is resolved in the fields of the
    instance reached so far, and anything but an instance there is an
    error. *)
Fixpoint GetVarByNameRange (ids : list string) (object : ObjectHolder) (w : World)
  : Outcome ObjectHolder :=
  match ids with
  | [] => Value object
  | id :: ids' =>
      match object with
      | Some (ClassInstance this) =>
          match heap w !! this with
          | None => Undefined
          | Some self =>
              match GetVarByName (fields_ self) id with
              | Value object' => GetVarByNameRange ids' object' w
              | failure => failure
              end
          end
      | _ => Throw (runtime_error ("Name " ++ id ++ " is not defined")%string)
      end
  end.

(** [VariableValue::Execute]; [dotted_ids_.front()] needs a first name. *)
Definition VariableValue_Execute (dotted_ids : list string) : M Scope ObjectHolder :=
  fun s =>
    match dotted_ids with
    | [] => (Undefined, s)
    | var :: ids =>
        match GetVarByName (fst s) var with
        | Value object => (GetVarByNameRange ids object (snd s), s)
        | failure => (failure, s)
        end
    end.

(** The body of the loop of [Print::Execute], over the arguments. *)
Fixpoint Print_args (is_first : bool) (args : list Statement) : M Scope unit :=
  match args with
  | [] => ret tt
  | arg :: args' =>
      let* _ := lift (if is_first then ret tt else os_write " ") in
      let* object := Execute arg in
      let* _ :=
        match object with
        | Some o => lift (let* text := Object_Print o in os_write text)
        | None => lift (os_write "None")
        end in
      Print_args false args'
  end.

(** Modelled from the spec: the template [Addition] is in statement.h;
    two numbers give their sum and two strings their concatenation. *)
Definition Addition_Number (lhs rhs : ObjectHolder) : option Z :=
  match lhs, rhs with
  | Some (Number a), Some (Number b) => Some (a + b)
  | _, _ => None
  end.

Definition Addition_String (lhs rhs : ObjectHolder) : option string :=
  match lhs, rhs with
  | Some (String a), Some (String b) => Some (a ++ b)%string
  | _, _ => None
  end.

Definition ADD_METHOD : string := "__add__".
Definition INIT_METHOD : string := "__init__".

Definition Add_Execute (lhs_ rhs_ : Statement) : M Scope ObjectHolder :=
  let failure :=
    raise (runtime_error "Unsupported operand type(s) for +: 'int' and 'str'") in
  let* lhs := Execute lhs_ in
  let* rhs := Execute rhs_ in
  match lhs, rhs with
  | Some left_object, Some _ =>
      match Addition_Number lhs rhs with
      | Some sum => arithmetic_result sum
      | None =>
          match Addition_String lhs rhs with
          | Some text => ret (Some (String text))
          | None =>
              match left_object with
              | ClassInstance this =>
                  let* has := lift (instance_has this ADD_METHOD 1) in
                  if has : bool then lift (Call this ADD_METHOD [rhs]) else failure
              | _ => failure
              end
          end
      end
  | _, _ => failure
  end.

(** [Sub::Execute], [Mult::Execute] and [Div::Execute] differ in what they
    do with two numbers. *)
Definition Arithmetic_Execute (lhs_ rhs_ : Statement)
    (compute : Z -> Z -> M Scope ObjectHolder) (what : string) : M Scope ObjectHolder :=
  let* lhs := Execute lhs_ in
  let* rhs := Execute rhs_ in
  match lhs, rhs with
  | Some (Number a), Some (Number b) => compute a b
  | _, _ => raise (runtime_error what)
  end.

Definition Sub_Execute (lhs_ rhs_ : Statement) : M Scope ObjectHolder :=
  Arithmetic_Execute lhs_ rhs_ (fun a b => arithmetic_result (a - b))
    "Unsupported operand type(s) for -".

Definition Mult_Execute (lhs_ rhs_ : Statement) : M Scope ObjectHolder :=
  Arithmetic_Execute lhs_ rhs_ (fun a b => arithmetic_result (a * b))
    "Unsupported operand type(s) for *".

(** The [/] of two [int]s truncates toward zero: [Z.quot]. *)
Definition Div_Execute (lhs_ rhs_ : Statement) : M Scope ObjectHolder :=
  Arithmetic_Execute lhs_ rhs_
    (fun a b =>
       if b >? 0 then ret (Some (Number (Z.quot a b)))
       else raise (runtime_error "Division by zero"))
    "Unsupported operand type(s) for /".

Fixpoint Compound_Execute (statements : list Statement) : M Scope ObjectHolder :=
  match statements with
  | [] => ret None
  | statement :: statements' =>
      let* _ := Execute statement in
      Compound_Execute statements'
  end.

(** [MethodCall::Execute]: the arguments, then the object. *)
Definition MethodCall_Execute (object_ : Statement) (method_ : string) (args_ : list Statement)
  : M Scope ObjectHolder :=
  let* arguments := Execute_all args_ in
  let* object := Execute object_ in
  match object with
  | Some (ClassInstance this) => lift (Call this method_ arguments)
  | _ => undefined
  end.

Definition Stringify_Execute (argument_ : Statement) : M Scope ObjectHolder :=
  let* object := Execute argument_ in
  match object with
  | Some o =>
      let* text := lift (Object_Print o) in
      ret (Some (String text))
  | None => ret (Some (String "None"))
  end.

Definition ClassDefinition_Execute (cls_ : ObjectHolder) : M Scope ObjectHolder :=
  match cls_ with
  | Some (ClassObject cls) =>
      let* _ := bind_name (name_ cls) cls_ in
      ret cls_
  | _ => undefined
  end.

(** [FieldAssignment::Execute]: the object, then the right-hand side,
    then the field of the instance. *)
Definition FieldAssignment_Execute (object_ : list string) (field_name_ : string)
    (rv_ : Statement) : M Scope ObjectHolder :=
  let* object := VariableValue_Execute object_ in
  let* value := Execute rv_ in
  match object with
  | Some (ClassInstance this) =>
      fun s =>
        match heap (snd s) !! this with
        | None => (Undefined, s)
        | Some _ => (Value value, (fst s, set_field this field_name_ value (snd s)))
        end
  | _ => undefined
  end.

Definition IfElse_Execute (condition_ if_body_ : Statement) (else_body_ : option Statement)
  : M Scope ObjectHolder :=
  let* condition := Execute condition_ in
  if IsTrue condition then Execute if_body_
  else
    match else_body_ with
    | Some else_body => Execute else_body
    | None => ret None
    end.

Definition Or_Execute (lhs_ rhs_ : Statement) : M Scope ObjectHolder :=
  let* lhs := Execute lhs_ in
  if IsTrue lhs then ret (Some (Bool true))
  else
    let* rhs := Execute rhs_ in
    ret (Some (Bool (IsTrue rhs))).

Definition And_Execute (lhs_ rhs_ : Statement) : M Scope ObjectHolder :=
  let* lhs := Execute lhs_ in
  if IsTrue lhs then
    let* rhs := Execute rhs_ in
    ret (Some (Bool (IsTrue rhs)))
  else ret (Some (Bool false)).

Definition Not_Execute (argument_ : Statement) : M Scope ObjectHolder :=
  let* argument := Execute argument_ in
  ret (Some (Bool (negb (IsTrue argument)))).

(** [Comparison::Execute]; C++ leaves the order of the two operands
    open, the model takes the left one first. *)
Definition Comparison_Execute (cmp_ : Comparator) (lhs_ rhs_ : Statement)
  : M Scope ObjectHolder :=
  let* lhs := Execute lhs_ in
  let* rhs := Execute rhs_ in
  let* result := lift (compare_with cmp_ lhs rhs) in
  ret (Some (Bool result)).

(** [NewInstance::Execute] *)
Definition NewInstance_Execute (class_ : Class) (args_ : list Statement)
  : M Scope ObjectHolder :=
  fun s =>
    let '(this, w) := allocate class_ (snd s) in
    let object := Some (ClassInstance this) in
    if HasMethod {| cls_ := class_; fields_ := ∅ |} INIT_METHOD (length args_) then
      (let* params := Execute_all args_ in
       let* _ := lift (Call this INIT_METHOD params) in
       ret object) (fst s, w)
    else (Value object, (fst s, w)).

(** [MethodBody::Execute]: the [catch] of [ReturnException]. *)
Definition MethodBody_Execute (body_ : Statement) : M Scope ObjectHolder :=
  fun s =>
    match Execute body_ s with
    | (Value _, s') => (Value None, s')
    | (Throw (ReturnException result), s') => (Value result, s')
    | failure => failure
    end.

(** [Statement::Execute], by the class of the node. *)
Definition Execute_node (statement : Statement) : M Scope ObjectHolder :=
  match statement with
  | Assignment var_ rv_ =>
      (* closure[var_] = rv_->Execute(...): the right operand of [=] first *)
      let* value := Execute rv_ in
      let* _ := bind_name var_ value in
      ret value
  | VariableValue dotted_ids_ => VariableValue_Execute dotted_ids_
  | Print args_ =>
      let* _ := Print_args true args_ in
      let* _ := lift (os_write (String.String chars.newline "")) in
      ret None
  | MethodCall object_ method_ args_ => MethodCall_Execute object_ method_ args_
  | Stringify argument_ => Stringify_Execute argument_
  | Add lhs_ rhs_ => Add_Execute lhs_ rhs_
  | Sub lhs_ rhs_ => Sub_Execute lhs_ rhs_
  | Mult lhs_ rhs_ => Mult_Execute lhs_ rhs_
  | Div lhs_ rhs_ => Div_Execute lhs_ rhs_
  | Compound statements_ => Compound_Execute statements_
  | Return statement_ =>
      let* result := Execute statement_ in
      raise (ReturnException result)
  | ClassDefinition cls_ => ClassDefinition_Execute cls_
  | FieldAssignment object_ field_name_ rv_ =>
      FieldAssignment_Execute object_ field_name_ rv_
  | IfElse condition_ if_body_ else_body_ => IfElse_Execute condition_ if_body_ else_body_
  | Or lhs_ rhs_ => Or_Execute lhs_ rhs_
  | And lhs_ rhs_ => And_Execute lhs_ rhs_
  | Not argument_ => Not_Execute argument_
  | Comparison cmp_ lhs_ rhs_ => Comparison_Execute cmp_ lhs_ rhs_
  | NewInstance class_ args_ => NewInstance_Execute class_ args_
  | MethodBody body_ => MethodBody_Execute body_
  end.

End nodes.

(** [Execute] and [Print] with their virtual dispatch; the fuel bounds
    the depth of the calls. *)
Fixpoint Execute (platform : Platform) (fuel : nat) (statement : Statement)
  : M Scope ObjectHolder :=
  match fuel with
  | O => out_of_fuel
  | S fuel' =>
      Execute_node platform (Execute platform fuel')
        (Object_Print platform fuel') statement
  end
with Object_Print (platform : Platform) (fuel : nat) (object : Object)
  : M World string :=
  match fuel with
  | O => out_of_fuel
  | S fuel' =>
      Print_object platform (Execute platform fuel')
        (Object_Print platform fuel') object
  end.

End mython.


(** ** Notions used to state and prove the properties of the lexer *)

Module lexer_facts.
Import chars stream parse.

Definition is_Indent (t : Token) : bool :=
  match t with token_type.Indent => true | _ => false end.

Definition is_Dedent (t : Token) : bool :=
  match t with token_type.Dedent => true | _ => false end.

(** How many tokens of a list pass a test. *)
Fixpoint count (test : Token -> bool) (tokens : list Token) : nat :=
  match tokens with
  | [] => O
  | t :: tokens' => ((if test t then 1 else 0) + count test tokens')%nat
  end.

(** What a token adds to the indentation. *)
Definition delta (t : Token) : Z :=
  match t with
  | token_type.Indent => 1
  | token_type.Dedent => -1
  | _ => 0
  end.

(** [b'] is what is left of [b] after some characters were read. *)
Inductive suffix : string -> string -> Prop :=
| suffix_refl b : suffix b b
| suffix_cons c b b' : suffix b' b -> suffix b' (String.String c b).

(** A line buffer is empty or ends with the newline [ReadNextLine]
    appended. *)
Fixpoint line_ok (b : string) : bool :=
  match b with
  | EmptyString => true
  | String.String c rest =>
      match rest with
      | EmptyString => Ascii.eqb c newline
      | _ => line_ok rest
      end
  end.

Definition len (s : istream) : Z := Z.of_nat (String.length (buf s)).

(** The input has failed only by reaching its end. *)
Definition input_ok (s : istream) : Prop := failbit s = true -> eofbit s = true.

(** What is left to read of the input: its characters and its end. *)
Definition pending (s : istream) : Z := len s + (if eofbit s then 0 else 1).

Record Inv (lx : Lexer) : Prop := mk_Inv {
  inv_indent : 0 <= indent (context_ lx);
  inv_new_indent : 0 <= new_indent (context_ lx);
  inv_input : input_ok (input_ lx);
  inv_line : line_ok (buf (line_ lx)) = true
}.

(** Goes down with every token but [Eof]. *)
Definition measure (lx : Lexer) : Z :=
  3 * pending (input_ lx) + len (line_ lx)
  + Z.abs (new_indent (context_ lx) - indent (context_ lx))
  + new_indent (context_ lx).

(** What one [ReadToken] does to the lexer. *)
Record Step (lx : Lexer) (t : Token) (lx' : Lexer) : Prop := mk_Step {
  step_inv : Inv lx';
  step_indent : indent (context_ lx') = indent (context_ lx) + delta t;
  step_eof : t = token_type.Eof -> indent (context_ lx) = 0;
  step_measure : measure lx' <= measure lx;
  step_progress : t <> token_type.Eof -> measure lx' < measure lx
}.

(** A token read from the characters of the line. *)
Definition from_line (t : Token) : Prop :=
  delta t = 0 /\ t <> token_type.Eof.

(** Indents minus dedents. *)
Definition balance (tokens : list Token) : Z :=
  Z.of_nat (count is_Indent tokens) - Z.of_nat (count is_Dedent tokens).

(** What [ReadNextLine] leaves: no line and an input at its end, or a
    line with its newline and the indentation of the line. *)
Definition next_line (input : istream) (ctx : Context)
    (line input' : istream) (ctx' : Context) : Prop :=
  input_ok input' /\ indent ctx' = indent ctx /\
  ((line = stream.empty /\ ctx' = ctx /\ eofbit input' = true /\
    pending input' <= pending input /\
    (eofbit input = false -> pending input' < pending input))
   \/
   (exists l, line = stream.open (l ++ String.String newline "") /\
      0 <= new_indent ctx' /\
      2 * new_indent ctx' + 1 <= Z.of_nat (String.length l) /\
      pending input' + Z.of_nat (String.length l) + 1 <= pending input)).

(** [c] occurs in [s]. *)
Fixpoint has_char (c : ascii) (s : string) : bool :=
  match s with
  | EmptyString => false
  | String.String c' rest => Ascii.eqb c' c || has_char c rest
  end.

(** Characters of a string literal that [ReadString] copies as they are:
    neither the closing quote nor a backslash. *)
Definition plain (quote : ascii) (s : string) : bool :=
  negb (has_char quote s) && negb (has_char backslash s).

Definition is_quote (c : ascii) : Prop := c = double_quote \/ c = apostrophe.

(** The stream after a [get] that found nothing to read. *)
Definition exhausted : istream := {| buf := ""; eofbit := true; failbit := true |}.

(** What stands between the quotes of a string literal: characters that
    are neither the quote nor a backslash, and escapes, a backslash with
    the character after it. *)
Inductive piece : Type :=
| Plain (c : ascii)
| Escape (c : ascii).

(** The characters of a piece in the input. *)
Definition written_piece (p : piece) : string :=
  match p with
  | Plain c => String.String c ""
  | Escape c => String.String backslash (String.String c "")
  end.

Fixpoint written (pieces : list piece) : string :=
  match pieces with
  | [] => ""
  | p :: pieces' => (written_piece p ++ written pieces')%string
  end.

(** The characters of the payload that the pieces stand for. *)
Definition payload_piece (p : piece) : string :=
  match p with
  | Plain c => String.String c ""
  | Escape c => details.escape c
  end.

Fixpoint payload (pieces : list piece) : string :=
  match pieces with
  | [] => ""
  | p :: pieces' => (payload_piece p ++ payload pieces')%string
  end.

Definition piece_ok (quote : ascii) (p : piece) : bool :=
  match p with
  | Plain c => negb (Ascii.eqb c quote) && negb (Ascii.eqb c backslash)
  | Escape _ => true
  end.

Definition named_escapes : string :=
  String.String "n" (String.String "t" (String.String "r"
    (String.String backslash (String.String apostrophe (String.String double_quote ""))))).

(** The pieces of the literal that a text starts with, and what follows
    its closing quote; [None] where the text ends before the quote. *)
Fixpoint pieces_of (quote : ascii) (text : string) : option (list piece * string) :=
  match text with
  | EmptyString => None
  | String.String c text' =>
      if Ascii.eqb c quote then Some ([], text')
      else if Ascii.eqb c backslash then
        match text' with
        | EmptyString => None
        | String.String c2 text'' =>
            match pieces_of quote text'' with
            | Some (pieces, rest) => Some (Escape c2 :: pieces, rest)
            | None => None
            end
        end
      else
        match pieces_of quote text' with
        | Some (pieces, rest) => Some (Plain c :: pieces, rest)
        | None => None
        end
  end.

(** *** Inputs to run *)

(** The three characters [abc] after an opening double quote, and the end
    of the input. *)
Definition unterminated_literal : string := String.String double_quote "abc".

(** The literal ["a\xb"], closed. *)
Definition literal_with_x_escape : string :=
  String.String double_quote ("a\xb" ++ String.String double_quote "").

(** The pieces of the literal ["a\nb\tc\xd"]. *)
Definition three_escapes : list piece :=
  [Plain "a"; Escape "n"; Plain "b"; Escape "t"; Plain "c"; Escape "x"; Plain "d"]%char.

(** Three lines, each two spaces deeper than the one before. *)
Definition nested_blocks : string :=
  ("if a:" ++ String.String newline "  if b:" ++ String.String newline "    c").

(** A lexer that has the line of [unterminated_literal] to read. *)
Definition at_open_quote : Lexer :=
  {| input_ := {| buf := ""; eofbit := true; failbit := false |};
     line_ := stream.open (unterminated_literal ++ String.String newline "");
     context_ := initial_context;
     current_token_ := token_type.Eof |}.

End lexer_facts.


(** ** Notions used to state the properties of the evaluator *)

Module evaluator_facts.
Import mython.

(** Some class of the chain has a method of that name with that many
    parameters -- whether or not [GetMethod] finds it. *)
Fixpoint chain_defines (c : Class) (method : string) (argument_count : nat) : bool :=
  match c with
  | mk_Class _ methods parent =>
      existsb (fun m => String.eqb (name m) method
                        && (length (formal_params m) =? argument_count)%nat) methods
      || match parent with
         | Some p => chain_defines p method argument_count
         | None => false
         end
  end.

(** A method call that executes the object first and the arguments after
    it, to compare [MethodCall_Execute] with. *)
Definition MethodCall_receiver_first
    (Execute : Statement -> M Scope ObjectHolder)
    (object_ : Statement) (method_ : string) (args_ : list Statement)
  : M Scope ObjectHolder :=
  let* object := Execute object_ in
  let* arguments := Execute_all Execute args_ in
  match object with
  | Some (ClassInstance this) => lift (Call Execute this method_ arguments)
  | _ => undefined
  end.

(** The closure [ClassInstance::Call] executes the body in. *)
Definition method_closure (this : nat) (m : Method) (actual_args : list ObjectHolder)
  : Closure :=
  bind_params (<["self"%string := Some (ClassInstance this)]> ∅) (formal_params m) actual_args.

(** The body of a method executed for a call; its closure is dropped. *)
Definition run_method (Execute : Statement -> M Scope ObjectHolder)
    (this : nat) (m : Method) (actual_args : list ObjectHolder) : M World ObjectHolder :=
  fun w =>
    let '(r, (_, w')) := Execute (body m) (method_closure this m actual_args, w) in
    (r, w').

Definition new_instance (class_ : Class) : InstanceData :=
  {| cls_ := class_; fields_ := ∅ |}.

(** *** Programs to run *)

Definition return_ (dotted_ids : list string) : Statement :=
  MethodBody (Return (VariableValue dotted_ids)).

(** [class Base] with [f(a, b)], and [class Child(Base)] with [f(a)]. *)
Definition Base : Class :=
  mk_Class "Base" [mk_Method "f" ["a"; "b"]%string (return_ ["b"]%string)] None.
Definition Child : Class :=
  mk_Class "Child" [mk_Method "f" ["a"]%string (return_ ["a"]%string)] (Some Base).

Definition a_Child : World := snd (allocate Child initial_world).

(** [class Echo] with [f(p)] that returns [p]; [(x = Echo()).f(x)]. *)
Definition Echo : Class :=
  mk_Class "Echo" [mk_Method "f" ["p"]%string (return_ ["p"]%string)] None.
Definition call_on_assignment : Statement :=
  MethodCall (Assignment "x" (NewInstance Echo [])) "f" [VariableValue ["x"]%string].

(** A closure with two numbers. *)
Definition two_numbers : Closure :=
  <["x"%string := Some (Number (-7))]> (<["y"%string := Some (Number 2)]> ∅).

(** [class Point] with [__init__(v)] that sets [self.v], and [__str__]
    that returns it. *)
Definition Point : Class :=
  mk_Class "Point"
    [mk_Method "__init__" ["v"]%string
       (MethodBody (FieldAssignment ["self"]%string "v" (VariableValue ["v"]%string)));
     mk_Method "__str__" [] (return_ ["self"; "v"]%string)]
    None.

Definition a_Point : World :=
  set_field 0 "v" (Some (String "p")) (snd (allocate Point initial_world)).

(** [class Stored] with [__init__(v)] that sets [self.v], and
    [class Bare(Stored)] with an [__init__] without parameters. *)
Definition Stored : Class :=
  mk_Class "Stored"
    [mk_Method "__init__" ["v"]%string
       (MethodBody (FieldAssignment ["self"]%string "v" (VariableValue ["v"]%string)))]
    None.
Definition Bare : Class :=
  mk_Class "Bare" [mk_Method "__init__" [] (MethodBody (Compound []))] (Some Stored).

Definition an_Echo : World := snd (allocate Echo initial_world).
Definition the_instance : Closure := <["o"%string := Some (ClassInstance 0)]> ∅.

(** A platform: addresses written in decimal after [0x], and the range
    of a 32-bit [int]. *)
Definition sample_address (this : nat) : string :=
  ("0x" ++ NilEmpty.string_of_uint (Nat.to_uint this))%string.

Definition in_int_range (z : Z) : bool :=
  (stream.INT_MIN <=? z) && (z <=? stream.INT_MAX).

Definition sample_platform : Platform :=
  {| show_address := sample_address; representable := in_int_range |}.

End evaluator_facts.

(** ** More of [lexer.cpp] *)

Module lexer_more.
Import chars stream parse.

(** The loop of [details::ReadLine]: the first line that is not empty.
    When [getline] fails the local [line] is empty. *)
Fixpoint ReadLine_loop (fuel : nat) (input : istream) : option (string * istream) :=
  match fuel with
  | O => None
  | S fuel' =>
      match getline input with
      | (Some line, input') =>
          match line with
          | EmptyString => ReadLine_loop fuel' input'
          | _ => Some (line, input')
          end
      | (None, input') => Some (EmptyString, input')
      end
  end.

Definition ReadLine (input : istream) : option (string * istream) :=
  ReadLine_loop (S (String.length (buf input))) input.

Fixpoint newlines (n : nat) : string :=
  match n with
  | O => ""
  | S n' => String.String newline (newlines n')
  end.

(** The stream after [getline] has read a last line that no newline
    ends. *)
Definition at_end : istream := {| buf := ""; eofbit := true; failbit := false |}.

(** [details::ReadId] *)
Definition ReadId (input : istream) : option (Token * istream) :=
  match details.ReadLiteral input with
  | Some (literal, input') => Some (token_type.Id literal, input')
  | None => None
  end.

(** [lhs.index()]: which alternative of the variant a token holds.  The
    order of the alternatives is declared in lexer.h; [operator==] only
    asks whether two indices are equal. *)
Definition index (t : Token) : nat :=
  match t with
  | token_type.Number _ => 0 | token_type.Id _ => 1 | token_type.Char _ => 2
  | token_type.String _ => 3 | token_type.Class => 4 | token_type.Return => 5
  | token_type.If => 6 | token_type.Else => 7 | token_type.Def => 8
  | token_type.Newline => 9 | token_type.Print => 10 | token_type.Indent => 11
  | token_type.Dedent => 12 | token_type.And => 13 | token_type.Or => 14
  | token_type.Not => 15 | token_type.Eq => 16 | token_type.NotEq => 17
  | token_type.LessOrEq => 18 | token_type.GreaterOrEq => 19 | token_type.None => 20
  | token_type.True => 21 | token_type.False => 22 | token_type.Eof => 23
  end%nat.

(** [operator==] on tokens: after the indices, the payloads of the four
    alternatives that have one. *)
Definition Token_eq (lhs rhs : Token) : bool :=
  if negb (index lhs =? index rhs)%nat then false
  else
    match lhs, rhs with
    | token_type.Char a, token_type.Char b => Ascii.eqb a b
    | token_type.Number a, token_type.Number b => a =? b
    | token_type.String a, token_type.String b => String.eqb a b
    | token_type.Id a, token_type.Id b => String.eqb a b
    | _, _ => true
    end.

(** [operator!=] *)
Definition Token_ne (lhs rhs : Token) : bool := negb (Token_eq lhs rhs).

(** [os << value] for an [int]: the decimal digits, after a minus sign
    when negative. *)
Definition show_int (value : Z) : string := NilEmpty.string_of_int (Z.to_int value).

Definition braces (type payload : string) : string :=
  (type ++ "{" ++ payload ++ "}")%string.

(** [operator<<] on tokens: the chain of [VALUED_OUTPUT] and
    [UNVALUED_OUTPUT], and the text after it. *)
Definition Token_print (t : Token) : string :=
  match t with
  | token_type.Number value => braces "Number" (show_int value)
  | token_type.Id value => braces "Id" value
  | token_type.String value => braces "String" value
  | token_type.Char value => braces "Char" (String.String value "")
  | _ =>
      if (index t =? 4)%nat then "Class"
      else if (index t =? 5)%nat then "Return"
      else if (index t =? 6)%nat then "If"
      else if (index t =? 7)%nat then "Else"
      else if (index t =? 8)%nat then "Def"
      else if (index t =? 9)%nat then "Newline"
      else if (index t =? 10)%nat then "Print"
      else if (index t =? 11)%nat then "Indent"
      else if (index t =? 12)%nat then "Dedent"
      else if (index t =? 13)%nat then "And"
      else if (index t =? 14)%nat then "Or"
      else if (index t =? 15)%nat then "Not"
      else if (index t =? 16)%nat then "Eq"
      else if (index t =? 17)%nat then "NotEq"
      else if (index t =? 18)%nat then "LessOrEq"
      else if (index t =? 19)%nat then "GreaterOrEq"
      else if (index t =? 20)%nat then "None"
      else if (index t =? 21)%nat then "True"
      else if (index t =? 22)%nat then "False"
      else if (index t =? 23)%nat then "Eof"
      else "Unknown token :("
  end%string.

(** [n] calls of [NextToken]. *)
Fixpoint advance (n : nat) (lx : Lexer) : option Lexer :=
  match n with
  | O => Some lx
  | S n' =>
      match NextToken lx with
      | Some (_, lx') => advance n' lx'
      | None => None
      end
  end.

(** The characters of identifiers. *)
Definition ident_char (c : ascii) : bool :=
  isdigit c || isalpha c || Ascii.eqb c underscore.

Fixpoint all_chars (test : ascii -> bool) (s : string) : bool :=
  match s with
  | EmptyString => true
  | String.String c rest => test c && all_chars test rest
  end.

Definition keywords : list string :=
  ["class"; "return"; "if"; "else"; "def"; "print"; "or"; "None"; "and"; "not";
   "True"; "False"]%string.

Definition is_keyword (s : string) : bool := existsb (String.eqb s) keywords.

(** [n] spaces. *)
Fixpoint spaces (n : nat) : string :=
  match n with
  | O => EmptyString
  | S n' => String.String space (spaces n')
  end.

(** A line that [ReadNextLine] passes over: empty, spaces only, or a
    comment. *)
Definition skipped_line (line : string) : bool :=
  match find_first_not_of_space line with
  | Some pos => Ascii.eqb (char_at line pos) hash
  | None => true
  end.

(** Where [ReadLiteral] leaves the stream: at its end, or at a character
    that no identifier has. *)
Definition stops_at (s : istream) : Prop :=
  match buf s with
  | EmptyString => True
  | String.String c _ => ident_char c = false
  end.

(** A lexer that has nothing left to return but [Eof]. *)
Definition finished (lx : Lexer) : Prop :=
  new_indent (context_ lx) = indent (context_ lx) /\
  (indent (context_ lx) >? 0) = false /\
  eofbit (input_ lx) = true /\
  get (line_ lx) = (None, line_ lx).

(** The first three characters of a text. *)
Definition prefix3 (s : string) : option ascii * option ascii * option ascii :=
  (String.get 0 s, String.get 1 s, String.get 2 s).

(** What [ReadToken] can return. *)
Definition well_formed (t : Token) : Prop :=
  match t with
  | token_type.Id s =>
      is_keyword s = false /\ all_chars ident_char s = true /\
      exists c rest, s = String.String c rest /\ isdigit c = false
  | token_type.Number value => 0 <= value <= INT_MAX
  | token_type.Char c =>
      Ascii.eqb c space = false /\ Ascii.eqb c hash = false /\
      ident_char c = false /\
      Ascii.eqb c double_quote = false /\ Ascii.eqb c apostrophe = false
  | _ => True
  end.

(** *** Lexers to run *)

(** A lexer at the start of the line [x1 = 5]. *)
Definition at_identifier : Lexer :=
  {| input_ := {| buf := ""; eofbit := true; failbit := false |};
     line_ := stream.open ("x1 = 5" ++ String.String newline "");
     context_ := initial_context;
     current_token_ := token_type.Newline |}.

(** A lexer that has read all of its input. *)
Definition at_end_of_input : Lexer :=
  {| input_ := {| buf := ""; eofbit := true; failbit := false |};
     line_ := stream.empty;
     context_ := initial_context;
     current_token_ := token_type.Newline |}.

(** A lexer at the start of a line with the given characters. *)
Definition at_line (b : string) : Lexer :=
  {| input_ := {| buf := ""; eofbit := true; failbit := false |};
     line_ := stream.open b;
     context_ := initial_context;
     current_token_ := token_type.Newline |}.

End lexer_more.

(** ** More notions for the evaluator *)

Module evaluator_more.
Import mython evaluator_facts.

(** The methods of a class and of its ancestors, nearest class first. *)
Fixpoint chain_methods (c : Class) : list Method :=
  match c with
  | mk_Class _ methods parent =>
      methods ++ match parent with
                 | Some p => chain_methods p
                 | None => []
                 end
  end.

Definition named (method : string) (m : Method) : bool := String.eqb (name m) method.

(** [w'] has the output of [w] and what was written after it. *)
Definition appends (w w' : World) : Prop :=
  exists text, output w' = (output w ++ text)%string.

Definition keeps_output {S A : Type} (world : S -> World) (m : M S A) : Prop :=
  forall s, appends (world s) (world (snd (m s))).

Definition the_world (w : World) : World := w.

(** Two holders of the same primitive kind: both numbers, both booleans
    or both strings. *)
Definition same_primitive (lhs rhs : ObjectHolder) : bool :=
  match lhs, rhs with
  | Some (Number _), Some (Number _) => true
  | Some (Bool _), Some (Bool _) => true
  | Some (String _), Some (String _) => true
  | _, _ => false
  end.

Definition is_instance (holder : ObjectHolder) : bool :=
  match holder with
  | Some (ClassInstance _) => true
  | _ => false
  end.

Definition is_empty (holder : ObjectHolder) : bool :=
  match holder with
  | None => true
  | Some _ => false
  end.

(** What a [Compound] goes on with after its first statements. *)
Definition and_then (first : Outcome ObjectHolder * Scope)
    (next : M Scope ObjectHolder) : Outcome ObjectHolder * Scope :=
  match first with
  | (Value _, s) => next s
  | failure => failure
  end.

(** The order of the integers that a comparator stands for. *)
Definition integer_order (cmp : Comparator) (a b : Z) : bool :=
  match cmp with
  | CmpEqual => a =? b
  | CmpNotEqual => negb (a =? b)
  | CmpLess => a <? b
  | CmpGreater => b <? a
  | CmpLessOrEqual => a <=? b
  | CmpGreaterOrEqual => b <=? a
  end.

Definition is_number (holder : ObjectHolder) : bool :=
  match holder with
  | Some (Number _) => true
  | _ => false
  end.

Definition is_string (holder : ObjectHolder) : bool :=
  match holder with
  | Some (String _) => true
  | _ => false
  end.

(** [Comparison::Execute] with the right operand executed first. *)
Definition Comparison_Execute_right_first
    (Execute : Statement -> M Scope ObjectHolder)
    (cmp_ : Comparator) (lhs_ rhs_ : Statement) : M Scope ObjectHolder :=
  let* rhs := Execute rhs_ in
  let* lhs := Execute lhs_ in
  let* result := lift (compare_with Execute cmp_ lhs rhs) in
  ret (Some (Bool result)).

Definition unsupported_plus : Exception :=
  runtime_error "Unsupported operand type(s) for +: 'int' and 'str'".

End evaluator_more.

(** * Properties *)

(** ** The lexer *)

Module lexer_proofs.
Import chars stream parse lexer_facts.

Lemma suffix_length b' b : suffix b' b -> (String.length b' <= String.length b)%nat.
Proof. induction 1; simpl; lia. Qed.

Lemma suffix_trans a b c : suffix a b -> suffix b c -> suffix a c.
Proof. intros Hab Hbc. induction Hbc; [assumption | constructor; auto]. Qed.

Lemma line_ok_tail c b : line_ok (String.String c b) = true -> line_ok b = true.
Proof. simpl. destruct b; auto. Qed.

Lemma suffix_line_ok b' b : suffix b' b -> line_ok b = true -> line_ok b' = true.
Proof. induction 1; eauto using line_ok_tail. Qed.

Lemma line_ok_app l : line_ok (l ++ String.String newline "") = true.
Proof.
  induction l as [|a l IH]; simpl; [reflexivity|].
  destruct l; simpl in *; exact IH.
Qed.

Lemma length_app_newline l :
  String.length (l ++ String.String newline "") = S (String.length l).
Proof. induction l; simpl; congruence. Qed.

(** *** The stream operations *)

Lemma get_Some s c s' :
  get s = (Some c, s') -> buf s = String.String c (buf s') /\ s' = stream.open (buf s').
Proof.
  unfold get. destruct (good s); [|discriminate].
  destruct (buf s); inversion 1; subst; auto.
Qed.

Lemma get_None s s' : get s = (None, s') -> buf s' = buf s.
Proof.
  unfold get. destruct (good s).
  - destruct (buf s) eqn:E; inversion 1; subst; auto.
  - inversion 1; reflexivity.
Qed.

Lemma get_suffix s o s' : get s = (o, s') -> suffix (buf s') (buf s).
Proof.
  destruct o as [c|]; intros G.
  - apply get_Some in G as [-> _]. constructor. constructor.
  - apply get_None in G as ->. constructor.
Qed.

Lemma get_open c b : get (stream.open (String.String c b)) = (Some c, stream.open b).
Proof. reflexivity. Qed.

Lemma after_delim_suffix d b rest : after_delim d b = Some rest -> suffix rest b.
Proof.
  induction b as [|c b IH]; simpl; [discriminate|].
  destruct (Ascii.eqb c d).
  - inversion 1; subst. constructor. constructor.
  - intros H. constructor. auto.
Qed.

Lemma ignore_suffix d s : suffix (buf (ignore d s)) (buf s).
Proof.
  unfold ignore. destruct (good s); [|constructor].
  destruct (after_delim d (buf s)) eqn:E; simpl.
  - eauto using after_delim_suffix.
  - clear E. induction (buf s); constructor; auto.
Qed.

Lemma peek_open b o s' :
  peek (stream.open b) = (o, s') -> buf s' = b /\ failbit s' = false.
Proof. unfold peek; simpl. destruct b; inversion 1; subst; auto. Qed.

Lemma putback_buf c s :
  failbit s = false -> putback c s = stream.open (String.String c (buf s)).
Proof. unfold putback. intros ->. reflexivity. Qed.

Lemma delim_length d b rest :
  after_delim d b = Some rest ->
  String.length b = S (String.length (before_delim d b) + String.length rest).
Proof.
  revert rest. induction b as [|c b IH]; simpl; intros rest; [discriminate|].
  destruct (Ascii.eqb c d).
  - inversion 1; subst. reflexivity.
  - intros H. simpl. rewrite (IH _ H). reflexivity.
Qed.

Lemma good_bits s : good s = true -> eofbit s = false /\ failbit s = false.
Proof. unfold good. destruct (eofbit s), (failbit s); simpl; auto; discriminate. Qed.

Lemma not_good_eof s : good s = false -> input_ok s -> eofbit s = true.
Proof.
  unfold good, input_ok. destruct (eofbit s), (failbit s); simpl; auto; discriminate.
Qed.

Lemma getline_Some s line s' :
  getline s = (Some line, s') ->
  input_ok s' /\
  pending s' + Z.of_nat (String.length line) + 1 <= pending s /\
  (String.length (buf s') < String.length (buf s))%nat.
Proof.
  unfold getline. destruct (good s) eqn:G; [|discriminate].
  apply good_bits in G as [E _].
  unfold pending, len, input_ok. rewrite E.
  destruct (buf s) as [|a b] eqn:B; [discriminate|].
  destruct (after_delim newline (String.String a b)) as [rest|] eqn:A;
    inversion 1; subst; simpl buf; simpl eofbit; simpl failbit.
  - apply delim_length in A. simpl in A |- *. repeat split; try discriminate; lia.
  - simpl. repeat split; try discriminate; lia.
Qed.

Lemma getline_None s s' :
  getline s = (None, s') -> input_ok s ->
  input_ok s' /\ eofbit s' = true /\ pending s' <= pending s /\
  (eofbit s = false -> pending s' < pending s).
Proof.
  unfold getline. destruct (good s) eqn:G.
  - apply good_bits in G as [E _].
    destruct (buf s) as [|a b] eqn:B.
    + inversion 1; subst. intros _. unfold pending, len, input_ok. rewrite E, B. simpl.
      repeat split; auto; lia.
    + destruct (after_delim newline (String.String a b)); discriminate.
  - inversion 1; subst. intros Hok.
    pose proof (not_good_eof _ G Hok) as E.
    unfold pending, len, input_ok, set_fail; simpl. rewrite E.
    repeat split; auto; try lia.
Qed.

Lemma find_first_not_of_space_lt line pos :
  find_first_not_of_space line = Some pos -> (pos < String.length line)%nat.
Proof.
  revert pos. induction line as [|c line IH]; simpl; intros pos; [discriminate|].
  destruct (Ascii.eqb c space).
  - destruct (find_first_not_of_space line) as [p|]; simpl; [|discriminate].
    inversion 1; subst. specialize (IH _ eq_refl). lia.
  - inversion 1; subst. lia.
Qed.

Lemma ReadNextLine_loop_ok fuel : forall input ctx,
  input_ok input -> (String.length (buf input) < fuel)%nat ->
  exists line input' ctx',
    ReadNextLine_loop fuel input ctx = Some (line, input', ctx') /\
    next_line input ctx line input' ctx'.
Proof.
  induction fuel as [|fuel IH]; intros input ctx Hok Hfuel; [lia|].
  simpl. destruct (getline input) as [[line|] input1] eqn:G.
  - apply getline_Some in G as (Hok1 & Hpend & Hlen).
    assert (Hskip : exists line' input' ctx',
               ReadNextLine_loop fuel input1 ctx = Some (line', input', ctx') /\
               next_line input ctx line' input' ctx').
    { destruct (IH input1 ctx Hok1 ltac:(lia)) as (l' & i' & c' & E & Hok' & Hind & Hcases).
      exists l', i', c'. split; [exact E|]. split; [exact Hok'|]. split; [exact Hind|].
      destruct Hcases as [(-> & -> & Heof & Hle & _) | (l & -> & H0 & H1 & H2)].
      - left. repeat split; auto; lia.
      - right. exists l. repeat split; auto; lia. }
    destruct (find_first_not_of_space line) as [pos|] eqn:F; [|exact Hskip].
    destruct (negb (Ascii.eqb (char_at line pos) hash)); [|exact Hskip].
    apply find_first_not_of_space_lt in F.
    eexists _, _, _. split; [reflexivity|].
    split; [exact Hok1|]. split; [reflexivity|].
    right. exists line. simpl.
    pose proof (Z.mul_div_le (Z.of_nat pos) 2 ltac:(lia)).
    pose proof (Z.div_pos (Z.of_nat pos) 2 ltac:(lia) ltac:(lia)).
    repeat split; auto; lia.
  - apply getline_None in G as (Hok1 & Heof & Hle & Hlt); [|exact Hok].
    eexists _, _, _. split; [reflexivity|].
    split; [exact Hok1|]. split; [reflexivity|].
    left. repeat split; auto.
Qed.

Lemma ReadNextLine_ok input ctx :
  input_ok input ->
  exists line input' ctx',
    ReadNextLine input ctx = Some (line, input', ctx') /\
    next_line input ctx line input' ctx'.
Proof. intros Hok. apply ReadNextLine_loop_ok; [exact Hok | lia]. Qed.

(** *** Reading from the line *)

Lemma SkipSpaces_ok b : forall fuel c,
  line_ok (String.String c b) = true -> (String.length b < fuel)%nat ->
  exists c' b', SkipSpaces fuel c (stream.open b) = Some (c', stream.open b') /\ suffix b' b.
Proof.
  induction b as [|a b IH]; intros fuel c Hok Hfuel.
  - simpl in Hok. apply Ascii.eqb_eq in Hok. subst c.
    exists newline, EmptyString. split; [|constructor].
    destruct fuel; reflexivity.
  - destruct fuel as [|fuel]; [simpl in Hfuel; lia|].
    simpl SkipSpaces. destruct (Ascii.eqb c space).
    + destruct (IH fuel a (line_ok_tail _ _ Hok) ltac:(simpl in Hfuel; lia))
        as (c' & b' & E & Hs).
      exists c', b'. split; [exact E | constructor; exact Hs].
    + exists c, (String.String a b). split; [reflexivity | constructor].
Qed.

Lemma ReadLiteral_loop_ok fuel : forall input literal,
  (String.length (buf input) < fuel)%nat ->
  exists literal' input',
    details.ReadLiteral_loop fuel input literal = Some (literal', input') /\
    suffix (buf input') (buf input).
Proof.
  induction fuel as [|fuel IH]; intros input literal Hfuel; [lia|].
  simpl. destruct (get input) as [[c|] input1] eqn:G.
  - apply get_Some in G as [B E].
    destruct (isdigit c || isalpha c || Ascii.eqb c underscore).
    + destruct (IH input1 (details.push_back literal c)) as (l' & i' & E' & Hs).
      { rewrite B in Hfuel. simpl in Hfuel. lia. }
      exists l', i'. split; [exact E'|]. rewrite B. constructor. exact Hs.
    + eexists _, _. split; [reflexivity|].
      rewrite E. unfold putback; simpl. rewrite B. constructor.
  - eexists _, _. split; [reflexivity|].
    apply get_None in G as ->. constructor.
Qed.

Lemma ReadLiteral_loop_step fuel c b literal :
  isdigit c || isalpha c || Ascii.eqb c underscore = true ->
  details.ReadLiteral_loop (S fuel) (stream.open (String.String c b)) literal =
  details.ReadLiteral_loop fuel (stream.open b) (details.push_back literal c).
Proof. intros H. simpl. rewrite H. reflexivity. Qed.

Lemma ReadString_loop_ok fuel : forall input prefix s,
  (String.length (buf input) < fuel)%nat ->
  exists s' input',
    details.ReadString_loop fuel input prefix s = Some (s', input') /\
    suffix (buf input') (buf input).
Proof.
  induction fuel as [|fuel IH]; intros input prefix s Hfuel; [lia|].
  simpl. destruct (get input) as [[c|] input1] eqn:G.
  - pose proof (get_suffix _ _ _ G) as Hs1.
    apply get_Some in G as [B E].
    assert (Hlen : (String.length (buf input1) < fuel)%nat).
    { rewrite B in Hfuel. simpl in Hfuel. lia. }
    destruct (Ascii.eqb c prefix).
    + eexists _, _. split; [reflexivity | exact Hs1].
    + destruct (Ascii.eqb c backslash).
      * destruct (get input1) as [c2 input2] eqn:G2.
        apply get_suffix in G2.
        destruct (IH input2 prefix (s ++ details.escape (default c c2))%string)
          as (s' & i' & E' & Hs).
        { apply suffix_length in G2. lia. }
        exists s', i'. split; [exact E'|]. eauto using suffix_trans.
      * destruct (IH input1 prefix (details.push_back s c) Hlen) as (s' & i' & E' & Hs).
        exists s', i'. split; [exact E'|]. eauto using suffix_trans.
  - eexists _, _. split; [reflexivity|].
    apply get_None in G as ->. constructor.
Qed.

Lemma digits_suffix b : forall acc, suffix (snd (digits acc b)) b.
Proof.
  induction b as [|c b IH]; intros acc; simpl; [constructor|].
  destruct (isdigit c); [constructor; apply IH | constructor].
Qed.

Lemma ReadNumber_digit c b :
  isdigit c = true ->
  exists value line',
    details.ReadNumber (putback c (stream.open b)) = (token_type.Number value, line') /\
    suffix (buf line') b.
Proof.
  intros Hd. unfold details.ReadNumber, putback; simpl.
  unfold extract_int; simpl good; cbv iota; simpl buf.
  destruct c as [[] [] [] [] [] [] [] []]; cbv in Hd; try discriminate Hd; clear Hd;
    simpl skipws; cbv iota beta;
    match goal with
    | |- context [digits 0 (String.String ?c b)] =>
        change (digits 0 (String.String c b)) with (digits (10 * 0 + digit_value c) b);
        pose proof (digits_suffix b (10 * 0 + digit_value c)) as Hs;
        destruct (digits (10 * 0 + digit_value c) b) as [magnitude rest]
    end;
    eexists _, _; (split; [reflexivity | exact Hs]).
Qed.

Lemma ReadKeyword_from_line literal : from_line (details.ReadKeyword literal).
Proof.
  unfold details.ReadKeyword, from_line.
  repeat match goal with
         | |- context [String.eqb ?a ?b] => destruct (String.eqb a b)
         end; split; (reflexivity || discriminate).
Qed.

Lemma ReadCompareOperator_from_line c : from_line (details.ReadCompareOperator c).
Proof.
  unfold details.ReadCompareOperator, from_line.
  repeat match goal with
         | |- context [Ascii.eqb ?a ?b] => destruct (Ascii.eqb a b)
         end; split; (reflexivity || discriminate).
Qed.

Lemma ReadToken_from_ok lx c rest :
  line_ok (String.String c rest) = true ->
  exists t line',
    ReadToken_from lx c (stream.open rest) = Some (t, with_line lx line') /\
    suffix (buf line') rest /\ from_line t.
Proof.
  intros Hok. unfold ReadToken_from.
  destruct (Ascii.eqb c newline).
  { eexists _, _. split; [reflexivity|]. split; [constructor|]. split; [reflexivity|discriminate]. }
  destruct (SkipSpaces_ok rest (S (String.length (buf (stream.open rest)))) c Hok)
    as (c' & b' & -> & Hs); [simpl; lia|].
  destruct (Ascii.eqb c' hash).
  { eexists _, _. split; [reflexivity|].
    split; [|split; [reflexivity|discriminate]].
    eapply suffix_trans; [apply ignore_suffix | exact Hs]. }
  assert (Hpeek : exists next line3,
            (if details.IsSpecialChar c' then peek (stream.open b')
             else (None, stream.open b')) = (next, line3) /\
            buf line3 = b' /\ failbit line3 = false).
  { destruct (details.IsSpecialChar c').
    - destruct (peek (stream.open b')) as [next line3] eqn:P.
      apply peek_open in P. eauto.
    - eexists _, _. split; [reflexivity|]. auto. }
  destruct Hpeek as (next & line3 & -> & B3 & F3).
  destruct (details.IsSpecialChar c' && bool_decide (next = Some equals_sign)).
  { eexists _, _. split; [reflexivity|].
    split; [|apply ReadCompareOperator_from_line].
    destruct (get line3) as [o line4] eqn:G. apply get_suffix in G. simpl.
    rewrite B3 in G. eauto using suffix_trans. }
  destruct (isalpha c' || Ascii.eqb c' underscore) eqn:Halpha.
  { rewrite (putback_buf _ _ F3), B3.
    unfold details.ReadLiteral. simpl buf. simpl String.length.
    rewrite ReadLiteral_loop_step by (destruct (isdigit c'); simpl; auto).
    destruct (ReadLiteral_loop_ok (S (String.length b')) (stream.open b')
                (details.push_back "" c')) as (literal & line4 & -> & Hs4); [simpl; lia|].
    eexists _, _. split; [reflexivity|].
    split; [|apply ReadKeyword_from_line].
    simpl in Hs4. eauto using suffix_trans. }
  destruct (Ascii.eqb c' double_quote || Ascii.eqb c' apostrophe).
  { unfold details.ReadString.
    destruct (ReadString_loop_ok (S (String.length (buf line3))) line3 c' "")
      as (s & line4 & -> & Hs4); [lia|].
    eexists _, _. split; [reflexivity|].
    split; [|split; [reflexivity|discriminate]].
    rewrite B3 in Hs4. eauto using suffix_trans. }
  destruct (isdigit c') eqn:Hdigit.
  { rewrite (putback_buf _ _ F3), B3.
    destruct (ReadNumber_digit c' b' Hdigit) as (value & line4 & E & Hs4).
    unfold putback in E; simpl in E. unfold stream.open. rewrite E.
    eexists _, _. split; [reflexivity|].
    split; [|split; [reflexivity|discriminate]].
    eauto using suffix_trans. }
  eexists _, _. split; [reflexivity|].
  split; [|split; [reflexivity|discriminate]].
  rewrite B3. exact Hs.
Qed.

(** *** One token *)

Lemma Step_after lx lx2 t lx' :
  indent (context_ lx2) = indent (context_ lx) ->
  measure lx2 <= measure lx ->
  Step lx2 t lx' -> Step lx t lx'.
Proof.
  intros Hind Hm [Hinv Hi He Hle Hlt].
  constructor; auto; try lia.
  - intros Ht. rewrite <- Hind. auto.
  - intros Ht. specialize (Hlt Ht). lia.
Qed.

(** Where [ReadToken] does not call itself. *)
Lemma ReadToken_direct n lx :
  Inv lx ->
  new_indent (context_ lx) <> indent (context_ lx) \/
  eofbit (input_ lx) = true \/
  (exists c line1, get (line_ lx) = (Some c, line1)) ->
  exists t lx', ReadToken (S n) lx = Some (t, lx') /\ Step lx t lx'.
Proof.
  intros [Hi Hn Hin Hl] Hcase. simpl.
  destruct (Z.gtb_spec (new_indent (context_ lx)) (indent (context_ lx))) as [Hgt|Hle].
  { eexists _, _. split; [reflexivity|].
    constructor; [constructor| | | |]; unfold measure; simpl; auto; try lia; discriminate. }
  destruct (Z.ltb_spec (new_indent (context_ lx)) (indent (context_ lx))) as [Hlt|Hge].
  { eexists _, _. split; [reflexivity|].
    constructor; [constructor| | | |]; unfold measure; simpl; auto; try lia; discriminate. }
  destruct (get (line_ lx)) as [[c|] line1] eqn:G.
  - pose proof G as G'. apply get_Some in G' as [B E1].
    rewrite B in Hl. rewrite E1.
    destruct (ReadToken_from_ok lx c (buf line1) Hl) as (t & line' & -> & Hs & Hd & Hne).
    eexists _, _. split; [reflexivity|].
    pose proof (suffix_length _ _ Hs) as Hlen.
    apply line_ok_tail in Hl.
    constructor; [constructor| | | |]; unfold measure, len; simpl; auto; try congruence;
      try (rewrite B; simpl String.length; lia).
    + eauto using suffix_line_ok.
    + lia.
  - destruct Hcase as [Hne | [Heof | (c & l1 & Hc)]]; [lia | | congruence].
    unfold eof. rewrite Heof.
    pose proof (get_None _ _ G) as B.
    destruct (Z.gtb_spec (indent (context_ lx)) 0) as [Hpos|Hzero].
    + eexists _, _. split; [reflexivity|].
      constructor; [constructor| | | |]; unfold measure, len; simpl; auto;
        try rewrite B; try lia; try congruence; discriminate.
    + eexists _, _. split; [reflexivity|].
      constructor; [constructor| | | |]; unfold measure, len; simpl; auto;
        try rewrite B; try lia; try congruence.
Qed.

Lemma ReadToken_total lx :
  Inv lx -> exists t lx', ReadToken ReadToken_depth lx = Some (t, lx') /\ Step lx t lx'.
Proof.
  intros HI.
  destruct (Z.eq_dec (new_indent (context_ lx)) (indent (context_ lx))) as [Heq|Hne];
    [|apply ReadToken_direct; auto].
  destruct (eofbit (input_ lx)) eqn:Heof; [apply ReadToken_direct; auto|].
  destruct (get (line_ lx)) as [[c|] line1] eqn:G; [apply ReadToken_direct; eauto|].
  destruct HI as [Hi Hn Hin Hl].
  unfold ReadToken_depth. cbn [ReadToken].
  replace (new_indent (context_ lx) >? indent (context_ lx)) with false by lia.
  replace (new_indent (context_ lx) <? indent (context_ lx)) with false by lia.
  rewrite G. unfold eof. rewrite Heof.
  destruct (ReadNextLine_ok (input_ lx) (context_ lx) Hin)
    as (line & input' & ctx' & -> & Hin' & Hind & Hcases).
  set (lx2 := {| input_ := input'; line_ := line; context_ := ctx';
                 current_token_ := current_token_ lx |}).
  assert (Hdirect : exists t lx', ReadToken 1 lx2 = Some (t, lx') /\ Step lx2 t lx'
                    /\ measure lx2 <= measure lx).
  { destruct Hcases as [(-> & -> & Heof' & Hle & Hlt) | (l & -> & H0 & H1 & H2)].
    - destruct (ReadToken_direct 0 lx2) as (t & lx' & E & HS).
      + constructor; simpl; auto.
      + right. left. exact Heof'.
      + exists t, lx'. split; [exact E|]. split; [exact HS|].
        subst lx2. unfold measure, len; simpl. specialize (Hlt Heof). lia.
    - destruct (ReadToken_direct 0 lx2) as (t & lx' & E & HS).
      + constructor; simpl; auto; [lia | apply line_ok_app].
      + right. right. simpl. destruct l; simpl; eauto.
      + exists t, lx'. split; [exact E|]. split; [exact HS|].
        subst lx2. unfold measure, len; simpl. rewrite length_app_newline.
        rewrite Hind, Heq. lia. }
  destruct Hdirect as (t & lx' & E & HS & Hm).
  exists t, lx'. split; [exact E|].
  apply (Step_after lx lx2 t lx'); auto.
Qed.

(** *** The token sequence *)

Lemma count_app test (p q : list Token) :
  count test (p ++ q) = (count test p + count test q)%nat.
Proof. induction p as [|t p IH]; simpl; [reflexivity | rewrite IH; lia]. Qed.

Lemma balance_cons t tokens : balance (t :: tokens) = delta t + balance tokens.
Proof. unfold balance. destruct t; simpl; lia. Qed.

Lemma NextToken_total lx :
  Inv lx ->
  exists t lx', NextToken lx = Some (t, lx') /\ Step lx t lx' /\ CurrentToken lx' = t.
Proof.
  intros HI. destruct (ReadToken_total lx HI) as (t & lx' & E & HS).
  unfold NextToken. rewrite E.
  eexists _, _. split; [reflexivity|]. split; [|reflexivity].
  destruct HS as [[? ? ? ?] ? ? ? ?].
  constructor; [constructor| | | |]; auto.
Qed.

(** With enough fuel [drain] returns the current token and what follows,
    and what follows brings the indentation back to zero without ever
    going below. *)
Lemma drain_balanced fuel : forall lx,
  Inv lx ->
  (is_Eof (CurrentToken lx) = true -> indent (context_ lx) = 0) ->
  measure lx + (if is_Eof (CurrentToken lx) then 0 else 1) < Z.of_nat fuel ->
  exists rest,
    drain fuel lx = Some (CurrentToken lx :: rest) /\
    last (CurrentToken lx :: rest) = Some token_type.Eof /\
    indent (context_ lx) + balance rest = 0 /\
    forall k, 0 <= indent (context_ lx) + balance (take k rest).
Proof.
  induction fuel as [|fuel IH]; intros lx HI Heof Hfuel.
  { assert (0 <= measure lx); [|destruct (is_Eof (CurrentToken lx)); lia].
    destruct HI. unfold measure, pending, len. destruct (eofbit (input_ lx)); lia. }
  simpl. destruct (is_Eof (CurrentToken lx)) eqn:Ecur.
  - exists []. split; [reflexivity|]. specialize (Heof eq_refl).
    split; [destruct (CurrentToken lx); try discriminate Ecur; reflexivity|].
    split; [unfold balance; simpl; lia|].
    intros k. rewrite take_nil. unfold balance; simpl. lia.
  - destruct (NextToken_total lx HI) as (t & lx' & -> & HS & Hcur).
    destruct HS as [HI' Hind Hzero Hle Hlt].
    destruct (IH lx' HI') as (rest & -> & Hlast & Hbal & Hpre).
    + rewrite Hcur. intros Ht. destruct t; try discriminate Ht.
      rewrite Hind, (Hzero eq_refl). reflexivity.
    + rewrite Hcur. destruct t; simpl;
        try (specialize (Hlt ltac:(discriminate)); lia); lia.
    + exists (CurrentToken lx' :: rest). split; [reflexivity|].
      split; [exact Hlast|].
      rewrite Hcur in *. split.
      * rewrite balance_cons. lia.
      * intros [|k]; simpl.
        -- unfold balance; simpl. destruct HI. lia.
        -- rewrite balance_cons. specialize (Hpre k). lia.
Qed.


Example Tokenize_nested_blocks :
  Tokenize 20 nested_blocks =
  Some [token_type.If; token_type.Id "a"; token_type.Char ":"; token_type.Newline;
        token_type.Indent;
        token_type.If; token_type.Id "b"; token_type.Char ":"; token_type.Newline;
        token_type.Indent;
        token_type.Id "c"; token_type.Newline;
        token_type.Dedent; token_type.Dedent; token_type.Eof].
Proof. vm_compute. reflexivity. Qed.

(** More fuel does not change what [drain] returns. *)
Lemma drain_mono n : forall lx tokens,
  drain n lx = Some tokens -> forall m, (n <= m)%nat -> drain m lx = Some tokens.
Proof.
  induction n as [|n IH]; intros lx tokens E m Hm; [discriminate|].
  destruct m as [|m]; [lia|]. simpl in E |- *.
  destruct (is_Eof (CurrentToken lx)); [exact E|].
  destruct (NextToken lx) as [[t lx']|]; [|discriminate].
  destruct (drain n lx') as [rest|] eqn:D; [|discriminate].
  rewrite (IH lx' rest D m) by lia. exact E.
Qed.

Lemma Tokenize_unique text n m tokens tokens' :
  Tokenize n text = Some tokens -> Tokenize m text = Some tokens' -> tokens' = tokens.
Proof.
  unfold Tokenize. destruct (new_Lexer (stream.open text)) as [lx|]; [|discriminate].
  intros En Em.
  apply drain_mono with (m := Nat.max n m) in En; [|lia].
  apply drain_mono with (m := Nat.max n m) in Em; [|lia].
  congruence.
Qed.

(** C1.  Whatever the input, the lexer reaches [Eof], and in the tokens
    it has produced by then -- the token available after construction and
    those returned by [NextToken] -- there are as many [Indent] as
    [Dedent], and in no prefix of them more [Dedent] than [Indent].  The
    fuel does not matter: any run that reaches [Eof] gives these tokens. *)
Theorem C1_indent_dedent_balanced (text : string) :
  exists fuel tokens,
    Tokenize fuel text = Some tokens /\
    (forall fuel' tokens', Tokenize fuel' text = Some tokens' -> tokens' = tokens) /\
    last tokens = Some token_type.Eof /\
    count is_Indent tokens = count is_Dedent tokens /\
    forall k, (count is_Dedent (take k tokens) <= count is_Indent (take k tokens))%nat.
Proof.
  cut (exists fuel tokens,
         Tokenize fuel text = Some tokens /\
         last tokens = Some token_type.Eof /\
         count is_Indent tokens = count is_Dedent tokens /\
         forall k, (count is_Dedent (take k tokens) <= count is_Indent (take k tokens))%nat).
  { intros (fuel & tokens & E & H). exists fuel, tokens.
    split; [exact E|]. split; [|exact H].
    intros fuel' tokens' E'. exact (Tokenize_unique _ _ _ _ _ E E'). }
  unfold Tokenize, new_Lexer.
  destruct (ReadNextLine_ok (stream.open text) initial_context)
    as (line & input' & ctx & -> & Hin & Hind & Hcases); [discriminate|].
  set (lx0 := {| input_ := input'; line_ := line; context_ := ctx;
                 current_token_ := token_type.Eof |}).
  assert (HI0 : Inv lx0).
  { constructor; simpl; auto.
    - rewrite Hind. simpl. lia.
    - destruct Hcases as [(_ & -> & _) | (l & _ & H0 & _)]; simpl; lia.
    - destruct Hcases as [(-> & _) | (l & -> & _)]; simpl;
        [reflexivity | apply line_ok_app]. }
  destruct (NextToken_total lx0 HI0) as (t & lx1 & -> & HS & Hcur). simpl.
  destruct HS as [HI1 Hind1 Hzero _ _].
  simpl in Hind1, Hzero. rewrite Hind in Hind1. simpl in Hind1.
  destruct (drain_balanced (S (S (Z.to_nat (measure lx1)))) lx1 HI1)
    as (rest & E & Hlast & Hbal & Hpre).
  { rewrite Hcur. intros Ht. destruct t; try discriminate Ht. rewrite Hind1. reflexivity. }
  { destruct (is_Eof (CurrentToken lx1)); lia. }
  rewrite Hcur in *.
  exists (S (S (Z.to_nat (measure lx1)))), (t :: rest).
  split; [exact E|]. split; [exact Hlast|].
  rewrite Hind1 in Hbal, Hpre. split.
  - pose proof (balance_cons t rest) as Hb. unfold balance in *. lia.
  - intros [|k]; simpl; [lia|].
    specialize (Hpre k). pose proof (balance_cons t (take k rest)) as Hb.
    unfold balance in *. simpl in Hb. lia.
Qed.

Lemma C1_indent_dedent_balanced_witness :
  exists fuel tokens,
    Tokenize fuel nested_blocks = Some tokens /\
    (forall fuel' tokens', Tokenize fuel' nested_blocks = Some tokens' -> tokens' = tokens) /\
    last tokens = Some token_type.Eof /\
    count is_Indent tokens = count is_Dedent tokens /\
    forall k, (count is_Dedent (take k tokens) <= count is_Indent (take k tokens))%nat.
Proof. apply (C1_indent_dedent_balanced nested_blocks). Defined.


(** *** String literals *)

Lemma append_cons c (a b : string) :
  (String.String c a ++ b)%string = String.String c (a ++ b).
Proof. reflexivity. Qed.

Lemma append_nil_r (s : string) : (s ++ "")%string = s.
Proof.
  induction s as [|c s IH]; [reflexivity|].
  rewrite append_cons, IH. reflexivity.
Qed.

Lemma append_assoc (a b c : string) : ((a ++ b) ++ c)%string = (a ++ (b ++ c))%string.
Proof.
  induction a as [|x a IH]; [reflexivity|].
  rewrite !append_cons, IH. reflexivity.
Qed.

Lemma length_append (a b : string) :
  String.length (a ++ b) = (String.length a + String.length b)%nat.
Proof.
  induction a as [|x a IH]; [reflexivity|].
  rewrite append_cons. simpl. rewrite IH. reflexivity.
Qed.

Lemma has_char_app c (a b : string) :
  has_char c (a ++ b) = has_char c a || has_char c b.
Proof.
  induction a as [|x a IH]; [reflexivity|].
  rewrite append_cons. simpl. rewrite IH. apply orb_assoc.
Qed.

Lemma plain_cons q c s :
  plain q (String.String c s) = true ->
  Ascii.eqb c q = false /\ Ascii.eqb c backslash = false /\ plain q s = true.
Proof.
  unfold plain. simpl.
  destruct (Ascii.eqb c q), (Ascii.eqb c backslash); simpl; auto; try discriminate.
  destruct (has_char q s); simpl; discriminate.
Qed.

Lemma plain_app q (a b : string) :
  plain q a = true -> plain q b = true -> plain q (a ++ b) = true.
Proof.
  unfold plain. rewrite !has_char_app.
  destruct (has_char q a), (has_char backslash a), (has_char q b), (has_char backslash b);
    simpl; auto.
Qed.

Lemma ReadString_loop_mono n : forall input q s r,
  details.ReadString_loop n input q s = Some r ->
  forall m, (n <= m)%nat -> details.ReadString_loop m input q s = Some r.
Proof.
  induction n as [|n IH]; intros input q s r E m Hm; [discriminate|].
  destruct m as [|m]; [lia|]. simpl in E |- *.
  destruct (get input) as [[c|] input1]; [|exact E].
  destruct (Ascii.eqb c q); [exact E|].
  destruct (Ascii.eqb c backslash).
  - destruct (get input1) as [c2 input2]. apply IH; [exact E | lia].
  - apply IH; [exact E | lia].
Qed.

(** Plain characters are copied to the payload. *)
Lemma ReadString_loop_plain q pre : forall n tail acc,
  plain q pre = true ->
  details.ReadString_loop (String.length pre + n) (stream.open (pre ++ tail)) q acc =
  details.ReadString_loop n (stream.open tail) q (acc ++ pre).
Proof.
  induction pre as [|c pre IH]; intros n tail acc Hplain.
  - simpl. rewrite append_nil_r. reflexivity.
  - apply plain_cons in Hplain as (Hq & Hb & Hplain).
    rewrite append_cons. simpl. rewrite Hq, Hb.
    change {| buf := (pre ++ tail)%string; eofbit := false; failbit := false |}
      with (stream.open (pre ++ tail)).
    rewrite IH by exact Hplain.
    unfold details.push_back. rewrite append_assoc. reflexivity.
Qed.

Lemma ReadString_loop_end q acc :
  details.ReadString_loop 1 (stream.open "") q acc = Some (acc, exhausted).
Proof. reflexivity. Qed.

(** A literal that the line ends before its closing quote. *)
Lemma ReadString_unterminated q s :
  plain q s = true ->
  details.ReadString (stream.open s) q = Some (token_type.String s, exhausted).
Proof.
  intros Hplain. unfold details.ReadString. simpl buf.
  replace (S (String.length s)) with (String.length s + 1)%nat by lia.
  rewrite <- (append_nil_r s) at 2.
  rewrite ReadString_loop_plain by exact Hplain.
  rewrite ReadString_loop_end. reflexivity.
Qed.

Lemma quote_facts q :
  is_quote q ->
  Ascii.eqb q newline = false /\ Ascii.eqb q space = false /\ Ascii.eqb q hash = false /\
  details.IsSpecialChar q = false /\ isalpha q || Ascii.eqb q underscore = false /\
  Ascii.eqb q double_quote || Ascii.eqb q apostrophe = true /\
  Ascii.eqb backslash q = false /\ plain q (String.String newline "") = true.
Proof. intros [-> | ->]; repeat split; reflexivity. Qed.

(** C6 (amended).  When the lexer is at a quote, [ReadToken] never
    fails, whatever follows on the line: it returns a [String] token.
    When the rest of the line holds neither that quote nor a backslash,
    the payload of the token is the rest of the line with the newline
    that ends the line, and the line is used up. *)
Theorem C6_unterminated_string_is_a_token (n : nat) (lx : Lexer) (q : ascii) (b : string) :
  is_quote q ->
  new_indent (context_ lx) = indent (context_ lx) ->
  line_ lx = stream.open (String.String q b) ->
  (exists payload line',
     ReadToken (S n) lx = Some (token_type.String payload, with_line lx line')) /\
  (forall body,
     b = (body ++ String.String newline "")%string ->
     plain q body = true ->
     ReadToken (S n) lx =
     Some (token_type.String (body ++ String.String newline ""), with_line lx exhausted)).
Proof.
  intros Hq Hind Hline.
  destruct (quote_facts q Hq) as (Hnl & Hsp & Hhash & Hspecial & Halpha & Hquote & _ & Hpnl).
  assert (E : ReadToken (S n) lx =
              match details.ReadString (stream.open b) q with
              | Some (token, line4) => Some (token, with_line lx line4)
              | None => None
              end).
  { cbn [ReadToken]. rewrite Hind, Z.gtb_ltb, Z.ltb_irrefl, Hline, get_open.
    unfold ReadToken_from. rewrite Hnl.
    cbn [SkipSpaces buf stream.open String.length]. rewrite Hsp, Hhash, Hspecial.
    cbn [andb]. rewrite Halpha, Hquote. reflexivity. }
  rewrite E. split.
  - unfold details.ReadString.
    destruct (ReadString_loop_ok (S (String.length (buf (stream.open b)))) (stream.open b) q "")
      as (payload & line' & -> & _); [lia|].
    eauto.
  - intros body -> Hplain.
    rewrite ReadString_unterminated by (apply plain_app; assumption).
    reflexivity.
Qed.

Lemma C6_unterminated_string_is_a_token_witness :
  ReadToken 1 at_open_quote =
  Some (token_type.String ("abc" ++ String.String newline ""),
        with_line at_open_quote exhausted).
Proof.
  apply (proj2 (C6_unterminated_string_is_a_token 0 at_open_quote double_quote
                  ("abc" ++ String.String newline "")
                  (or_introl eq_refl) eq_refl eq_refl) "abc");
    reflexivity.
Defined.

(** C6, as stated, fails: on an input that ends inside a string literal
    the lexer returns a [String] token and then [Eof]. *)
Lemma C6_counterexample :
  Tokenize 2 unterminated_literal =
  Some [token_type.String ("abc" ++ String.String newline ""); token_type.Eof].
Proof. vm_compute. reflexivity. Qed.

Lemma length_written pieces : (length pieces <= String.length (written pieces))%nat.
Proof.
  induction pieces as [|p pieces IH]; [simpl; lia|].
  cbn [written length]. rewrite length_append. destruct p; simpl; lia.
Qed.

Lemma ReadString_loop_pieces q pieces : forall n tail acc,
  Ascii.eqb backslash q = false ->
  forallb (piece_ok q) pieces = true ->
  details.ReadString_loop (length pieces + n) (stream.open (written pieces ++ tail)) q acc =
  details.ReadString_loop n (stream.open tail) q (acc ++ payload pieces).
Proof.
  induction pieces as [|p pieces IH]; intros n tail acc Hbs Hok.
  - simpl. rewrite append_nil_r. reflexivity.
  - cbn [forallb] in Hok. apply andb_true_iff in Hok as [Hp Hok].
    cbn [written payload length]. rewrite append_assoc.
    destruct p as [c|c]; cbn [written_piece payload_piece piece_ok] in *.
    + apply andb_true_iff in Hp as [Hq Hb].
      apply negb_true_iff in Hq, Hb.
      rewrite append_cons. cbn [Nat.add details.ReadString_loop].
      rewrite get_open, Hq, Hb.
      change (("" ++ (written pieces ++ tail)))%string with (written pieces ++ tail)%string.
      rewrite IH by assumption.
      unfold details.push_back. rewrite append_assoc. reflexivity.
    + rewrite !append_cons. cbn [Nat.add details.ReadString_loop].
      rewrite get_open, Hbs, Ascii.eqb_refl, get_open. cbn [default].
      change (("" ++ (written pieces ++ tail)))%string with (written pieces ++ tail)%string.
      rewrite IH by assumption.
      rewrite append_assoc. reflexivity.
Qed.

Lemma pieces_of_written q : forall text pieces rest,
  pieces_of q text = Some (pieces, rest) ->
  text = (written pieces ++ String.String q rest)%string /\
  forallb (piece_ok q) pieces = true.
Proof.
  fix IH 1. intros text pieces rest.
  destruct text as [|c text]; [discriminate|]. cbn [pieces_of].
  destruct (Ascii.eqb c q) eqn:Eq.
  - inversion 1; subst. apply Ascii.eqb_eq in Eq. subst. split; reflexivity.
  - destruct (Ascii.eqb c backslash) eqn:Eb.
    + apply Ascii.eqb_eq in Eb. subst c.
      destruct text as [|c2 text]; [discriminate|].
      destruct (pieces_of q text) as [[ps r]|] eqn:E; [|discriminate].
      inversion 1; subst. apply IH in E as [-> Hok].
      split; [reflexivity|exact Hok].
    + destruct (pieces_of q text) as [[ps r]|] eqn:E; [|discriminate].
      inversion 1; subst. apply IH in E as [-> Hok].
      split; [reflexivity|]. cbn [forallb piece_ok]. rewrite Eq, Eb. exact Hok.
Qed.

(** C7 (amended).  Every string literal is a sequence of pieces between
    its quotes, each a character that is neither the quote nor a
    backslash, or a backslash with the character after it.  [ReadString]
    reads the literal through its closing quote, and the payload of the
    token holds, piece by piece, the character itself, and for an escape
    what [escape] gives for its character: one character for each of [n],
    [t], [r], the backslash and the two quotes, and nothing at all for
    any other character.  Every text that holds the closing quote is read
    so. *)
Theorem C7_escape_sequences (q : ascii) (pieces : list piece) (rest : string) :
  is_quote q ->
  forallb (piece_ok q) pieces = true ->
  details.ReadString (stream.open (written pieces ++ String.String q rest)) q =
  Some (token_type.String (payload pieces), stream.open rest) /\
  (forall text pieces' rest',
     pieces_of q text = Some (pieces', rest') ->
     details.ReadString (stream.open text) q =
     Some (token_type.String (payload pieces'), stream.open rest')) /\
  details.escape "n" = String.String newline "" /\
  details.escape "t" = String.String tab "" /\
  details.escape "r" = String.String carriage_return "" /\
  details.escape backslash = String.String backslash "" /\
  details.escape apostrophe = String.String apostrophe "" /\
  details.escape double_quote = String.String double_quote "" /\
  (forall c, has_char c named_escapes = false -> details.escape c = ""%string).
Proof.
  intros Hq Hok.
  destruct (quote_facts q Hq) as (_ & _ & _ & _ & _ & _ & Hbs & _).
  assert (Hread : forall ps r,
            forallb (piece_ok q) ps = true ->
            details.ReadString (stream.open (written ps ++ String.String q r)) q =
            Some (token_type.String (payload ps), stream.open r)).
  { intros ps r Hps. unfold details.ReadString. simpl buf.
    assert (E : details.ReadString_loop (length ps + 1)
                  (stream.open (written ps ++ String.String q r)) q "" =
                Some (payload ps, stream.open r)).
    { rewrite ReadString_loop_pieces by assumption.
      cbn [details.ReadString_loop]. rewrite get_open, Ascii.eqb_refl. reflexivity. }
    rewrite (ReadString_loop_mono _ _ _ _ _ E); [reflexivity|].
    pose proof (length_written ps) as Hlen.
    rewrite length_append. simpl. lia. }
  split; [apply Hread; exact Hok|].
  split; [|repeat split; try reflexivity].
  - intros text pieces' rest' Hp.
    apply pieces_of_written in Hp as [-> Hps]. apply Hread. exact Hps.
  - intros c H. unfold named_escapes in H. cbn [has_char] in H.
    repeat (apply orb_false_elim in H as [? H]).
    unfold details.escape.
    repeat match goal with
           | E : Ascii.eqb ?x c = false |- _ =>
               rewrite Ascii.eqb_sym in E; rewrite E; clear E
           end.
    reflexivity.
Qed.

Lemma C7_escape_sequences_witness :
  details.ReadString
    (stream.open ("a\nb\tc\xd" ++ String.String double_quote " + x")) double_quote =
  Some (token_type.String
          ("a" ++ String.String newline ("b" ++ String.String tab "cd")),
        stream.open " + x").
Proof.
  apply (proj1 (C7_escape_sequences double_quote three_escapes " + x"
                  (or_introl eq_refl) eq_refl)).
Defined.

(** C7, as stated, fails: of the escape [\x] neither the backslash nor
    the [x] reaches the payload of the token. *)
Lemma C7_counterexample :
  Tokenize 3 literal_with_x_escape =
    Some [token_type.String "ab"; token_type.Newline; token_type.Eof] /\
  has_char backslash "ab" = false /\ has_char "x" "ab" = false.
Proof. repeat split; vm_compute; reflexivity. Qed.

End lexer_proofs.

(** ** The evaluator *)

Module evaluator_proofs.
Import mython evaluator_facts.

Lemma bind_Value {S A B : Type} (m : M S A) (k : A -> M S B) s a s' :
  m s = (Value a, s') -> bind m k s = k a s'.
Proof. unfold bind. intros ->. reflexivity. Qed.

Lemma bind_Throw {S A B : Type} (m : M S A) (k : A -> M S B) s e s' :
  m s = (Throw e, s') -> bind m k s = (Throw e, s').
Proof. unfold bind. intros ->. reflexivity. Qed.

Lemma Execute_S platform fuel statement :
  Execute platform (S fuel) statement =
  Execute_node platform (Execute platform fuel) (Object_Print platform fuel) statement.
Proof. reflexivity. Qed.

Lemma Object_Print_S platform fuel object :
  Object_Print platform (S fuel) object =
  Print_object platform (Execute platform fuel) (Object_Print platform fuel) object.
Proof. reflexivity. Qed.

(** [print p] for a [Point] whose [v] is the string [p], [print x / y]
    for -7 and 2, and [print y / z] without a [z]. *)
Example Print_a_Point :
  Execute sample_platform 6 (Print [VariableValue ["o"]%string]) (the_instance, a_Point) =
  (Value None, (the_instance, write ("p" ++ String.String chars.newline "") a_Point)).
Proof. vm_compute. reflexivity. Qed.

Example Print_a_quotient :
  Execute sample_platform 3
    (Print [Div (VariableValue ["x"]%string) (VariableValue ["y"]%string)])
    (two_numbers, initial_world) =
  (Value None, (two_numbers, write ("-3" ++ String.String chars.newline "") initial_world)).
Proof. vm_compute. reflexivity. Qed.

Example Print_an_undefined_name :
  fst (Execute sample_platform 3
         (Print [Div (VariableValue ["y"]%string) (VariableValue ["z"]%string)])
         (two_numbers, initial_world)) =
  Throw (runtime_error "Name z is not defined").
Proof. vm_compute. reflexivity. Qed.

(** C2.  On two numbers [Div::Execute] returns the quotient truncated
    toward zero -- the sign of the dividend on the quotient of the
    magnitudes -- when the divisor is strictly positive, and throws the
    runtime error "Division by zero" when the divisor is zero or
    negative. *)
Theorem C2_Div_positive_divisor_only platform fuel lhs_ rhs_ s a b s1 s2 :
  Execute platform fuel lhs_ s = (Value (Some (Number a)), s1) ->
  Execute platform fuel rhs_ s1 = (Value (Some (Number b)), s2) ->
  (0 < b ->
     Execute platform (S fuel) (Div lhs_ rhs_) s = (Value (Some (Number (Z.quot a b))), s2) /\
     Z.quot a b = Z.sgn a * (Z.abs a / b)) /\
  (b <= 0 ->
     Execute platform (S fuel) (Div lhs_ rhs_) s =
     (Throw (runtime_error "Division by zero"), s2)).
Proof.
  intros Hl Hr.
  assert (E : Execute platform (S fuel) (Div lhs_ rhs_) s =
              (if b >? 0 then ret (Some (Number (Z.quot a b)))
               else raise (runtime_error "Division by zero")) s2).
  { rewrite Execute_S. cbn [Execute_node]. unfold Div_Execute, Arithmetic_Execute.
    rewrite (bind_Value _ _ _ _ _ Hl), (bind_Value _ _ _ _ _ Hr). reflexivity. }
  rewrite E. split; intros Hb.
  - replace (b >? 0) with true by lia. split; [reflexivity|].
    rewrite Z.quot_div by lia.
    rewrite (Z.sgn_pos b), (Z.abs_eq b) by lia. lia.
  - replace (b >? 0) with false by lia. reflexivity.
Qed.

Lemma C2_Div_positive_divisor_only_witness :
  (0 < 2 ->
     Execute sample_platform 2 (Div (VariableValue ["x"]%string) (VariableValue ["y"]%string))
       (two_numbers, initial_world) =
     (Value (Some (Number (Z.quot (-7) 2))), (two_numbers, initial_world)) /\
     Z.quot (-7) 2 = Z.sgn (-7) * (Z.abs (-7) / 2)) /\
  (2 <= 0 ->
     Execute sample_platform 2 (Div (VariableValue ["x"]%string) (VariableValue ["y"]%string))
       (two_numbers, initial_world) =
     (Throw (runtime_error "Division by zero"), (two_numbers, initial_world))).
Proof.
  apply (C2_Div_positive_divisor_only sample_platform 1
           (VariableValue ["x"]%string) (VariableValue ["y"]%string)
           (two_numbers, initial_world) (-7) 2
           (two_numbers, initial_world) (two_numbers, initial_world));
    vm_compute; reflexivity.
Defined.

(** C4.  [IsTrue] is false for the empty holder, true for a number
    exactly when it is not zero, the value of a [Bool], true for a string
    exactly when it is not empty, and false for a class and for a class
    instance. *)
Theorem C4_IsTrue (object : ObjectHolder) :
  match object with
  | None => IsTrue object = false
  | Some (Number value) => IsTrue object = true <-> value <> 0
  | Some (Bool value) => IsTrue object = value
  | Some (String value) => IsTrue object = true <-> value <> ""%string
  | Some (ClassObject _) => IsTrue object = false
  | Some (ClassInstance _) => IsTrue object = false
  end.
Proof.
  destruct object as [[value|value|value|cls|this]|]; simpl; try reflexivity.
  - destruct (Z.eqb_spec value 0); simpl; split; congruence.
  - destruct (String.eqb_spec value ""); simpl; split; congruence.
Qed.


(** C3 (amended).  [ClassInstance::Call] dispatches on the first method
    of that name that [GetMethod] finds along the class chain: when that
    method takes as many parameters as there are arguments, its body is
    executed in a closure of [self] and the parameters; when it takes
    another number of parameters, or no method has that name, the call
    throws the runtime error "Method ... has not found" and leaves the
    world as it was. *)
Theorem C3_Call_first_match_by_name
    (Execute : Statement -> M Scope ObjectHolder)
    (this : nat) (method : string) (actual_args : list ObjectHolder)
    (w : World) (self : InstanceData) :
  heap w !! this = Some self ->
  (forall m, GetMethod (cls_ self) method = Some m ->
             length (formal_params m) = length actual_args ->
             Call Execute this method actual_args w =
             run_method Execute this m actual_args w) /\
  (forall m, GetMethod (cls_ self) method = Some m ->
             length (formal_params m) <> length actual_args ->
             Call Execute this method actual_args w = (Throw (not_found method), w)) /\
  (GetMethod (cls_ self) method = None ->
   Call Execute this method actual_args w = (Throw (not_found method), w)).
Proof.
  intros Hself. unfold Call, HasMethod. rewrite Hself.
  repeat split.
  - intros m -> Hlen. rewrite Hlen, Nat.eqb_refl. reflexivity.
  - intros m -> Hlen. apply Nat.eqb_neq in Hlen. rewrite Hlen. reflexivity.
  - intros ->. reflexivity.
Qed.

Lemma C3_Call_first_match_by_name_witness :
  Call (Execute sample_platform 3) 0 "f" [Some (Number 5)] a_Child =
    (Value (Some (Number 5)), a_Child) /\
  Call (Execute sample_platform 3) 0 "f" [Some (Number 5); Some (Number 6)] a_Child =
    (Throw (not_found "f"), a_Child) /\
  Call (Execute sample_platform 3) 0 "g" [] a_Child = (Throw (not_found "g"), a_Child).
Proof.
  split; [|split].
  - apply (proj1 (C3_Call_first_match_by_name (Execute sample_platform 3) 0 "f"
                    [Some (Number 5)] a_Child (new_instance Child) eq_refl)
             (mk_Method "f" ["a"]%string (return_ ["a"]%string)));
      reflexivity.
  - apply (proj1 (proj2 (C3_Call_first_match_by_name (Execute sample_platform 3) 0 "f"
                           [Some (Number 5); Some (Number 6)] a_Child
                           (new_instance Child) eq_refl))
             (mk_Method "f" ["a"]%string (return_ ["a"]%string)));
      [reflexivity | simpl; lia].
  - apply (proj2 (proj2 (C3_Call_first_match_by_name (Execute sample_platform 3) 0 "g"
                           [] a_Child (new_instance Child) eq_refl)));
      reflexivity.
Defined.

(** C3, as stated, fails: [Base] has an [f] of two parameters, but for an
    instance of [Child], whose own [f] takes one, a call of [f] with two
    arguments throws. *)
Lemma C3_counterexample :
  chain_defines Child "f" 2 = true /\
  Call (Execute sample_platform 3) 0 "f" [Some (Number 1); Some (Number 2)] a_Child =
  (Throw (runtime_error "Method f has not found"), a_Child).
Proof. split; vm_compute; reflexivity. Qed.

(** Comparing anything but a class instance leaves the world alone. *)
Lemma Equal_pure Execute lhs rhs w r w' :
  (forall this, lhs <> Some (ClassInstance this)) ->
  Equal Execute lhs rhs w = (r, w') -> w' = w.
Proof.
  intros Hprimitive.
  destruct lhs as [[a|a|a|a|this]|]; try (exfalso; eapply Hprimitive; reflexivity);
    destruct rhs as [[b|b|b|b|other]|]; simpl; inversion 1; reflexivity.
Qed.

Lemma Less_pure Execute lhs rhs w r w' :
  (forall this, lhs <> Some (ClassInstance this)) ->
  Less Execute lhs rhs w = (r, w') -> w' = w.
Proof.
  intros Hprimitive.
  destruct lhs as [[a|a|a|a|this]|]; try (exfalso; eapply Hprimitive; reflexivity);
    destruct rhs as [[b|b|b|b|other]|]; simpl; inversion 1; reflexivity.
Qed.

(** C5.  Where [Less] returns [b1] and [Equal], called after it, returns
    [b2]: [NotEqual] is the negation of [Equal], [Greater] is "not
    [Less] and [NotEqual]", [LessOrEqual] is "[Less] or [Equal]" and
    [GreaterOrEqual] is the negation of [Less].  The second comparison of
    [Greater] and [LessOrEqual] runs in the world the first one left, and
    is skipped where the first decides; unless the left operand is a
    class instance, whose [__lt__] and [__eq__] are then called, no
    comparison changes the world. *)
Theorem C5_derived_comparisons
    (Execute : Statement -> M Scope ObjectHolder)
    (lhs rhs : ObjectHolder) (w w1 w2 : World) (b1 b2 : bool) :
  Less Execute lhs rhs w = (Value b1, w1) ->
  Equal Execute lhs rhs w1 = (Value b2, w2) ->
  NotEqual Execute lhs rhs w1 = (Value (negb b2), w2) /\
  Greater Execute lhs rhs w = (Value (negb b1 && negb b2), if b1 then w1 else w2) /\
  LessOrEqual Execute lhs rhs w = (Value (b1 || b2), if b1 then w1 else w2) /\
  GreaterOrEqual Execute lhs rhs w = (Value (negb b1), w1) /\
  ((forall this, lhs <> Some (ClassInstance this)) -> w1 = w /\ w2 = w).
Proof.
  intros Hless Hequal.
  assert (Hne : NotEqual Execute lhs rhs w1 = (Value (negb b2), w2)).
  { unfold NotEqual. rewrite (bind_Value _ _ _ _ _ Hequal). reflexivity. }
  repeat split.
  - exact Hne.
  - unfold Greater. rewrite (bind_Value _ _ _ _ _ Hless).
    destruct b1; simpl; [reflexivity | exact Hne].
  - unfold LessOrEqual. rewrite (bind_Value _ _ _ _ _ Hless).
    destruct b1; simpl; [reflexivity | exact Hequal].
  - unfold GreaterOrEqual. rewrite (bind_Value _ _ _ _ _ Hless). reflexivity.
  - eapply Less_pure; eauto.
  - match goal with
    | Hprimitive : forall this, lhs <> _ |- _ =>
        apply (Less_pure _ _ _ _ _ _ Hprimitive) in Hless;
        apply (Equal_pure _ _ _ _ _ _ Hprimitive) in Hequal
    end.
    congruence.
Qed.

Lemma C5_derived_comparisons_witness :
  NotEqual (Execute sample_platform 1) (Some (Number 2)) (Some (Number 1)) initial_world =
    (Value (negb false), initial_world) /\
  Greater (Execute sample_platform 1) (Some (Number 2)) (Some (Number 1)) initial_world =
    (Value (negb false && negb false), initial_world) /\
  LessOrEqual (Execute sample_platform 1) (Some (Number 2)) (Some (Number 1)) initial_world =
    (Value (false || false), initial_world) /\
  GreaterOrEqual (Execute sample_platform 1) (Some (Number 2)) (Some (Number 1)) initial_world =
    (Value (negb false), initial_world) /\
  ((forall this, Some (Number 2) <> Some (ClassInstance this)) ->
   initial_world = initial_world /\ initial_world = initial_world).
Proof.
  apply (C5_derived_comparisons (Execute sample_platform 1)
           (Some (Number 2)) (Some (Number 1))
           initial_world initial_world initial_world false false);
    reflexivity.
Defined.

(** C8 (amended).  [MethodCall::Execute] executes the argument
    expressions from left to right first (each in the state the one
    before it left, and none after one that throws), then the object
    expression in the state the arguments left, and then calls the method
    on the instance; when an argument throws, the object expression is
    not executed at all. *)
Theorem C8_MethodCall_arguments_then_object platform fuel object_ method_ args_ s :
  (forall arguments s1 this s2,
     Execute_all (Execute platform fuel) args_ s = (Value arguments, s1) ->
     Execute platform fuel object_ s1 = (Value (Some (ClassInstance this)), s2) ->
     Execute platform (S fuel) (MethodCall object_ method_ args_) s =
     lift (Call (Execute platform fuel) this method_ arguments) s2) /\
  (forall e s1,
     Execute_all (Execute platform fuel) args_ s = (Throw e, s1) ->
     Execute platform (S fuel) (MethodCall object_ method_ args_) s = (Throw e, s1)) /\
  (forall arg args' e s1,
     args_ = arg :: args' ->
     Execute platform fuel arg s = (Throw e, s1) ->
     Execute_all (Execute platform fuel) args_ s = (Throw e, s1)) /\
  (forall arg args' value s1 values s2,
     args_ = arg :: args' ->
     Execute platform fuel arg s = (Value value, s1) ->
     Execute_all (Execute platform fuel) args' s1 = (Value values, s2) ->
     Execute_all (Execute platform fuel) args_ s = (Value (value :: values), s2)).
Proof.
  rewrite Execute_S. cbn [Execute_node]. unfold MethodCall_Execute.
  repeat split.
  - intros arguments s1 this s2 Hargs Hobject.
    rewrite (bind_Value _ _ _ _ _ Hargs), (bind_Value _ _ _ _ _ Hobject). reflexivity.
  - intros e s1 Hargs. rewrite (bind_Throw _ _ _ _ _ Hargs). reflexivity.
  - intros arg args' e s1 -> Harg. cbn [Execute_all].
    rewrite (bind_Throw _ _ _ _ _ Harg). reflexivity.
  - intros arg args' value s1 values s2 -> Harg Hargs. cbn [Execute_all].
    rewrite (bind_Value _ _ _ _ _ Harg), (bind_Value _ _ _ _ _ Hargs). reflexivity.
Qed.

Lemma C8_MethodCall_arguments_then_object_witness :
  Execute sample_platform 5
    (MethodCall (VariableValue ["o"]%string) "f" [VariableValue ["o"]%string])
    (the_instance, an_Echo) =
    lift (Call (Execute sample_platform 4) 0 "f" [Some (ClassInstance 0)]) (the_instance, an_Echo) /\
  Execute sample_platform 5 call_on_assignment (∅, initial_world) =
    (Throw (runtime_error "Name x is not defined"), (∅, initial_world)).
Proof.
  split.
  - apply (proj1 (C8_MethodCall_arguments_then_object sample_platform 4
                    (VariableValue ["o"]%string) "f" [VariableValue ["o"]%string]
                    (the_instance, an_Echo))
             [Some (ClassInstance 0)] (the_instance, an_Echo) 0%nat (the_instance, an_Echo));
      vm_compute; reflexivity.
  - apply (proj1 (proj2 (C8_MethodCall_arguments_then_object sample_platform 4
                           (Assignment "x" (NewInstance Echo [])) "f"
                           [VariableValue ["x"]%string] (∅, initial_world)))).
    reflexivity.
Defined.

(** C8, as stated, fails: in [(x = Echo()).f(x)] the argument [x] is
    executed before the assignment that is the object, and the name is
    not defined yet; with the object first the call returns the
    instance. *)
Lemma C8_counterexample :
  fst (Execute sample_platform 5 call_on_assignment (∅, initial_world)) =
    Throw (runtime_error "Name x is not defined") /\
  fst (MethodCall_receiver_first (Execute sample_platform 4)
         (Assignment "x" (NewInstance Echo [])) "f" [VariableValue ["x"]%string]
         (∅, initial_world)) =
    Value (Some (ClassInstance 0)).
Proof. split; vm_compute; reflexivity. Qed.

(** C9 (amended).  [NewInstance::Execute] allocates an instance of the class at an
    address that no instance had.  When [HasMethod] finds no [__init__]
    taking as many parameters as there are argument expressions, it
    returns the instance at once: no argument is executed, nothing is
    thrown, and closure and output are as before.  When it finds one, the
    arguments are executed from left to right, [__init__] is called on the
    new instance with their values, and the instance is returned. *)
Theorem C9_NewInstance platform fuel class_ args_ closure w :
  heap w !! length (heap w) = None /\
  heap (snd (allocate class_ w)) !! length (heap w) = Some (new_instance class_) /\
  output (snd (allocate class_ w)) = output w /\
  (HasMethod (new_instance class_) INIT_METHOD (length args_) = false ->
   Execute platform (S fuel) (NewInstance class_ args_) (closure, w) =
   (Value (Some (ClassInstance (length (heap w)))), (closure, snd (allocate class_ w)))) /\
  (HasMethod (new_instance class_) INIT_METHOD (length args_) = true ->
   forall params s1 result w2,
     Execute_all (Execute platform fuel) args_ (closure, snd (allocate class_ w)) =
       (Value params, s1) ->
     Call (Execute platform fuel) (length (heap w)) INIT_METHOD params (snd s1) =
       (Value result, w2) ->
     Execute platform (S fuel) (NewInstance class_ args_) (closure, w) =
     (Value (Some (ClassInstance (length (heap w)))), (fst s1, w2))).
Proof.
  unfold allocate. cbn [snd heap output].
  split; [apply lookup_ge_None_2; lia|].
  split; [rewrite lookup_app_r, Nat.sub_diag by lia; reflexivity|].
  split; [reflexivity|].
  rewrite Execute_S. cbn [Execute_node]. unfold NewInstance_Execute, allocate.
  cbn [snd fst]. fold (new_instance class_).
  split; intros Hinit; rewrite Hinit; [reflexivity|].
  intros params s1 result w2 Hargs Hcall.
  rewrite (bind_Value _ _ _ _ _ Hargs).
  unfold lift at 1. unfold bind at 1. rewrite Hcall. reflexivity.
Qed.

Lemma C9_NewInstance_witness :
  Execute sample_platform 1 (NewInstance Echo [VariableValue ["undefined"]%string])
    (∅, initial_world) =
    (Value (Some (ClassInstance 0)), (∅, an_Echo)) /\
  Execute sample_platform 5 (NewInstance Point [VariableValue ["y"]%string])
    (two_numbers, initial_world) =
    (Value (Some (ClassInstance 0)),
     (two_numbers, set_field 0 "v" (Some (Number 2)) (snd (allocate Point initial_world)))).
Proof.
  split.
  - apply (proj1 (proj2 (proj2 (proj2
             (C9_NewInstance sample_platform 0 Echo [VariableValue ["undefined"]%string]
                ∅ initial_world))))).
    reflexivity.
  - apply (proj2 (proj2 (proj2 (proj2
             (C9_NewInstance sample_platform 4 Point [VariableValue ["y"]%string]
                two_numbers initial_world))))
             eq_refl [Some (Number 2)]
             (two_numbers, snd (allocate Point initial_world)) None);
      vm_compute; reflexivity.
Defined.

(** C9, as stated, fails: the chain of [Bare] defines an [__init__] with
    one parameter, that of [Stored], and yet [Bare(undefined)] returns the
    instance: the argument is not executed -- it would throw -- and no
    [__init__] is called. *)
Lemma C9_counterexample :
  chain_defines Bare INIT_METHOD 1 = true /\
  Execute sample_platform 5 (NewInstance Bare [VariableValue ["undefined"]%string])
    (∅, initial_world) =
  (Value (Some (ClassInstance 0)), (∅, snd (allocate Bare initial_world))) /\
  Execute sample_platform 5 (VariableValue ["undefined"]%string) (∅, initial_world) =
  (Throw (runtime_error "Name undefined is not defined"), (∅, initial_world)).
Proof. repeat split; vm_compute; reflexivity. Qed.



End evaluator_proofs.

Module lexer_more_proofs.
Import chars stream parse lexer_facts lexer_proofs lexer_more.

(** *** After [Eof] *)

Lemma get_None_again s s' : get s = (None, s') -> get s' = (None, s').
Proof.
  unfold get. destruct (good s) eqn:G.
  - destruct (buf s); inversion 1; subst; reflexivity.
  - inversion 1; subst. unfold good, set_fail; simpl.
    rewrite andb_false_r. reflexivity.
Qed.

Lemma with_line_again lx line : with_line (with_line lx line) line = with_line lx line.
Proof. reflexivity. Qed.

Lemma SkipSpaces_failed fuel : forall c s,
  Ascii.eqb c space = true -> good s = false -> SkipSpaces fuel c s = None.
Proof.
  induction fuel as [|fuel IH]; intros c s Hc Hs; simpl; rewrite Hc; [reflexivity|].
  unfold get. rewrite Hs. simpl. apply IH; [exact Hc|].
  unfold good, set_fail; simpl. apply andb_false_r.
Qed.

Lemma SkipSpaces_open fuel : forall c b c' line2,
  SkipSpaces fuel c (stream.open b) = Some (c', line2) ->
  exists b', line2 = stream.open b' /\ suffix b' b /\ Ascii.eqb c' space = false.
Proof.
  induction fuel as [|fuel IH]; intros c b c' line2; simpl.
  - destruct (Ascii.eqb c space) eqn:E; [discriminate|].
    inversion 1; subst. exists b. repeat split; [constructor | exact E].
  - destruct (Ascii.eqb c space) eqn:E.
    + destruct b as [|a b]; simpl.
      * rewrite SkipSpaces_failed by (auto; reflexivity). discriminate.
      * intros H. apply IH in H as (b' & -> & Hs & Hc).
        exists b'. repeat split; [constructor; exact Hs | exact Hc].
    + inversion 1; subst. exists b. repeat split; [constructor | exact E].
Qed.

(** *** [ReadLiteral] *)

Lemma all_chars_app test (a b : string) :
  all_chars test (a ++ b) = all_chars test a && all_chars test b.
Proof.
  induction a as [|c a IH]; [reflexivity|].
  rewrite append_cons. simpl. rewrite IH. apply andb_assoc.
Qed.

Lemma ReadLiteral_loop_split fuel : forall b acc literal input',
  details.ReadLiteral_loop fuel (stream.open b) acc = Some (literal, input') ->
  exists taken,
    literal = (acc ++ taken)%string /\ b = (taken ++ buf input')%string /\
    all_chars ident_char taken = true /\ stops_at input'.
Proof.
  induction fuel as [|fuel IH]; intros b acc literal input'; [discriminate|].
  destruct b as [|c b]; simpl.
  - inversion 1; subst. exists EmptyString.
    rewrite append_nil_r. repeat split.
  - fold (ident_char c). destruct (ident_char c) eqn:Ec.
    + intros H. apply IH in H as (taken & -> & -> & Hall & Hstop).
      exists (String.String c taken). unfold details.push_back.
      rewrite append_assoc. repeat split; auto.
      simpl. rewrite Ec, Hall. reflexivity.
    + inversion 1; subst. exists EmptyString.
      rewrite append_nil_r. repeat split. unfold stops_at; simpl. exact Ec.
Qed.


(** X3.  [ReadLiteral] on a fresh stream splits its characters in two:
    the literal it returns is the longest prefix made of letters, digits
    and underscores, and the stream is left on the rest, which is empty
    or starts with another character; nothing is lost.  [ReadId] wraps
    the same literal in an [Id]. *)
Theorem X3_ReadLiteral_longest_prefix (b : string) :
  exists literal input',
    details.ReadLiteral (stream.open b) = Some (literal, input') /\
    ReadId (stream.open b) = Some (token_type.Id literal, input') /\
    b = (literal ++ buf input')%string /\
    all_chars ident_char literal = true /\
    stops_at input'.
Proof.
  unfold ReadId, details.ReadLiteral.
  destruct (ReadLiteral_loop_ok (S (String.length (buf (stream.open b)))) (stream.open b) "")
    as (literal & input' & E & _); [lia|].
  rewrite E. exists literal, input'.
  apply ReadLiteral_loop_split in E as (taken & -> & -> & Hall & Hstop).
  repeat split; auto.
Qed.

(** *** [ReadNumber] *)

Lemma digit_value_range c : isdigit c = true -> 0 <= digit_value c <= 9.
Proof.
  unfold isdigit, in_range, digit_value. intros H.
  apply andb_true_iff in H as [H1 H2].
  apply Nat.leb_le in H1, H2. lia.
Qed.

Lemma digits_nonneg b : forall acc, 0 <= acc -> 0 <= fst (digits acc b).
Proof.
  induction b as [|c b IH]; intros acc Hacc; simpl; [exact Hacc|].
  destruct (isdigit c) eqn:Hd; [|exact Hacc].
  apply IH. pose proof (digit_value_range c Hd). lia.
Qed.

Lemma digits_eta acc b : digits acc b = (fst (digits acc b), snd (digits acc b)).
Proof. destruct (digits acc b); reflexivity. Qed.

Lemma ReadNumber_value (c : ascii) (b : string) :
  isdigit c = true ->
  exists value line',
    details.ReadNumber (putback c (stream.open b)) = (token_type.Number value, line') /\
    value = Z.min INT_MAX (fst (digits 0 (String.String c b))) /\
    0 <= value <= INT_MAX /\
    buf line' = snd (digits 0 (String.String c b)) /\
    failbit line' = (INT_MAX <? fst (digits 0 (String.String c b))).
Proof.
  intros Hd. pose proof (digit_value_range c Hd) as Hv.
  unfold details.ReadNumber, putback; simpl.
  unfold extract_int; simpl good; cbv iota; simpl buf.
  assert (Hm : 0 <= fst (digits (10 * 0 + digit_value c) b))
    by (apply digits_nonneg; lia).
  pose proof (digits_suffix b (10 * 0 + digit_value c)) as Hs.
  apply suffix_length in Hs.
  destruct c as [[] [] [] [] [] [] [] []]; cbv in Hd; try discriminate Hd; clear Hd;
    simpl skipws; cbv iota beta;
    match goal with
    | |- context [digits 0 (String.String ?c b)] =>
        change (digits 0 (String.String c b)) with (digits (10 * 0 + digit_value c) b);
        rewrite (digits_eta (10 * 0 + digit_value c) b);
        set (m := fst (digits (10 * 0 + digit_value c) b)) in *;
        set (rest := snd (digits (10 * 0 + digit_value c) b)) in *
    end;
    cbv iota beta;
    (replace (String.length rest =? String.length (String.String _ b))%nat with false
       by (symmetry; apply Nat.eqb_neq; simpl; lia));
    eexists _, _; (split; [reflexivity|]);
    unfold INT_MAX, INT_MIN in *; simpl;
    (repeat split; try lia);
    destruct (Z.eqb_spec (Z.max (-2147483648) (Z.min 2147483647 m)) m); simpl; lia.
Qed.


(** X4.  On a stream that starts with a digit, [ReadNumber] consumes the
    whole run of digits and returns their decimal value, or [INT_MAX]
    where the value is larger; only then is the stream left failed.  The
    number of the token is never negative and never above [INT_MAX]. *)
Theorem X4_ReadNumber_clamps (c : ascii) (b : string) :
  isdigit c = true ->
  exists value line',
    details.ReadNumber (putback c (stream.open b)) = (token_type.Number value, line') /\
    value = Z.min INT_MAX (fst (digits 0 (String.String c b))) /\
    0 <= value <= INT_MAX /\
    buf line' = snd (digits 0 (String.String c b)) /\
    failbit line' = (INT_MAX <? fst (digits 0 (String.String c b))).
Proof. apply ReadNumber_value. Qed.

Lemma X4_ReadNumber_clamps_witness :
  exists value line',
    details.ReadNumber (putback "4" (stream.open "2 + x")) = (token_type.Number value, line') /\
    value = Z.min INT_MAX (fst (digits 0 "42 + x")) /\
    0 <= value <= INT_MAX /\
    buf line' = snd (digits 0 "42 + x") /\
    failbit line' = (INT_MAX <? fst (digits 0 "42 + x")).
Proof. apply (X4_ReadNumber_clamps "4" "2 + x"). reflexivity. Defined.

(** *** The tokens of [ReadToken] *)

Lemma alpha_not_digit c :
  isalpha c || Ascii.eqb c underscore = true -> isdigit c = false.
Proof.
  intros H. apply orb_true_iff in H as [H|H].
  - unfold isalpha, isdigit, in_range in *.
    destruct (48 <=? nat_of_ascii c)%nat eqn:E1; [|reflexivity].
    destruct (nat_of_ascii c <=? 57)%nat eqn:E2; [|reflexivity].
    apply Nat.leb_le in E2. exfalso.
    apply orb_true_iff in H as [H|H]; apply andb_true_iff in H as [H1 _];
      apply Nat.leb_le in H1; lia.
  - apply Ascii.eqb_eq in H. subst c. reflexivity.
Qed.

Lemma ReadKeyword_well_formed c literal :
  isdigit c = false ->
  all_chars ident_char (String.String c literal) = true ->
  well_formed (details.ReadKeyword (String.String c literal)).
Proof.
  intros Hc Hall. unfold details.ReadKeyword.
  repeat match goal with
         | |- context [String.eqb ?a ?b] => destruct (String.eqb a b) eqn:?
         end; try exact I.
  repeat split; eauto.
  unfold is_keyword, keywords. cbn [existsb].
  repeat match goal with
         | H : String.eqb _ _ = false |- _ => rewrite H; clear H
         end.
  reflexivity.
Qed.

Lemma ReadCompareOperator_well_formed c : well_formed (details.ReadCompareOperator c).
Proof.
  unfold details.ReadCompareOperator.
  repeat match goal with
         | |- context [Ascii.eqb ?a ?b] => destruct (Ascii.eqb a b)
         end; exact I.
Qed.

Lemma ReadToken_from_well_formed lx c rest t lx' :
  ReadToken_from lx c (stream.open rest) = Some (t, lx') ->
  well_formed t /\ from_line t.
Proof.
  unfold ReadToken_from.
  destruct (Ascii.eqb c newline).
  { inversion 1; subst. repeat split. discriminate. }
  destruct (SkipSpaces (S (String.length (buf (stream.open rest)))) c (stream.open rest))
    as [[c' line2]|] eqn:ES; [|discriminate].
  apply SkipSpaces_open in ES as (b' & -> & _ & Hspace).
  destruct (Ascii.eqb c' hash) eqn:Hhash.
  { inversion 1; subst. repeat split. discriminate. }
  assert (Hpeek : exists next line3,
            (if details.IsSpecialChar c' then peek (stream.open b')
             else (None, stream.open b')) = (next, line3) /\
            buf line3 = b' /\ failbit line3 = false).
  { destruct (details.IsSpecialChar c').
    - destruct (peek (stream.open b')) as [next line3] eqn:P.
      apply peek_open in P. eauto.
    - eexists _, _. split; [reflexivity|]. auto. }
  destruct Hpeek as (next & line3 & -> & B3 & F3).
  destruct (details.IsSpecialChar c' && bool_decide (next = Some equals_sign)).
  { inversion 1; subst.
    split; [apply ReadCompareOperator_well_formed | apply ReadCompareOperator_from_line]. }
  destruct (isalpha c' || Ascii.eqb c' underscore) eqn:Halpha.
  { rewrite (putback_buf _ _ F3), B3.
    unfold details.ReadLiteral. simpl buf. simpl String.length.
    rewrite ReadLiteral_loop_step by (destruct (isdigit c'); simpl; auto).
    destruct (details.ReadLiteral_loop _ _ _) as [[literal line4]|] eqn:EL; [|discriminate].
    inversion 1; subst.
    apply ReadLiteral_loop_split in EL as (taken & -> & _ & Hall & _).
    unfold details.push_back. rewrite append_assoc.
    change ("" ++ (String.String c' "" ++ taken))%string with (String.String c' taken).
    split; [|apply ReadKeyword_from_line].
    apply ReadKeyword_well_formed; [apply alpha_not_digit; exact Halpha|].
    simpl. rewrite Hall, andb_true_r. unfold ident_char.
    rewrite <- orb_assoc, Halpha. apply orb_true_r. }
  destruct (Ascii.eqb c' double_quote || Ascii.eqb c' apostrophe) eqn:Hquote.
  { destruct (details.ReadString line3 c') as [[token line4]|] eqn:ER; [|discriminate].
    inversion 1; subst. unfold details.ReadString in ER.
    destruct (details.ReadString_loop _ _ _ _) as [[payload line5]|]; [|discriminate].
    inversion ER; subst. repeat split. discriminate. }
  destruct (isdigit c') eqn:Hdigit.
  { rewrite (putback_buf _ _ F3), B3.
    destruct (ReadNumber_value c' b' Hdigit) as (value & line4 & E & _ & Hrange & _).
    unfold putback in E; simpl in E. unfold stream.open. rewrite E.
    inversion 1; subst. repeat split; try lia. discriminate. }
  inversion 1; subst. apply orb_false_iff in Halpha as [Ha Hu], Hquote as [Hq1 Hq2].
  repeat split; auto; try discriminate.
  unfold ident_char. rewrite Hdigit, Ha, Hu. reflexivity.
Qed.


Lemma ReadToken_well_formed fuel : forall lx t lx',
  ReadToken fuel lx = Some (t, lx') -> well_formed t.
Proof.
  induction fuel as [|fuel IH]; intros lx t lx'; [discriminate|]. simpl.
  destruct (new_indent (context_ lx) >? indent (context_ lx)); [inversion 1; exact I|].
  destruct (new_indent (context_ lx) <? indent (context_ lx)); [inversion 1; exact I|].
  destruct (get (line_ lx)) as [[c|] line1] eqn:G.
  - apply get_Some in G as [_ ->]. intros H.
    apply ReadToken_from_well_formed in H as [H _]. exact H.
  - destruct (eof (input_ lx)).
    + destruct (indent (context_ lx) >? 0); inversion 1; exact I.
    + destruct (ReadNextLine (input_ lx) (context_ lx)) as [[[line input'] ctx']|];
        [|discriminate].
      apply IH.
Qed.

(** X5.  Every token that [NextToken] returns is well formed: an [Id]
    is not one of the twelve keywords, is made of letters, digits and
    underscores and does not start with a digit; a [Number] lies between
    0 and [INT_MAX]; a [Char] is never a space, a [#], a quote, or a
    character that an identifier or a number could start with. *)
Theorem X5_tokens_are_well_formed (lx : Lexer) (t : Token) (lx' : Lexer) :
  NextToken lx = Some (t, lx') -> well_formed t /\ CurrentToken lx' = t.
Proof.
  unfold NextToken.
  destruct (ReadToken ReadToken_depth lx) as [[t0 lx0]|] eqn:E; [|discriminate].
  inversion 1; subst. split; [|reflexivity].
  eapply ReadToken_well_formed; eauto.
Qed.

Lemma X5_tokens_are_well_formed_witness :
  exists lx', well_formed (token_type.Id "x1") /\ CurrentToken lx' = token_type.Id "x1".
Proof.
  eexists. apply (X5_tokens_are_well_formed at_identifier). vm_compute. reflexivity.
Defined.

(** *** After [Eof] *)

Lemma ReadToken_Eof_finished fuel : forall lx lx',
  ReadToken fuel lx = Some (token_type.Eof, lx') ->
  finished lx' /\ current_token_ lx' = current_token_ lx.
Proof.
  induction fuel as [|fuel IH]; intros lx lx'; [discriminate|]. simpl.
  destruct (new_indent (context_ lx) >? indent (context_ lx)) eqn:Hgt; [discriminate|].
  destruct (new_indent (context_ lx) <? indent (context_ lx)) eqn:Hlt; [discriminate|].
  destruct (get (line_ lx)) as [[c|] line1] eqn:G.
  - apply get_Some in G as [_ ->]. intros H.
    apply ReadToken_from_well_formed in H as [_ [_ H]]. congruence.
  - destruct (eof (input_ lx)) eqn:Heof.
    + destruct (indent (context_ lx) >? 0) eqn:Hpos; [discriminate|].
      inversion 1; subst. split; [|reflexivity].
      unfold finished; simpl. repeat split; auto; [lia|].
      eapply get_None_again; eauto.
    + destruct (ReadNextLine (input_ lx) (context_ lx)) as [[[line input'] ctx']|];
        [|discriminate].
      intros H. apply IH in H as [H1 H2]. split; [exact H1|exact H2].
Qed.

Lemma finished_ReadToken m lx :
  finished lx -> ReadToken (S m) lx = Some (token_type.Eof, lx).
Proof.
  intros (Hind & Hpos & Heof & Hget). simpl.
  rewrite Hind, Z.gtb_ltb, Z.ltb_irrefl, Hget. unfold eof. rewrite Heof.
  rewrite <- Hind at 1. rewrite Hind, Hpos.
  destruct lx; reflexivity.
Qed.

(** X1.  Once [NextToken] has returned [Eof], every later call returns
    [Eof] again and leaves the lexer as it is. *)
Theorem X1_Eof_is_final (lx lx' : Lexer) (n : nat) :
  NextToken lx = Some (token_type.Eof, lx') ->
  NextToken lx' = Some (token_type.Eof, lx') /\
  advance n lx' = Some lx' /\
  CurrentToken lx' = token_type.Eof.
Proof.
  unfold NextToken.
  destruct (ReadToken ReadToken_depth lx) as [[t0 lx0]|] eqn:E; [|discriminate].
  inversion 1; subst. apply ReadToken_Eof_finished in E as [Hfin _].
  set (lx1 := {| input_ := input_ lx0; line_ := line_ lx0; context_ := context_ lx0;
                 current_token_ := token_type.Eof |}).
  assert (Hfin1 : finished lx1) by exact Hfin.
  assert (Hnext : match ReadToken ReadToken_depth lx1 with
                  | Some (token, l) =>
                      Some (token, {| input_ := input_ l; line_ := line_ l;
                                      context_ := context_ l; current_token_ := token |})
                  | None => None
                  end = Some (token_type.Eof, lx1)).
  { unfold ReadToken_depth. rewrite (finished_ReadToken 1 lx1 Hfin1). reflexivity. }
  split; [exact Hnext|]. split; [|reflexivity].
  induction n as [|n IHn]; [reflexivity|].
  simpl. unfold NextToken. rewrite Hnext. exact IHn.
Qed.

Lemma X1_Eof_is_final_witness :
  exists lx',
    NextToken lx' = Some (token_type.Eof, lx') /\
    advance 3 lx' = Some lx' /\
    CurrentToken lx' = token_type.Eof.
Proof.
  eexists. apply (X1_Eof_is_final at_end_of_input). vm_compute. reflexivity.
Defined.

(** *** Every call returns *)

Lemma new_Lexer_Inv text :
  exists lx, new_Lexer (stream.open text) = Some lx /\ Inv lx.
Proof.
  unfold new_Lexer.
  destruct (ReadNextLine_ok (stream.open text) initial_context)
    as (line & input' & ctx & -> & Hin & Hind & Hcases); [discriminate|].
  set (lx0 := {| input_ := input'; line_ := line; context_ := ctx;
                 current_token_ := token_type.Eof |}).
  assert (HI0 : Inv lx0).
  { constructor; simpl; auto.
    - rewrite Hind. simpl. lia.
    - destruct Hcases as [(_ & -> & _) | (l & _ & H0 & _)]; simpl; lia.
    - destruct Hcases as [(-> & _) | (l & -> & _)]; simpl;
        [reflexivity | apply line_ok_app]. }
  destruct (NextToken_total lx0 HI0) as (t & lx1 & -> & [HI1 _ _ _ _] & _).
  exists lx1. split; [reflexivity | exact HI1].
Qed.

Lemma advance_Inv n : forall lx,
  Inv lx -> exists lx', advance n lx = Some lx' /\ Inv lx'.
Proof.
  induction n as [|n IH]; intros lx HI; [exists lx; split; [reflexivity | exact HI]|].
  simpl. destruct (NextToken_total lx HI) as (t & lx1 & -> & [HI1 _ _ _ _] & _).
  apply IH. exact HI1.
Qed.

(** X2.  Whatever the input, the constructor and any number of calls of
    [NextToken] after it return: no loop of the lexer runs forever.  The
    indentation counters of the lexer they leave are not negative. *)
Theorem X2_lexer_always_returns (text : string) (n : nat) :
  exists lx0 lx,
    new_Lexer (stream.open text) = Some lx0 /\
    advance n lx0 = Some lx /\
    0 <= indent (context_ lx) /\ 0 <= new_indent (context_ lx).
Proof.
  destruct (new_Lexer_Inv text) as (lx0 & E0 & HI0).
  destruct (advance_Inv n lx0 HI0) as (lx & E & [Hi Hn _ _]).
  exists lx0, lx. auto.
Qed.


(** *** Comparison operators, comments and trailing spaces *)

Lemma special_cases c :
  details.IsSpecialChar c = true ->
  c = "="%char \/ c = "!"%char \/ c = "<"%char \/ c = ">"%char.
Proof.
  unfold details.IsSpecialChar. intros H.
  repeat (apply orb_true_iff in H as [H|H]); apply Ascii.eqb_eq in H; auto.
Qed.

Lemma ReadToken_at_line n lx c rest :
  new_indent (context_ lx) = indent (context_ lx) ->
  line_ lx = stream.open (String.String c rest) ->
  ReadToken (S n) lx = ReadToken_from lx c (stream.open rest).
Proof.
  intros Hind Hline. cbn [ReadToken].
  rewrite Hind, Z.gtb_ltb, Z.ltb_irrefl, Hline, get_open. reflexivity.
Qed.

(** X6.  [=], [!], [<] and [>] followed by [=] are read as one token,
    [Eq], [NotEq], [LessOrEq] and [GreaterOrEq], and both characters are
    consumed; followed by anything else they are a [Char], and the
    character after them is still to be read. *)
Theorem X6_comparison_operators (n : nat) (lx : Lexer) (c d : ascii) (rest : string) :
  details.IsSpecialChar c = true ->
  new_indent (context_ lx) = indent (context_ lx) ->
  line_ lx = stream.open (String.String c (String.String d rest)) ->
  (d = equals_sign ->
   ReadToken (S n) lx =
   Some (details.ReadCompareOperator c, with_line lx (stream.open rest))) /\
  (d <> equals_sign ->
   ReadToken (S n) lx =
   Some (token_type.Char c, with_line lx (stream.open (String.String d rest)))) /\
  details.ReadCompareOperator "=" = token_type.Eq /\
  details.ReadCompareOperator "!" = token_type.NotEq /\
  details.ReadCompareOperator "<" = token_type.LessOrEq /\
  details.ReadCompareOperator ">" = token_type.GreaterOrEq.
Proof.
  intros Hc Hind Hline.
  rewrite (ReadToken_at_line n lx c _ Hind Hline).
  split; [|split; [|repeat split]].
  - intros ->.
    destruct (special_cases c Hc) as [-> | [-> | [-> | ->]]]; reflexivity.
  - intros Hd.
    assert (Hdec : bool_decide (Some d = Some equals_sign) = false).
    { apply bool_decide_eq_false. congruence. }
    destruct (special_cases c Hc) as [-> | [-> | [-> | ->]]];
      unfold ReadToken_from; cbn -[bool_decide]; rewrite Hdec; reflexivity.
Qed.

Lemma X6_comparison_operators_witness :
  ReadToken 1 (at_line ("<= 2" ++ String.String newline "")) =
    Some (token_type.LessOrEq,
          with_line (at_line ("<= 2" ++ String.String newline ""))
            (stream.open (" 2" ++ String.String newline ""))) /\
  ReadToken 1 (at_line ("< 2" ++ String.String newline "")) =
    Some (token_type.Char "<",
          with_line (at_line ("< 2" ++ String.String newline ""))
            (stream.open (" 2" ++ String.String newline ""))).
Proof.
  split.
  - apply (proj1 (X6_comparison_operators 0 (at_line ("<= 2" ++ String.String newline ""))
                    "<" "=" (" 2" ++ String.String newline "") eq_refl eq_refl eq_refl)).
    reflexivity.
  - apply (proj1 (proj2 (X6_comparison_operators 0
                    (at_line ("< 2" ++ String.String newline ""))
                    "<" " " ("2" ++ String.String newline "") eq_refl eq_refl eq_refl))).
    discriminate.
Defined.

Lemma after_delim_app d (a rest : string) :
  has_char d a = false -> after_delim d (a ++ String.String d rest) = Some rest.
Proof.
  induction a as [|c a IH]; intros H.
  - simpl. rewrite Ascii.eqb_refl. reflexivity.
  - rewrite append_cons. simpl in H |- *. apply orb_false_iff in H as [H1 H2].
    rewrite H1. apply IH. exact H2.
Qed.

Lemma before_delim_app d (a rest : string) :
  has_char d a = false -> before_delim d (a ++ String.String d rest) = a.
Proof.
  induction a as [|c a IH]; intros H.
  - simpl. rewrite Ascii.eqb_refl. reflexivity.
  - rewrite append_cons. simpl in H |- *. apply orb_false_iff in H as [H1 H2].
    rewrite H1, IH by exact H2. reflexivity.
Qed.

(** X7.  A [#] where a token would start makes the rest of the line a
    comment: [ReadToken] returns [Newline] and discards the line through
    its newline. *)
Theorem X7_comment_ends_the_line (n : nat) (lx : Lexer) (comment rest : string) :
  has_char newline comment = false ->
  new_indent (context_ lx) = indent (context_ lx) ->
  line_ lx = stream.open (String.String hash (comment ++ String.String newline rest)) ->
  ReadToken (S n) lx = Some (token_type.Newline, with_line lx (stream.open rest)).
Proof.
  intros Hcomment Hind Hline.
  rewrite (ReadToken_at_line n lx hash _ Hind Hline).
  unfold ReadToken_from. cbn [SkipSpaces]. simpl Ascii.eqb. cbv iota.
  unfold ignore. simpl good. cbv iota. simpl buf.
  rewrite after_delim_app by exact Hcomment. reflexivity.
Qed.

Lemma X7_comment_ends_the_line_witness :
  ReadToken 1 (at_line ("# note" ++ String.String newline "")) =
  Some (token_type.Newline,
        with_line (at_line ("# note" ++ String.String newline "")) (stream.open "")).
Proof.
  apply (X7_comment_ends_the_line 0 (at_line ("# note" ++ String.String newline ""))
           " note" ""); reflexivity.
Defined.

Lemma SkipSpaces_spaces k : forall fuel rest c,
  Ascii.eqb c space = false ->
  (k < fuel)%nat ->
  SkipSpaces fuel space (stream.open (spaces k ++ String.String c rest)) =
  Some (c, stream.open rest).
Proof.
  induction k as [|k IH]; intros fuel rest c Hc Hfuel;
    (destruct fuel as [|fuel]; [lia|]); simpl.
  - destruct fuel; simpl; rewrite Hc; reflexivity.
  - apply IH; [exact Hc | lia].
Qed.

Lemma length_spaces k : String.length (spaces k) = k.
Proof. induction k; simpl; congruence. Qed.

(** X8.  Spaces between the last token of a line and its end make
    [ReadToken] return the [Char] of the newline where it would otherwise
    return [Newline]. *)
Theorem X8_trailing_spaces (n k : nat) (lx : Lexer) :
  new_indent (context_ lx) = indent (context_ lx) ->
  line_ lx = stream.open (spaces (S k) ++ String.String newline "") ->
  ReadToken (S n) lx = Some (token_type.Char newline, with_line lx (stream.open "")).
Proof.
  intros Hind Hline. simpl spaces in Hline. rewrite append_cons in Hline.
  rewrite (ReadToken_at_line n lx space _ Hind Hline).
  unfold ReadToken_from. simpl Ascii.eqb. cbv iota.
  rewrite SkipSpaces_spaces; [reflexivity | reflexivity|].
  simpl. rewrite length_append, length_spaces. simpl. lia.
Qed.

Lemma X8_trailing_spaces_witness :
  ReadToken 1 (at_line ("  " ++ String.String newline "")) =
  Some (token_type.Char newline,
        with_line (at_line ("  " ++ String.String newline "")) (stream.open "")).
Proof.
  apply (X8_trailing_spaces 0 1 (at_line ("  " ++ String.String newline "")));
    reflexivity.
Defined.


(** *** Lines that [ReadNextLine] passes over *)

Lemma ReadNextLine_loop_mono n : forall input ctx r,
  ReadNextLine_loop n input ctx = Some r ->
  forall m, (n <= m)%nat -> ReadNextLine_loop m input ctx = Some r.
Proof.
  induction n as [|n IH]; intros input ctx r E m Hm; [discriminate|].
  destruct m as [|m]; [lia|]. simpl in E |- *.
  destruct (getline input) as [[line|] input1]; [|exact E].
  destruct (find_first_not_of_space line) as [pos|].
  - destruct (negb (Ascii.eqb (char_at line pos) hash)); [exact E|].
    apply IH; [exact E | lia].
  - apply IH; [exact E | lia].
Qed.

Lemma getline_first_line (line rest : string) :
  has_char newline line = false ->
  getline (stream.open (line ++ String.String newline rest)) =
  (Some line, stream.open rest).
Proof.
  intros H. unfold getline. simpl good. cbv iota. simpl buf.
  rewrite after_delim_app, before_delim_app by exact H.
  destruct line; reflexivity.
Qed.

(** X9.  An empty line, a line of spaces and a line whose first
    character after its spaces is [#] are passed over: [ReadNextLine]
    gives what it gives without the line, for the indentation too, and so
    the lexer returns the same tokens with and without such a first
    line. *)
Theorem X9_blank_and_comment_lines (line rest : string) (ctx : Context) (fuel : nat) :
  has_char newline line = false ->
  skipped_line line = true ->
  ReadNextLine (stream.open (line ++ String.String newline rest)) ctx =
  ReadNextLine (stream.open rest) ctx /\
  Tokenize fuel (line ++ String.String newline rest) = Tokenize fuel rest.
Proof.
  intros Hline Hskip.
  assert (E : forall ctx,
             ReadNextLine (stream.open (line ++ String.String newline rest)) ctx =
             ReadNextLine (stream.open rest) ctx).
  { intros ctx0.
    destruct (ReadNextLine_ok (stream.open rest) ctx0) as (l & i & c & Er & _);
      [discriminate|].
    rewrite Er. unfold ReadNextLine in *. simpl buf in *.
    cbn [ReadNextLine_loop]. rewrite getline_first_line by exact Hline.
    assert (Hgo : ReadNextLine_loop
                    (String.length (line ++ String.String newline rest))
                    (stream.open rest) ctx0 = Some (l, i, c)).
    { apply (ReadNextLine_loop_mono _ _ _ _ Er).
      rewrite length_append. simpl. lia. }
    unfold skipped_line in Hskip.
    destruct (find_first_not_of_space line) as [pos|]; [|exact Hgo].
    rewrite Hskip. exact Hgo. }
  split; [apply E|].
  unfold Tokenize, new_Lexer. rewrite E. reflexivity.
Qed.

Lemma X9_blank_and_comment_lines_witness :
  ReadNextLine (stream.open ("  # note" ++ String.String newline "x")) initial_context =
  ReadNextLine (stream.open "x") initial_context /\
  Tokenize 3 ("  # note" ++ String.String newline "x") = Tokenize 3 "x".
Proof.
  apply (X9_blank_and_comment_lines "  # note" "x" initial_context 3); reflexivity.
Defined.

(** *** Comparing and printing tokens *)

(** X10.  [operator==] on tokens holds exactly for equal tokens -- the
    same alternative and, where there is one, the same payload -- and
    [operator!=] exactly for different ones. *)
Theorem X10_token_equality (lhs rhs : Token) :
  (Token_eq lhs rhs = true <-> lhs = rhs) /\
  (Token_ne lhs rhs = true <-> lhs <> rhs).
Proof.
  assert (H : Token_eq lhs rhs = true <-> lhs = rhs).
  { destruct lhs, rhs; unfold Token_eq; simpl;
      try (split; [discriminate | discriminate]);
      try (split; reflexivity).
    - rewrite Z.eqb_eq. split; congruence.
    - rewrite String.eqb_eq. split; congruence.
    - rewrite Ascii.eqb_eq. split; congruence.
    - rewrite String.eqb_eq. split; congruence. }
  split; [exact H|].
  unfold Token_ne. rewrite negb_true_iff, <- H.
  destruct (Token_eq lhs rhs); split; congruence.
Qed.

Lemma X10_token_equality_witness :
  token_type.Id "x" <> token_type.String "x".
Proof.
  apply (proj1 (proj2 (X10_token_equality (token_type.Id "x") (token_type.String "x")))).
  reflexivity.
Defined.


Lemma append_inj_r (a b c : string) : (a ++ c)%string = (b ++ c)%string -> a = b.
Proof.
  revert b. induction a as [|x a IH]; intros [|y b] H.
  - reflexivity.
  - apply (f_equal String.length) in H. rewrite !length_append in H.
    simpl in H. lia.
  - apply (f_equal String.length) in H. rewrite !length_append in H.
    simpl in H. lia.
  - rewrite !append_cons in H. inversion H; subst. f_equal. apply IH. assumption.
Qed.

Lemma braces_inj type (p p' : string) : braces type p = braces type p' -> p = p'.
Proof.
  unfold braces. intros H.
  apply String.app_inj in H. apply String.app_inj in H.
  eapply append_inj_r. exact H.
Qed.

Lemma show_int_inj a b : show_int a = show_int b -> a = b.
Proof.
  unfold show_int. intros H.
  pose proof (NilEmpty.isi (Z.to_int a)) as Ha.
  rewrite H, NilEmpty.isi in Ha. inversion Ha as [E].
  rewrite <- (DecimalZ.of_to a), <- (DecimalZ.of_to b), E. reflexivity.
Qed.

(** X11.  [operator<<] writes different texts for different tokens, and
    never the text it keeps for a token it does not know. *)
Theorem X11_token_printing (t1 t2 : Token) :
  (Token_print t1 = Token_print t2 -> t1 = t2) /\
  Token_print t1 <> "Unknown token :("%string.
Proof.
  split.
  - intros H.
    destruct t1, t2;
      try reflexivity;
      try (apply (f_equal prefix3) in H; vm_compute in H; discriminate H);
      try (vm_compute in H; discriminate H).
    + apply braces_inj, show_int_inj in H. congruence.
    + apply braces_inj in H. congruence.
    + apply braces_inj in H. congruence.
    + apply braces_inj in H. congruence.
  - intros H. destruct t1;
      try (apply (f_equal prefix3) in H; vm_compute in H; discriminate H);
      try (vm_compute in H; discriminate H).
Qed.

Lemma X11_token_printing_witness :
  token_type.Number (2 + 3) = token_type.Number 5.
Proof.
  apply (proj1 (X11_token_printing (token_type.Number (2 + 3)) (token_type.Number 5))).
  reflexivity.
Defined.


(** *** [ReadLine] *)

Lemma length_newlines k : String.length (newlines k) = k.
Proof. induction k as [|k IH]; simpl; congruence. Qed.

Lemma ReadLine_loop_newlines k : forall fuel b,
  ReadLine_loop (k + fuel) (stream.open (newlines k ++ b)) = ReadLine_loop fuel (stream.open b).
Proof.
  induction k as [|k IH]; intros fuel b; [reflexivity|].
  cbn [newlines Nat.add]. rewrite append_cons. cbn [ReadLine_loop].
  pose proof (getline_first_line "" (newlines k ++ b) eq_refl) as G.
  change ("" ++ String.String newline (newlines k ++ b))%string
    with (String.String newline (newlines k ++ b)) in G.
  rewrite G. apply IH.
Qed.

Lemma after_delim_absent d b : has_char d b = false -> after_delim d b = None.
Proof.
  induction b as [|c b IH]; [reflexivity|]. simpl.
  destruct (Ascii.eqb c d); [discriminate|]. exact IH.
Qed.

Lemma ReadLine_newlines k b :
  ReadLine (stream.open (newlines k ++ b)) = ReadLine_loop (S (String.length b)) (stream.open b).
Proof.
  unfold ReadLine. simpl buf. rewrite length_append, length_newlines.
  replace (S (k + String.length b)) with (k + S (String.length b))%nat by lia.
  apply ReadLine_loop_newlines.
Qed.

(** X12.  [ReadLine] passes over the empty lines in front and returns
    the first line that is not empty, without its newline: the input is
    left after that newline, or at its end when the line is the last and
    no newline ends it.  Where the input holds nothing but newlines it
    returns the empty line and the input has failed. *)
Theorem X12_ReadLine (k : nat) (c : ascii) (line rest : string) :
  has_char newline (String.String c line) = false ->
  ReadLine (stream.open (newlines k ++ String.String c line ++ String.String newline rest)) =
    Some (String.String c line, stream.open rest) /\
  ReadLine (stream.open (newlines k ++ String.String c line)) =
    Some (String.String c line, at_end) /\
  ReadLine (stream.open (newlines k)) = Some (EmptyString, exhausted).
Proof.
  intros Hline. split; [|split].
  - rewrite ReadLine_newlines. cbn [ReadLine_loop].
    rewrite getline_first_line by exact Hline. reflexivity.
  - rewrite ReadLine_newlines. cbn [ReadLine_loop].
    unfold getline. cbn [good stream.open eofbit failbit buf negb orb].
    rewrite (after_delim_absent _ _ Hline). reflexivity.
  - rewrite <- (append_nil_r (newlines k)). rewrite ReadLine_newlines. reflexivity.
Qed.

Lemma X12_ReadLine_witness :
  ReadLine (stream.open (newlines 2 ++ "ab" ++ String.String newline "cd")) =
    Some ("ab"%string, stream.open "cd") /\
  ReadLine (stream.open (newlines 2 ++ "ab")) = Some ("ab"%string, at_end) /\
  ReadLine (stream.open (newlines 2)) = Some (EmptyString, exhausted).
Proof.
  apply (X12_ReadLine 2 "a" "b" "cd"). reflexivity.
Defined.

End lexer_more_proofs.

Module evaluator_more_proofs.
Import mython evaluator_facts evaluator_proofs evaluator_more.

(** *** Method lookup *)

Lemma find_app_first {A : Type} (f : A -> bool) (l1 l2 : list A) :
  List.find f (l1 ++ l2) =
  match List.find f l1 with
  | Some x => Some x
  | None => List.find f l2
  end.
Proof.
  induction l1 as [|x l1 IH]; simpl; [reflexivity|].
  destruct (f x); [reflexivity | exact IH].
Qed.

Lemma GetMethod_chain_methods : forall c method,
  GetMethod c method = List.find (named method) (chain_methods c).
Proof.
  fix IH 1. intros [cname methods [p|]] method; simpl.
  - rewrite find_app_first. fold (named method).
    destruct (List.find (named method) methods); [reflexivity | apply IH].
  - rewrite find_app_first. fold (named method).
    destruct (List.find (named method) methods); reflexivity.
Qed.

(** X13.  [Class::GetMethod] returns the first method of the requested
    name among the methods of the class followed by those of its
    ancestors, nearest first: a method of the class hides the methods of
    that name of its ancestors.  It returns nothing exactly when no class
    of the chain has a method of that name. *)
Theorem X13_GetMethod_first_in_chain (c : Class) (method : string) :
  GetMethod c method = List.find (named method) (chain_methods c) /\
  (forall m, GetMethod c method = Some m -> name m = method /\ In m (chain_methods c)) /\
  (GetMethod c method = None <->
   forall m, In m (chain_methods c) -> name m <> method).
Proof.
  rewrite GetMethod_chain_methods. split; [reflexivity|]. split.
  - intros m H. apply find_some in H as [Hin Hname].
    split; [apply String.eqb_eq; exact Hname | exact Hin].
  - split.
    + intros H m Hin Hname.
      pose proof (find_none _ _ H m Hin) as Hf.
      unfold named in Hf. rewrite Hname, String.eqb_refl in Hf. discriminate.
    + intros H. destruct (List.find (named method) (chain_methods c)) as [m|] eqn:E;
        [|reflexivity].
      apply find_some in E as [Hin Hname]. apply String.eqb_eq in Hname.
      exfalso. exact (H m Hin Hname).
Qed.

Lemma X13_GetMethod_first_in_chain_witness :
  name (mk_Method "f" ["a"]%string (return_ ["a"]%string)) = "f"%string /\
  In (mk_Method "f" ["a"]%string (return_ ["a"]%string)) (chain_methods Child).
Proof.
  apply (proj1 (proj2 (X13_GetMethod_first_in_chain Child "f"))).
  reflexivity.
Defined.



(** *** The closure of a call *)

Lemma bind_params_other params : forall (closure : Closure) actual_args x,
  x ∉ params -> bind_params closure params actual_args !! x = closure !! x.
Proof.
  induction params as [|p params IH]; intros closure actual_args x Hx; [reflexivity|].
  destruct actual_args as [|arg actual_args]; [reflexivity|]. simpl.
  apply not_elem_of_cons in Hx as [Hne Hx].
  rewrite IH by exact Hx. apply lookup_insert_ne. congruence.
Qed.

Lemma bind_params_nth params : forall (closure : Closure) actual_args i p value,
  NoDup params ->
  params !! i = Some p -> actual_args !! i = Some value ->
  bind_params closure params actual_args !! p = Some value.
Proof.
  induction params as [|q params IH]; intros closure actual_args i p value Hnd Hp Hv;
    [discriminate|].
  destruct actual_args as [|arg actual_args]; [destruct i; discriminate|].
  apply NoDup_cons in Hnd as [Hq Hnd]. simpl.
  destruct i as [|i]; simpl in Hp, Hv.
  - inversion Hp; inversion Hv; subst.
    rewrite bind_params_other by exact Hq. apply lookup_insert_eq.
  - eapply IH; eauto.
Qed.

(** X14.  A call executes the body of the method in a closure of its
    own: [self] is the receiving instance unless a parameter of the
    method is called [self], every parameter holds the argument at its
    position when the parameter names differ from one another, and no
    other name -- none of the caller -- is defined. *)
Theorem X14_Call_closure
    (Execute : Statement -> M Scope ObjectHolder)
    (this : nat) (method : string) (actual_args : list ObjectHolder)
    (w : World) (self : InstanceData) (m : Method) :
  heap w !! this = Some self ->
  GetMethod (cls_ self) method = Some m ->
  length (formal_params m) = length actual_args ->
  exists closure : Closure,
    Call Execute this method actual_args w =
      (let '(r, (_, w')) := Execute (body m) (closure, w) in (r, w')) /\
    ("self"%string ∉ formal_params m ->
     closure !! "self"%string = Some (Some (ClassInstance this))) /\
    (NoDup (formal_params m) ->
     forall i p value,
       formal_params m !! i = Some p -> actual_args !! i = Some value ->
       closure !! p = Some value) /\
    (forall x, x <> "self"%string -> x ∉ formal_params m -> closure !! x = None).
Proof.
  intros Hself Hm Hlen. exists (method_closure this m actual_args).
  split; [|split; [|split]].
  - unfold Call, HasMethod. rewrite Hself, Hm, Hlen, Nat.eqb_refl. reflexivity.
  - intros Hno. unfold method_closure. rewrite bind_params_other by exact Hno.
    apply lookup_insert_eq.
  - intros Hnd i p value Hp Hv. unfold method_closure. eapply bind_params_nth; eauto.
  - intros x Hx Hno. unfold method_closure. rewrite bind_params_other by exact Hno.
    rewrite lookup_insert_ne by congruence. apply lookup_empty.
Qed.

Lemma X14_Call_closure_witness :
  exists closure : Closure,
    Call (Execute sample_platform 3) 0 "f" [Some (Number 5)] a_Child =
      (let '(r, (_, w')) :=
         Execute sample_platform 3 (return_ ["a"]%string) (closure, a_Child) in (r, w')) /\
    ("self"%string ∉ ["a"%string] ->
     closure !! "self"%string = Some (Some (ClassInstance 0))) /\
    (NoDup ["a"%string] ->
     forall i p value,
       ["a"%string] !! i = Some p -> [Some (Number 5)] !! i = Some value ->
       closure !! p = Some value) /\
    (forall x, x <> "self"%string -> x ∉ ["a"%string] -> closure !! x = None).
Proof.
  apply (X14_Call_closure (Execute sample_platform 3) 0 "f" [Some (Number 5)] a_Child
           (new_instance Child) (mk_Method "f" ["a"]%string (return_ ["a"]%string)));
    reflexivity.
Defined.

(** *** [Return], [MethodBody] and [Compound] *)

(** X15.  [MethodBody::Execute] turns the [ReturnException] of its body
    into the value it carries, a body that ends without [return] into the
    empty holder, and lets a runtime error through; it never throws a
    [ReturnException] itself.  The body [return e] gives the value of
    [e]. *)
Theorem X15_MethodBody_catches_return platform fuel body_ s :
  (forall result s',
     Execute platform fuel body_ s = (Throw (ReturnException result), s') ->
     Execute platform (S fuel) (MethodBody body_) s = (Value result, s')) /\
  (forall value s',
     Execute platform fuel body_ s = (Value value, s') ->
     Execute platform (S fuel) (MethodBody body_) s = (Value None, s')) /\
  (forall what s',
     Execute platform fuel body_ s = (Throw (runtime_error what), s') ->
     Execute platform (S fuel) (MethodBody body_) s = (Throw (runtime_error what), s')) /\
  (forall result,
     fst (Execute platform (S fuel) (MethodBody body_) s) <> Throw (ReturnException result)) /\
  (forall value s',
     Execute platform fuel body_ s = (Value value, s') ->
     Execute platform (S (S fuel)) (MethodBody (Return body_)) s = (Value value, s')).
Proof.
  rewrite Execute_S. cbn [Execute_node]. unfold MethodBody_Execute.
  split; [|split; [|split; [|split]]].
  - intros result s' ->. reflexivity.
  - intros value s' ->. reflexivity.
  - intros what s' ->. reflexivity.
  - intros result.
    destruct (Execute platform fuel body_ s) as [[v|[what|r]| |] s']; simpl; discriminate.
  - intros value s' H. rewrite (Execute_S platform (S fuel)). cbn [Execute_node].
    unfold MethodBody_Execute. rewrite Execute_S. cbn [Execute_node].
    rewrite (bind_Value _ _ _ _ _ H). reflexivity.
Qed.

Lemma X15_MethodBody_catches_return_witness :
  Execute sample_platform 3 (MethodBody (Return (VariableValue ["x"]%string)))
    (two_numbers, initial_world) =
  (Value (Some (Number (-7))), (two_numbers, initial_world)).
Proof.
  apply (proj1 (X15_MethodBody_catches_return sample_platform 2
                  (Return (VariableValue ["x"]%string)) (two_numbers, initial_world))).
  vm_compute. reflexivity.
Defined.


Lemma Compound_Execute_app (Execute : Statement -> M Scope ObjectHolder) first : forall rest s,
  Compound_Execute Execute (first ++ rest) s =
  and_then (Compound_Execute Execute first s) (Compound_Execute Execute rest).
Proof.
  induction first as [|statement first IH]; intros rest s; [reflexivity|].
  simpl. unfold bind.
  destruct (Execute statement s) as [[v|e| |] s1]; try reflexivity.
  apply IH.
Qed.

Lemma Compound_Execute_None (Execute : Statement -> M Scope ObjectHolder) statements :
  forall s value s',
  Compound_Execute Execute statements s = (Value value, s') -> value = None.
Proof.
  induction statements as [|statement statements IH]; intros s value s'; simpl.
  - inversion 1; reflexivity.
  - unfold bind. destruct (Execute statement s) as [[v|e| |] s1]; try discriminate.
    apply IH.
Qed.

(** X16.  [Compound::Execute] executes its statements in order, each in
    the state the one before it left: a list of statements followed by
    another does what the first does and then what the second does, and
    where a statement of the first throws, no statement after it is
    executed.  A [Compound] that ends returns the empty holder. *)
Theorem X16_Compound_in_order platform fuel first rest s :
  Execute platform (S fuel) (Compound (first ++ rest)) s =
  and_then (Execute platform (S fuel) (Compound first) s)
           (Execute platform (S fuel) (Compound rest)) /\
  (forall value s',
     Execute platform (S fuel) (Compound first) s = (Value value, s') -> value = None) /\
  (forall e s',
     Execute platform (S fuel) (Compound first) s = (Throw e, s') ->
     Execute platform (S fuel) (Compound (first ++ rest)) s = (Throw e, s')).
Proof.
  rewrite !Execute_S. cbn [Execute_node].
  split; [apply Compound_Execute_app|]. split.
  - intros value s'. apply Compound_Execute_None.
  - intros e s' H. rewrite Compound_Execute_app, H. reflexivity.
Qed.

Lemma X16_Compound_in_order_witness :
  Execute sample_platform 2
    (Compound ([VariableValue ["z"]%string] ++ [Print [VariableValue ["x"]%string]]))
    (two_numbers, initial_world) =
  (Throw (runtime_error "Name z is not defined"), (two_numbers, initial_world)).
Proof.
  apply (proj2 (proj2 (X16_Compound_in_order sample_platform 1
                         [VariableValue ["z"]%string] [Print [VariableValue ["x"]%string]]
                         (two_numbers, initial_world)))).
  vm_compute. reflexivity.
Defined.


(** *** Names and fields *)

Lemma VariableValue_Execute_state ids s r s' :
  VariableValue_Execute ids s = (r, s') -> s' = s.
Proof.
  unfold VariableValue_Execute. destruct ids as [|var ids]; [inversion 1; reflexivity|].
  destruct (GetVarByName (fst s) var); inversion 1; reflexivity.
Qed.

(** X17.  After an assignment, reading the name returns the value that
    was assigned, and changes nothing; the names that the right-hand
    side left are as they were.  Reading a name that the closure does not
    define throws the runtime error "Name ... is not defined". *)
Theorem X17_Assignment_then_read platform fuel fuel' var_ rv_ s value s1 :
  Execute platform fuel rv_ s = (Value value, s1) ->
  Execute platform (S fuel) (Assignment var_ rv_) s =
    (Value value, (<[var_ := value]> (fst s1), snd s1)) /\
  Execute platform (S fuel') (VariableValue [var_])
    (<[var_ := value]> (fst s1), snd s1) =
    (Value value, (<[var_ := value]> (fst s1), snd s1)) /\
  (forall other : string,
     other <> var_ -> (<[var_ := value]> (fst s1) : Closure) !! other = fst s1 !! other) /\
  (forall (closure : Closure) w,
     closure !! var_ = None ->
     Execute platform (S fuel') (VariableValue [var_]) (closure, w) =
     (Throw (runtime_error ("Name " ++ var_ ++ " is not defined")), (closure, w))).
Proof.
  intros Hrv. rewrite !Execute_S. cbn [Execute_node].
  split; [|split; [|split]].
  - rewrite (bind_Value _ _ _ _ _ Hrv). reflexivity.
  - unfold VariableValue_Execute, GetVarByName. cbn [fst snd].
    rewrite lookup_insert_eq. reflexivity.
  - intros other Hne. apply lookup_insert_ne. congruence.
  - intros closure w Hnone. unfold VariableValue_Execute, GetVarByName. cbn [fst snd].
    rewrite Hnone. reflexivity.
Qed.

Lemma X17_Assignment_then_read_witness :
  Execute sample_platform 2 (Assignment "z" (VariableValue ["y"]%string))
    (two_numbers, initial_world) =
    (Value (Some (Number 2)), (<["z"%string := Some (Number 2)]> two_numbers, initial_world)) /\
  Execute sample_platform 1 (VariableValue ["z"]%string)
    (<["z"%string := Some (Number 2)]> two_numbers, initial_world) =
    (Value (Some (Number 2)), (<["z"%string := Some (Number 2)]> two_numbers, initial_world)).
Proof.
  pose proof (X17_Assignment_then_read sample_platform 1 0 "z" (VariableValue ["y"]%string)
                (two_numbers, initial_world) (Some (Number 2))
                (two_numbers, initial_world) eq_refl) as (H1 & H2 & _).
  split; [exact H1 | exact H2].
Defined.

(** X18.  A field assignment whose object is an instance stores the
    value in the fields of that instance -- which everything that holds
    the instance sees -- and returns it; the class of the instance, its
    other fields, the other instances, the closure and the output are as
    the right-hand side left them. *)
Theorem X18_FieldAssignment platform fuel object_ field_name_ rv_ s this value s1 d :
  VariableValue_Execute object_ s = (Value (Some (ClassInstance this)), s) ->
  Execute platform fuel rv_ s = (Value value, s1) ->
  heap (snd s1) !! this = Some d ->
  exists w',
    Execute platform (S fuel) (FieldAssignment object_ field_name_ rv_) s =
      (Value value, (fst s1, w')) /\
    heap w' !! this =
      Some {| cls_ := cls_ d; fields_ := <[field_name_ := value]> (fields_ d) |} /\
    (forall other, other <> this -> heap w' !! other = heap (snd s1) !! other) /\
    output w' = output (snd s1).
Proof.
  intros Hobject Hrv Hd. exists (set_field this field_name_ value (snd s1)).
  split; [|split; [|split]].
  - rewrite Execute_S. cbn [Execute_node]. unfold FieldAssignment_Execute.
    rewrite (bind_Value _ _ _ _ _ Hobject), (bind_Value _ _ _ _ _ Hrv), Hd. reflexivity.
  - unfold set_field. cbn [heap]. rewrite list_lookup_alter_eq, Hd. reflexivity.
  - intros other Hne. unfold set_field. cbn [heap].
    apply list_lookup_alter_ne. congruence.
  - reflexivity.
Qed.

Lemma X18_FieldAssignment_witness :
  exists w',
    Execute sample_platform 2 (FieldAssignment ["o"]%string "v" (VariableValue ["o"]%string))
      (the_instance, a_Point) =
      (Value (Some (ClassInstance 0)), (fst (the_instance, a_Point), w')) /\
    heap w' !! 0%nat =
      Some {| cls_ := cls_ (mk_InstanceData Point (<["v"%string := Some (String "p")]> ∅));
              fields_ := <["v"%string := Some (ClassInstance 0)]>
                           (fields_ (mk_InstanceData Point
                                       (<["v"%string := Some (String "p")]> ∅))) |} /\
    (forall other, other <> 0%nat ->
                   heap w' !! other = heap (snd (the_instance, a_Point)) !! other) /\
    output w' = output (snd (the_instance, a_Point)).
Proof.
  apply (X18_FieldAssignment sample_platform 1 ["o"]%string "v" (VariableValue ["o"]%string)
           (the_instance, a_Point) 0%nat (Some (ClassInstance 0)) (the_instance, a_Point)
           (mk_InstanceData Point (<["v"%string := Some (String "p")]> ∅)));
    reflexivity.
Defined.


(** *** Logic and arithmetic *)

(** X19.  [or] and [and] execute their right operand only where the
    left one does not decide: a left operand that is true for [or], or
    false for [and], gives the result in the state it left, whatever the
    right operand is.  The result is always a [Bool], of the truth of the
    operand that decided; [not] of [not] of an expression is the [Bool] of
    its truth. *)
Theorem X19_logic_short_circuit platform fuel lhs_ rhs_ s lhs s1 :
  Execute platform fuel lhs_ s = (Value lhs, s1) ->
  (IsTrue lhs = true ->
   Execute platform (S fuel) (Or lhs_ rhs_) s = (Value (Some (Bool true)), s1)) /\
  (IsTrue lhs = false ->
   Execute platform (S fuel) (And lhs_ rhs_) s = (Value (Some (Bool false)), s1)) /\
  (forall rhs s2,
     Execute platform fuel rhs_ s1 = (Value rhs, s2) ->
     (IsTrue lhs = false ->
      Execute platform (S fuel) (Or lhs_ rhs_) s = (Value (Some (Bool (IsTrue rhs))), s2)) /\
     (IsTrue lhs = true ->
      Execute platform (S fuel) (And lhs_ rhs_) s = (Value (Some (Bool (IsTrue rhs))), s2))) /\
  Execute platform (S (S fuel)) (Not (Not lhs_)) s = (Value (Some (Bool (IsTrue lhs))), s1).
Proof.
  intros Hl. rewrite !(Execute_S platform fuel). cbn [Execute_node].
  unfold Or_Execute, And_Execute.
  split; [|split; [|split]].
  - intros Ht. unfold bind. rewrite Hl, Ht. reflexivity.
  - intros Ht. unfold bind. rewrite Hl, Ht. reflexivity.
  - intros rhs s2 Hr.
    split; intros Ht; unfold bind; rewrite Hl, Ht, Hr; reflexivity.
  - rewrite (Execute_S platform (S fuel)). cbn [Execute_node]. unfold Not_Execute at 1.
    rewrite Execute_S. cbn [Execute_node]. unfold Not_Execute.
    unfold bind. rewrite Hl. cbn. rewrite negb_involutive. reflexivity.
Qed.

Lemma X19_logic_short_circuit_witness :
  Execute sample_platform 2 (Or (VariableValue ["y"]%string) (VariableValue ["nothing"]%string))
    (two_numbers, initial_world) =
    (Value (Some (Bool true)), (two_numbers, initial_world)).
Proof.
  apply (proj1 (X19_logic_short_circuit sample_platform 1
                  (VariableValue ["y"]%string) (VariableValue ["nothing"]%string)
                  (two_numbers, initial_world) (Some (Number 2))
                  (two_numbers, initial_world) eq_refl)).
  reflexivity.
Defined.

(** X20.  On two numbers [Sub::Execute] returns their difference and
    [Mult::Execute] their product, where the payload type can hold it; on
    operands that are not two numbers they throw the runtime errors
    "Unsupported operand type(s) for -" and "... for *", after both
    operands were executed, the left one first. *)
Theorem X20_Sub_and_Mult platform fuel lhs_ rhs_ s lhs rhs s1 s2 :
  Execute platform fuel lhs_ s = (Value lhs, s1) ->
  Execute platform fuel rhs_ s1 = (Value rhs, s2) ->
  (forall a b,
     lhs = Some (Number a) -> rhs = Some (Number b) ->
     (representable platform (a - b) = true ->
      Execute platform (S fuel) (Sub lhs_ rhs_) s = (Value (Some (Number (a - b))), s2)) /\
     (representable platform (a * b) = true ->
      Execute platform (S fuel) (Mult lhs_ rhs_) s = (Value (Some (Number (a * b))), s2))) /\
  ((forall a b, lhs <> Some (Number a) \/ rhs <> Some (Number b)) ->
   Execute platform (S fuel) (Sub lhs_ rhs_) s =
     (Throw (runtime_error "Unsupported operand type(s) for -"), s2) /\
   Execute platform (S fuel) (Mult lhs_ rhs_) s =
     (Throw (runtime_error "Unsupported operand type(s) for *"), s2)).
Proof.
  intros Hl Hr. rewrite !Execute_S. cbn [Execute_node].
  unfold Sub_Execute, Mult_Execute, Arithmetic_Execute.
  rewrite !(bind_Value _ _ _ _ _ Hl), !(bind_Value _ _ _ _ _ Hr).
  split.
  - intros a b -> ->. unfold arithmetic_result.
    split; intros ->; reflexivity.
  - intros Hnot.
    destruct lhs as [[a|a|a|a|a]|]; try (split; reflexivity);
      destruct rhs as [[b|b|b|b|b]|]; try (split; reflexivity).
    destruct (Hnot a b) as [H|H]; congruence.
Qed.

Lemma X20_Sub_and_Mult_witness :
  Execute sample_platform 2 (Sub (VariableValue ["x"]%string) (VariableValue ["y"]%string))
    (two_numbers, initial_world) =
    (Value (Some (Number (-7 - 2))), (two_numbers, initial_world)) /\
  Execute sample_platform 2 (Mult (VariableValue ["x"]%string) (VariableValue ["y"]%string))
    (two_numbers, initial_world) =
    (Value (Some (Number (-7 * 2))), (two_numbers, initial_world)).
Proof.
  pose proof (proj1 (X20_Sub_and_Mult sample_platform 1
                       (VariableValue ["x"]%string) (VariableValue ["y"]%string)
                       (two_numbers, initial_world) (Some (Number (-7))) (Some (Number 2))
                       (two_numbers, initial_world) (two_numbers, initial_world)
                       eq_refl eq_refl) (-7) 2 eq_refl eq_refl) as [H1 H2].
  split; [apply H1 | apply H2]; reflexivity.
Defined.

(** *** Printing *)

(** X21.  [print e] writes what [str(e)] returns, and a newline after
    it: where [Stringify::Execute] of an expression returns a string,
    [Print::Execute] of that expression alone leaves the same state with
    that string and a newline added to the output, and returns the empty
    holder. *)
Theorem X21_Print_writes_Stringify platform fuel argument_ s text closure w :
  Execute platform (S fuel) (Stringify argument_) s =
    (Value (Some (String text)), (closure, w)) ->
  Execute platform (S fuel) (Print [argument_]) s =
    (Value None, (closure, write (String.String chars.newline "") (write text w))).
Proof.
  destruct s as [closure0 w0].
  rewrite !Execute_S. cbn [Execute_node Print_args].
  unfold Stringify_Execute, bind, lift, ret, os_write. cbn [fst snd].
  destruct (Execute platform fuel argument_ (closure0, w0)) as [[[o|]|e| |] [cl1 w1]];
    cbn [fst snd]; try discriminate.
  - destruct (Object_Print platform fuel o w1) as [[t|e| |] w2]; try discriminate.
    inversion 1; subst. reflexivity.
  - inversion 1; subst. reflexivity.
Qed.

Lemma X21_Print_writes_Stringify_witness :
  Execute sample_platform 6 (Print [VariableValue ["o"]%string]) (the_instance, a_Point) =
  (Value None,
   (the_instance, write (String.String chars.newline "") (write "p" a_Point))).
Proof.
  apply (X21_Print_writes_Stringify sample_platform 5 (VariableValue ["o"]%string)
           (the_instance, a_Point) "p" the_instance a_Point).
  vm_compute. reflexivity.
Defined.


(** X22.  [str] of an expression whose value is the empty holder is the
    string [None]; of a [Bool] it is [True] or [False], and of a class
    [Class] and the name of the class.  The state is the one the
    expression left. *)
Theorem X22_Stringify_values platform fuel argument_ s value s1 :
  Execute platform (S fuel) argument_ s = (Value value, s1) ->
  (value = None ->
   Execute platform (S (S fuel)) (Stringify argument_) s =
   (Value (Some (String "None")), s1)) /\
  (forall b, value = Some (Bool b) ->
   Execute platform (S (S fuel)) (Stringify argument_) s =
   (Value (Some (String (if b then "True" else "False"))), s1)) /\
  (forall cls, value = Some (ClassObject cls) ->
   Execute platform (S (S fuel)) (Stringify argument_) s =
   (Value (Some (String ("Class " ++ name_ cls))), s1)).
Proof.
  intros H.
  assert (Hs : Execute platform (S (S fuel)) (Stringify argument_) s =
               (let* object := ret value in
                match object with
                | Some o =>
                    let* text := lift (Object_Print platform (S fuel) o) in
                    ret (Some (String text))
                | None => ret (Some (String "None"))
                end) s1).
  { rewrite (Execute_S platform (S fuel)). cbn [Execute_node].
    unfold Stringify_Execute. unfold bind at 1. rewrite H. reflexivity. }
  rewrite Hs. destruct s1 as [closure w].
  split; [|split].
  - intros ->. reflexivity.
  - intros b ->. destruct b; reflexivity.
  - intros cls ->. reflexivity.
Qed.

Lemma X22_Stringify_values_witness :
  Execute sample_platform 3 (Stringify (VariableValue ["nothing"]%string))
    (<["nothing"%string := None]> ∅, initial_world) =
  (Value (Some (String "None")), (<["nothing"%string := None]> ∅, initial_world)).
Proof.
  apply (X22_Stringify_values sample_platform 1 (VariableValue ["nothing"]%string)
           (<["nothing"%string := None]> ∅, initial_world) None
           (<["nothing"%string := None]> ∅, initial_world)).
  - vm_compute. reflexivity.
  - reflexivity.
Defined.

(** *** Comparisons of primitive values *)

Lemma String_compare_refl a : String.compare a a = Eq.
Proof.
  pose proof (String.compare_antisym a a) as H.
  destruct (String.compare a a); [reflexivity|discriminate H|discriminate H].
Qed.

Lemma String_trichotomy a b :
  (String.ltb a b, String.eqb a b, String.ltb b a) = (true, false, false) \/
  (String.ltb a b, String.eqb a b, String.ltb b a) = (false, true, false) \/
  (String.ltb a b, String.eqb a b, String.ltb b a) = (false, false, true).
Proof.
  unfold String.ltb. rewrite (String.compare_antisym a b).
  destruct (String.eqb_spec a b) as [->|Hne].
  - rewrite String_compare_refl. right. left. reflexivity.
  - destruct (String.compare b a) eqn:E; simpl.
    + apply String.compare_eq_iff in E. congruence.
    + right. right. reflexivity.
    + left. reflexivity.
Qed.

Lemma Z_trichotomy a b :
  (a <? b, a =? b, b <? a) = (true, false, false) \/
  (a <? b, a =? b, b <? a) = (false, true, false) \/
  (a <? b, a =? b, b <? a) = (false, false, true).
Proof.
  destruct (Z.ltb_spec a b), (Z.eqb_spec a b), (Z.ltb_spec b a); auto; lia.
Qed.

(** X23.  On two numbers, two booleans or two strings the comparisons
    are those of an order: [Equal] holds of a value and itself and does
    not depend on the side of the operands, [Greater] is [Less] with the
    operands exchanged, and [LessOrEqual] is [GreaterOrEqual] with the
    operands exchanged.  None of them changes the world. *)
Theorem X23_primitive_comparisons
    (Execute : Statement -> M Scope ObjectHolder) (lhs rhs : ObjectHolder) (w : World) :
  same_primitive lhs rhs = true ->
  Equal Execute lhs lhs w = (Value true, w) /\
  Equal Execute lhs rhs w = Equal Execute rhs lhs w /\
  Greater Execute lhs rhs w = Less Execute rhs lhs w /\
  LessOrEqual Execute lhs rhs w = GreaterOrEqual Execute rhs lhs w /\
  exists less equal,
    Less Execute lhs rhs w = (Value less, w) /\
    Equal Execute lhs rhs w = (Value equal, w) /\
    (less && equal = false).
Proof.
  intros H.
  destruct lhs as [[a|a|a|a|a]|]; destruct rhs as [[b|b|b|b|b]|]; try discriminate H;
    unfold Greater, LessOrEqual, GreaterOrEqual, NotEqual; cbn.
  - rewrite Z.eqb_refl, (Z.eqb_sym b a).
    destruct (Z_trichotomy a b) as [E|[E|E]]; injection E as -> -> ->;
      repeat split; eexists _, _; repeat split.
  - rewrite String.eqb_refl, (String.eqb_sym b a).
    destruct (String_trichotomy a b) as [E|[E|E]]; injection E as -> -> ->;
      repeat split; eexists _, _; repeat split.
  - destruct a, b; repeat split; eexists _, _; repeat split.
Qed.

Lemma X23_primitive_comparisons_witness :
  Equal (Execute sample_platform 1) (Some (String "a")) (Some (String "a")) initial_world =
    (Value true, initial_world) /\
  Equal (Execute sample_platform 1) (Some (String "a")) (Some (String "b")) initial_world =
    Equal (Execute sample_platform 1) (Some (String "b")) (Some (String "a")) initial_world /\
  Greater (Execute sample_platform 1) (Some (String "a")) (Some (String "b")) initial_world =
    Less (Execute sample_platform 1) (Some (String "b")) (Some (String "a")) initial_world /\
  LessOrEqual (Execute sample_platform 1) (Some (String "a")) (Some (String "b"))
    initial_world =
    GreaterOrEqual (Execute sample_platform 1) (Some (String "b")) (Some (String "a"))
      initial_world /\
  exists less equal,
    Less (Execute sample_platform 1) (Some (String "a")) (Some (String "b")) initial_world =
      (Value less, initial_world) /\
    Equal (Execute sample_platform 1) (Some (String "a")) (Some (String "b")) initial_world =
      (Value equal, initial_world) /\
    (less && equal = false).
Proof.
  apply (X23_primitive_comparisons (Execute sample_platform 1)
           (Some (String "a")) (Some (String "b")) initial_world).
  reflexivity.
Defined.

(** X24.  What cannot be compared throws: [Less] with an empty holder on
    either side, and [Equal] and [Less] when the left operand is no class
    instance and the operands are not two numbers, two booleans or two
    strings -- except that [Equal] of two empty holders is true.  The
    world is not changed. *)
Theorem X24_incomparable
    (Execute : Statement -> M Scope ObjectHolder) (lhs rhs : ObjectHolder) (w : World) :
  is_instance lhs = false ->
  same_primitive lhs rhs = false ->
  (is_empty lhs && is_empty rhs = true -> Equal Execute lhs rhs w = (Value true, w)) /\
  (is_empty lhs && is_empty rhs = false ->
   Equal Execute lhs rhs w =
   (Throw (runtime_error "Cannot compare objects for equality"), w)) /\
  (is_empty lhs || is_empty rhs = true ->
   Less Execute lhs rhs w =
   (Throw (runtime_error "Cannot compare objects for equality 1"), w)) /\
  (is_empty lhs || is_empty rhs = false ->
   Less Execute lhs rhs w =
   (Throw (runtime_error "Cannot compare objects for equality 2"), w)).
Proof.
  intros Hi Hp.
  destruct lhs as [[a|a|a|a|a]|]; try discriminate Hi;
    destruct rhs as [[b|b|b|b|b]|]; try discriminate Hp;
    repeat split; intros H; try discriminate H; reflexivity.
Qed.

Lemma X24_incomparable_witness :
  Equal (Execute sample_platform 1) (Some (Number 1)) (Some (String "1")) initial_world =
    (Throw (runtime_error "Cannot compare objects for equality"), initial_world) /\
  Less (Execute sample_platform 1) None (Some (Number 1)) initial_world =
    (Throw (runtime_error "Cannot compare objects for equality 1"), initial_world).
Proof.
  split.
  - apply (proj1 (proj2 (X24_incomparable (Execute sample_platform 1)
                           (Some (Number 1)) (Some (String "1")) initial_world
                           eq_refl eq_refl))).
    reflexivity.
  - apply (proj1 (proj2 (proj2 (X24_incomparable (Execute sample_platform 1)
                                  None (Some (Number 1)) initial_world
                                  eq_refl eq_refl)))).
    reflexivity.
Defined.


(** *** The output only grows *)

Lemma appends_refl w : appends w w.
Proof. exists ""%string. symmetry. apply lexer_proofs.append_nil_r. Qed.

Lemma appends_trans w1 w2 w3 : appends w1 w2 -> appends w2 w3 -> appends w1 w3.
Proof.
  intros [t1 O1] [t2 O2].
  exists (t1 ++ t2)%string. rewrite O2, O1. apply lexer_proofs.append_assoc.
Qed.

Lemma appends_write text w : appends w (write text w).
Proof. exists text. reflexivity. Qed.

Lemma appends_allocate cls w : appends w (snd (allocate cls w)).
Proof. exists ""%string. symmetry. apply lexer_proofs.append_nil_r. Qed.

Lemma appends_set_field address field value w : appends w (set_field address field value w).
Proof. exists ""%string. symmetry. apply lexer_proofs.append_nil_r. Qed.

Lemma keeps_ret {S A} (world : S -> World) (a : A) : keeps_output world (ret a).
Proof. intros s. apply appends_refl. Qed.

Lemma keeps_raise {S A} (world : S -> World) e : keeps_output world (@raise S A e).
Proof. intros s. apply appends_refl. Qed.

Lemma keeps_undefined {S A} (world : S -> World) : keeps_output world (@undefined S A).
Proof. intros s. apply appends_refl. Qed.

Lemma keeps_out_of_fuel {S A} (world : S -> World) : keeps_output world (@out_of_fuel S A).
Proof. intros s. apply appends_refl. Qed.

Lemma keeps_bind {S A B} (world : S -> World) (m : M S A) (k : A -> M S B) :
  keeps_output world m -> (forall a, keeps_output world (k a)) -> keeps_output world (bind m k).
Proof.
  intros Hm Hk s. unfold bind. specialize (Hm s).
  destruct (m s) as [[a|e| |] s1]; cbn [snd] in *; try exact Hm.
  eapply appends_trans; [exact Hm|apply Hk].
Qed.

Lemma keeps_lift {A} (m : M World A) : keeps_output the_world m -> keeps_output snd (lift m).
Proof.
  intros Hm [closure w]. unfold lift. specialize (Hm w). unfold the_world in Hm.
  cbn [fst snd]. destruct (m w) as [r w1]. exact Hm.
Qed.

Lemma keeps_os_write text : keeps_output the_world (os_write text).
Proof. intros w. apply appends_write. Qed.

Lemma keeps_bind_name var value : keeps_output snd (bind_name var value).
Proof. intros s. apply appends_refl. Qed.

Section nodes_keep.

Variable platform : Platform.
Variable Execute : Statement -> M Scope ObjectHolder.
Variable Object_Print : Object -> M World string.
Hypothesis Execute_keeps : forall statement, keeps_output snd (Execute statement).
Hypothesis Object_Print_keeps : forall object, keeps_output the_world (Object_Print object).

Ltac keeps_step :=
  first
    [ apply keeps_ret | apply keeps_raise | apply keeps_undefined
    | apply Execute_keeps | apply Object_Print_keeps
    | apply keeps_os_write | apply keeps_bind_name
    | apply keeps_lift
    | apply keeps_bind; [|intros ?]
    | match goal with
      | |- keeps_output _ (match ?x with _ => _ end) => destruct x
      end ].

Ltac keeps_all := repeat keeps_step.

Lemma arithmetic_result_keeps {S} (world : S -> World) z :
  keeps_output world (arithmetic_result platform z).
Proof. unfold arithmetic_result. keeps_all. Qed.

Lemma Call_keeps this method actual_args :
  keeps_output the_world (Call Execute this method actual_args).
Proof.
  intros w. unfold Call, the_world.
  destruct (heap w !! this) as [self|]; [|apply appends_refl].
  destruct (HasMethod self method (length actual_args)); [|apply appends_refl].
  destruct (GetMethod (cls_ self) method) as [class_method|]; [|apply appends_refl].
  pose proof (Execute_keeps (body class_method)
                (bind_params (<["self"%string := Some (ClassInstance this)]> ∅)
                   (formal_params class_method) actual_args, w)) as H.
  destruct (Execute _ _) as [r [closure w1]]. exact H.
Qed.

Lemma Holder_Print_keeps holder : keeps_output the_world (Holder_Print Object_Print holder).
Proof. unfold Holder_Print. keeps_all. Qed.

Lemma ClassInstance_Print_keeps this :
  keeps_output the_world (ClassInstance_Print platform Execute Object_Print this).
Proof.
  intros w. unfold ClassInstance_Print.
  destruct (heap w !! this) as [self|]; [|apply appends_refl].
  destruct (HasMethod self "__str__" 0); [|apply appends_refl].
  apply (keeps_bind the_world); [apply Call_keeps|intros r; apply Holder_Print_keeps].
Qed.

Lemma Print_object_keeps object :
  keeps_output the_world (Print_object platform Execute Object_Print object).
Proof.
  destruct object; cbn [Print_object]; try apply keeps_ret.
  apply ClassInstance_Print_keeps.
Qed.

Lemma Bool_value_keeps res : keeps_output the_world (Bool_value res).
Proof. unfold Bool_value. keeps_all. Qed.

Lemma instance_has_keeps this method argument_count :
  keeps_output the_world (instance_has this method argument_count).
Proof.
  intros w. unfold instance_has. destruct (heap w !! this); apply appends_refl.
Qed.

Lemma Equal_keeps lhs rhs : keeps_output the_world (Equal Execute lhs rhs).
Proof.
  unfold Equal.
  destruct lhs as [[a|a|a|a|a]|]; destruct rhs as [[b|b|b|b|b]|];
    try apply keeps_ret; try apply keeps_raise;
    (apply keeps_bind; [apply instance_has_keeps|]; intros [|]; [|apply keeps_raise];
     apply keeps_bind; [apply Call_keeps|intros r; apply Bool_value_keeps]).
Qed.

Lemma Less_keeps lhs rhs : keeps_output the_world (Less Execute lhs rhs).
Proof.
  unfold Less.
  destruct lhs as [[a|a|a|a|a]|]; destruct rhs as [[b|b|b|b|b]|];
    try apply keeps_ret; try apply keeps_raise;
    (apply keeps_bind; [apply instance_has_keeps|]; intros [|]; [|apply keeps_raise];
     apply keeps_bind; [apply Call_keeps|intros r; apply Bool_value_keeps]).
Qed.

Lemma compare_with_keeps cmp lhs rhs : keeps_output the_world (compare_with Execute cmp lhs rhs).
Proof.
  pose proof (Equal_keeps lhs rhs) as HE. pose proof (Less_keeps lhs rhs) as HL.
  assert (HN : keeps_output the_world (NotEqual Execute lhs rhs)).
  { unfold NotEqual. apply keeps_bind; [exact HE|intros; apply keeps_ret]. }
  destruct cmp; cbn [compare_with]; try assumption.
  - unfold Greater. apply keeps_bind; [exact HL|]. intros [|]; cbn [negb];
      [apply keeps_ret|exact HN].
  - unfold LessOrEqual. apply keeps_bind; [exact HL|]. intros [|];
      [apply keeps_ret|exact HE].
  - unfold GreaterOrEqual. apply keeps_bind; [exact HL|intros; apply keeps_ret].
Qed.

Lemma Execute_all_keeps args : keeps_output snd (Execute_all Execute args).
Proof. induction args as [|arg args IH]; cbn [Execute_all]; keeps_all. exact IH. Qed.

Lemma VariableValue_Execute_keeps dotted_ids : keeps_output snd (VariableValue_Execute dotted_ids).
Proof.
  intros s. destruct (VariableValue_Execute dotted_ids s) as [r s1] eqn:E.
  apply VariableValue_Execute_state in E. subst s1. apply appends_refl.
Qed.

Lemma Print_args_keeps is_first args :
  keeps_output snd (Print_args Execute Object_Print is_first args).
Proof.
  revert is_first. induction args as [|arg args IH]; intros is_first; cbn [Print_args].
  - apply keeps_ret.
  - apply keeps_bind; [destruct is_first; keeps_all|intros _].
    apply keeps_bind; [apply Execute_keeps|intros object].
    apply keeps_bind; [destruct object; keeps_all|intros _]. apply IH.
Qed.

Lemma Add_Execute_keeps lhs_ rhs_ : keeps_output snd (Add_Execute platform Execute lhs_ rhs_).
Proof.
  unfold Add_Execute.
  apply keeps_bind; [apply Execute_keeps|intros lhs].
  apply keeps_bind; [apply Execute_keeps|intros rhs].
  destruct lhs as [left_object|]; [|apply keeps_raise].
  destruct rhs as [right_object|]; [|apply keeps_raise].
  destruct (Addition_Number _ _); [apply arithmetic_result_keeps|].
  destruct (Addition_String _ _); [apply keeps_ret|].
  destruct left_object; try apply keeps_raise.
  apply keeps_bind; [apply keeps_lift, instance_has_keeps|]. intros [|];
    [apply keeps_lift, Call_keeps|apply keeps_raise].
Qed.

Lemma Arithmetic_Execute_keeps lhs_ rhs_ compute what :
  (forall a b, keeps_output snd (compute a b)) ->
  keeps_output snd (Arithmetic_Execute Execute lhs_ rhs_ compute what).
Proof.
  intros H. unfold Arithmetic_Execute.
  apply keeps_bind; [apply Execute_keeps|intros lhs].
  apply keeps_bind; [apply Execute_keeps|intros rhs].
  destruct lhs as [[a|a|a|a|a]|]; try apply keeps_raise;
    destruct rhs as [[b|b|b|b|b]|]; try apply keeps_raise. apply H.
Qed.

Lemma Compound_Execute_keeps statements : keeps_output snd (Compound_Execute Execute statements).
Proof.
  induction statements as [|statement statements IH]; cbn [Compound_Execute]; keeps_all.
  exact IH.
Qed.

Lemma MethodCall_Execute_keeps object_ method_ args_ :
  keeps_output snd (MethodCall_Execute Execute object_ method_ args_).
Proof.
  unfold MethodCall_Execute.
  apply keeps_bind; [apply Execute_all_keeps|intros arguments].
  apply keeps_bind; [apply Execute_keeps|intros object].
  destruct object as [[a|a|a|a|a]|]; try apply keeps_undefined.
  apply keeps_lift, Call_keeps.
Qed.

Lemma FieldAssignment_Execute_keeps object_ field_name_ rv_ :
  keeps_output snd (FieldAssignment_Execute Execute object_ field_name_ rv_).
Proof.
  unfold FieldAssignment_Execute.
  apply keeps_bind; [apply VariableValue_Execute_keeps|intros object].
  apply keeps_bind; [apply Execute_keeps|intros value].
  destruct object as [[a|a|a|a|a]|]; try apply keeps_undefined.
  intros s. destruct (heap s.2 !! a); [|apply appends_refl].
  apply appends_set_field.
Qed.

Lemma NewInstance_Execute_keeps class_ args_ :
  keeps_output snd (NewInstance_Execute Execute class_ args_).
Proof.
  intros [closure w]. unfold NewInstance_Execute.
  pose proof (appends_allocate class_ w) as Ha.
  cbn [fst snd] in *. destruct (allocate class_ w) as [this w1]. cbn [snd] in Ha.
  destruct (HasMethod _ _ _); [|exact Ha].
  eapply appends_trans; [exact Ha|].
  apply (keeps_bind snd _ _ (Execute_all_keeps args_)
           (fun params =>
              keeps_bind snd _ _ (keeps_lift _ (Call_keeps this INIT_METHOD params))
                (fun _ => keeps_ret snd (Some (ClassInstance this)))) (closure, w1)).
Qed.

Lemma MethodBody_Execute_keeps body_ : keeps_output snd (MethodBody_Execute Execute body_).
Proof.
  intros s. unfold MethodBody_Execute. pose proof (Execute_keeps body_ s) as H.
  destruct (Execute body_ s) as [[a|[what|result]| |] s1]; exact H.
Qed.

Lemma Execute_node_keeps statement :
  keeps_output snd (Execute_node platform Execute Object_Print statement).
Proof.
  destruct statement; cbn [Execute_node].
  - keeps_all.
  - apply VariableValue_Execute_keeps.
  - apply keeps_bind; [apply Print_args_keeps|intros _]. keeps_all.
  - apply MethodCall_Execute_keeps.
  - unfold Stringify_Execute. keeps_all.
  - apply Add_Execute_keeps.
  - apply Arithmetic_Execute_keeps. intros; apply arithmetic_result_keeps.
  - apply Arithmetic_Execute_keeps. intros; apply arithmetic_result_keeps.
  - apply Arithmetic_Execute_keeps. intros a b. destruct (b >? 0); keeps_all.
  - apply Compound_Execute_keeps.
  - keeps_all.
  - unfold ClassDefinition_Execute. keeps_all.
  - apply FieldAssignment_Execute_keeps.
  - unfold IfElse_Execute. apply keeps_bind; [apply Execute_keeps|intros c].
    destruct (IsTrue c); [apply Execute_keeps|]. keeps_all.
  - unfold Or_Execute. apply keeps_bind; [apply Execute_keeps|intros c].
    destruct (IsTrue c); keeps_all.
  - unfold And_Execute. apply keeps_bind; [apply Execute_keeps|intros c].
    destruct (IsTrue c); keeps_all.
  - unfold Not_Execute. keeps_all.
  - unfold Comparison_Execute.
    apply keeps_bind; [apply Execute_keeps|intros lhs].
    apply keeps_bind; [apply Execute_keeps|intros rhs].
    apply keeps_bind; [apply keeps_lift, compare_with_keeps|intros; apply keeps_ret].
  - apply NewInstance_Execute_keeps.
  - apply MethodBody_Execute_keeps.
Qed.

End nodes_keep.

Lemma Execute_keeps_output platform fuel :
  (forall statement, keeps_output snd (Execute platform fuel statement)) /\
  (forall object, keeps_output the_world (Object_Print platform fuel object)).
Proof.
  induction fuel as [|fuel [IHE IHP]].
  - split; intros; apply keeps_out_of_fuel.
  - split.
    + intros statement. rewrite Execute_S. apply Execute_node_keeps; assumption.
    + intros object. rewrite Object_Print_S. apply Print_object_keeps; assumption.
Qed.

(** X25.  Whatever a statement does and however it ends -- with a value
    or with an exception --, the output after it is the output before it
    with some text appended: nothing that was written is taken back or
    changed.  The same holds of every [Print]. *)
Theorem X25_output_only_grows platform fuel statement object (s : Scope) (w : World) :
  appends (snd s) (snd (snd (Execute platform fuel statement s))) /\
  appends w (snd (Object_Print platform fuel object w)).
Proof.
  destruct (Execute_keeps_output platform fuel) as [HE HP].
  split; [apply HE|apply (HP object w)].
Qed.

(** *** [Add], [Comparison] and [IfElse] *)

(** X26.  [Add::Execute] executes the left operand and then the right
    one.  Two numbers give their sum, where the payload type can hold it,
    and two strings their concatenation.  An empty right operand throws
    the runtime error of [+] whatever the left operand is, and so does a
    left operand that is no class instance when the operands are not two
    numbers or two strings -- two booleans among them. *)
Theorem X26_Add platform fuel lhs_ rhs_ s lhs rhs s1 s2 :
  Execute platform fuel lhs_ s = (Value lhs, s1) ->
  Execute platform fuel rhs_ s1 = (Value rhs, s2) ->
  (forall a b,
     lhs = Some (Number a) -> rhs = Some (Number b) ->
     representable platform (a + b) = true ->
     Execute platform (S fuel) (Add lhs_ rhs_) s = (Value (Some (Number (a + b))), s2)) /\
  (forall a b,
     lhs = Some (String a) -> rhs = Some (String b) ->
     Execute platform (S fuel) (Add lhs_ rhs_) s = (Value (Some (String (a ++ b))), s2)) /\
  (rhs = None ->
   Execute platform (S fuel) (Add lhs_ rhs_) s = (Throw unsupported_plus, s2)) /\
  (is_instance lhs = false ->
   is_number lhs && is_number rhs = false ->
   is_string lhs && is_string rhs = false ->
   Execute platform (S fuel) (Add lhs_ rhs_) s = (Throw unsupported_plus, s2)).
Proof.
  intros Hl Hr. rewrite !Execute_S. cbn [Execute_node].
  unfold Add_Execute.
  rewrite !(bind_Value _ _ _ _ _ Hl), !(bind_Value _ _ _ _ _ Hr).
  split; [|split; [|split]].
  - intros a b -> -> Hrep. cbn. unfold arithmetic_result. rewrite Hrep. reflexivity.
  - intros a b -> ->. reflexivity.
  - intros ->. destruct lhs; reflexivity.
  - intros Hi Hn Hs.
    destruct lhs as [[a|a|a|a|a]|]; try discriminate Hi;
      destruct rhs as [[b|b|b|b|b]|]; try discriminate Hn; try discriminate Hs;
      reflexivity.
Qed.

Lemma X26_Add_witness :
  Execute sample_platform 2 (Add (VariableValue ["x"]%string) (VariableValue ["y"]%string))
    (two_numbers, initial_world) =
  (Value (Some (Number (-7 + 2))), (two_numbers, initial_world)).
Proof.
  apply (proj1 (X26_Add sample_platform 1
                  (VariableValue ["x"]%string) (VariableValue ["y"]%string)
                  (two_numbers, initial_world) (Some (Number (-7))) (Some (Number 2))
                  (two_numbers, initial_world) (two_numbers, initial_world)
                  eq_refl eq_refl) (-7) 2); reflexivity.
Defined.

Lemma compare_with_numbers (Execute : Statement -> M Scope ObjectHolder) cmp_ a b w :
  compare_with Execute cmp_ (Some (Number a)) (Some (Number b)) w =
  (Value (integer_order cmp_ a b), w).
Proof.
  assert (Hle : forall x y : Z, (x <=? y) = negb (y <? x)).
  { intros x y. destruct (Z.leb_spec x y), (Z.ltb_spec y x); try reflexivity; lia. }
  destruct cmp_; cbn [compare_with integer_order];
    unfold Greater, LessOrEqual, GreaterOrEqual, NotEqual; cbn; rewrite ?Hle;
    try reflexivity;
    destruct (Z_trichotomy a b) as [E|[E|E]]; injection E as E1 E2 E3;
    rewrite ?E1, ?E2, ?E3; reflexivity.
Qed.

(** X27.  A [Comparison] of two expressions whose values are numbers is
    the [Bool] of the order of the integers: [Greater], [LessOrEqual] and
    [GreaterOrEqual], which the code derives from [Less] and [Equal], are
    [>], [<=] and [>=].  C++ leaves open which operand is executed first;
    for operands that leave the state as it is the result is the same
    either way, and the state is unchanged. *)
Theorem X27_Comparison_of_numbers platform fuel cmp_ lhs_ rhs_ s a b :
  Execute platform fuel lhs_ s = (Value (Some (Number a)), s) ->
  Execute platform fuel rhs_ s = (Value (Some (Number b)), s) ->
  Execute platform (S fuel) (Comparison cmp_ lhs_ rhs_) s =
    (Value (Some (Bool (integer_order cmp_ a b))), s) /\
  Comparison_Execute_right_first (Execute platform fuel) cmp_ lhs_ rhs_ s =
    (Value (Some (Bool (integer_order cmp_ a b))), s).
Proof.
  intros Hl Hr. split.
  - rewrite Execute_S. cbn [Execute_node]. unfold Comparison_Execute.
    rewrite (bind_Value _ _ _ _ _ Hl), (bind_Value _ _ _ _ _ Hr).
    destruct s as [closure w]. unfold bind, lift. cbn [fst snd].
    rewrite compare_with_numbers. reflexivity.
  - unfold Comparison_Execute_right_first.
    rewrite (bind_Value _ _ _ _ _ Hr), (bind_Value _ _ _ _ _ Hl).
    destruct s as [closure w]. unfold bind, lift. cbn [fst snd].
    rewrite compare_with_numbers. reflexivity.
Qed.

Lemma X27_Comparison_of_numbers_witness :
  Execute sample_platform 2
    (Comparison CmpLessOrEqual (VariableValue ["x"]%string) (VariableValue ["y"]%string))
    (two_numbers, initial_world) =
    (Value (Some (Bool (integer_order CmpLessOrEqual (-7) 2))), (two_numbers, initial_world)) /\
  Comparison_Execute_right_first (Execute sample_platform 1) CmpLessOrEqual
    (VariableValue ["x"]%string) (VariableValue ["y"]%string) (two_numbers, initial_world) =
    (Value (Some (Bool (integer_order CmpLessOrEqual (-7) 2))), (two_numbers, initial_world)).
Proof.
  apply (X27_Comparison_of_numbers sample_platform 1 CmpLessOrEqual
           (VariableValue ["x"]%string) (VariableValue ["y"]%string)
           (two_numbers, initial_world) (-7) 2);
    reflexivity.
Defined.

(** X28.  [IfElse::Execute] executes one branch, in the state the
    condition left: the first where the value of the condition is true,
    the second otherwise, and without a second branch it returns the
    empty holder.  Negating the condition exchanges the branches.  Where
    the condition throws, no branch is executed. *)
Theorem X28_IfElse platform fuel condition_ if_body_ else_body_ s :
  (forall condition s1,
     Execute platform fuel condition_ s = (Value condition, s1) ->
     Execute platform (S fuel) (IfElse condition_ if_body_ else_body_) s =
       (if IsTrue condition then Execute platform fuel if_body_ s1
        else match else_body_ with
             | Some else_body => Execute platform fuel else_body s1
             | None => (Value None, s1)
             end) /\
     forall other,
       Execute platform (S (S fuel)) (IfElse (Not condition_) other (Some if_body_)) s =
       Execute platform (S fuel) (if IsTrue condition then if_body_ else other) s1) /\
  (forall e s1,
     Execute platform fuel condition_ s = (Throw e, s1) ->
     Execute platform (S fuel) (IfElse condition_ if_body_ else_body_) s = (Throw e, s1)).
Proof.
  split.
  - intros condition s1 Hc. split.
    + rewrite Execute_S. cbn [Execute_node]. unfold IfElse_Execute, bind. rewrite Hc.
      destruct (IsTrue condition); [reflexivity|]. destruct else_body_; reflexivity.
    + intros other. rewrite (Execute_S platform (S fuel)). cbn [Execute_node].
      unfold IfElse_Execute. unfold bind at 1.
      rewrite (Execute_S platform fuel (Not condition_)). cbn [Execute_node].
      unfold Not_Execute, bind. rewrite Hc. cbn.
      destruct (IsTrue condition); reflexivity.
  - intros e s1 Hc. rewrite Execute_S. cbn [Execute_node].
    unfold IfElse_Execute, bind. rewrite Hc. reflexivity.
Qed.

Lemma X28_IfElse_witness :
  Execute sample_platform 2
    (IfElse (VariableValue ["y"]%string) (VariableValue ["x"]%string) None)
    (two_numbers, initial_world) =
  Execute sample_platform 1 (VariableValue ["x"]%string) (two_numbers, initial_world).
Proof.
  apply (proj1 (proj1 (X28_IfElse sample_platform 1
                         (VariableValue ["y"]%string) (VariableValue ["x"]%string) None
                         (two_numbers, initial_world))
                  (Some (Number 2)) (two_numbers, initial_world) eq_refl)).
Defined.

End evaluator_more_proofs.
